(** * Seeded character-level text sampler: a shallow embedding

    Embedding of [Lab_4/Lab_4_Kendall_Davies/advanced_text_generation.py]:
    the sampling engine [generate_text_with_seed], one batch driver over a
    phrase list, the interactive session and the quality analysis.

    Conventions.
    - A Python [str] is a [string]; a character is a code point below 256
      (the Latin-1 range), so [ascii] is read as a code point, not a byte.
    - A Python [int] is a [Z]; a [dict] is a [gmap]; a [dict] whose
      iteration order is observed is an association list.
    - Everything numeric that belongs to torch or to Python floats is an
      interface, [Numerics]: tensors, the recurrent state, the random
      generator, division of a tensor by the temperature, softmax, the
      categorical draw, [float(s)], the literal [0.8] and the [.1f]
      rendering of a quotient.  They are total functions here.  The one
      exception of torch that the program itself can catch, the
      [ValueError] of a sampler that refuses its probabilities, is in the
      section on the validating sampler.
    - Effects are threaded through a [World]: the lines still to be read on
      standard input, the state of the random generator and the trace of
      everything the program did so far (text written, calls to the
      engine, to the network and to torch).
    - Python exceptions are results [Raise e]; what was done before the
      exception stays in the world.
    - The run is on a machine with the GPU that the engine moves the seed
      to (line 39); on another one that line raises before anything is
      generated. *)

From Stdlib Require Import ZArith QArith List Ascii String Lia.
From Stdlib Require Import Sorting.Sorted Sorting.Permutation.
From stdpp Require Import gmap strings list pretty.

Local Open Scope Z_scope.

(** ** Python text primitives *)

Module Py.

Definition nl : string := String (ascii_of_nat 10) EmptyString.

Definition chr (c : ascii) : string := String c EmptyString.

Definition code (c : ascii) : N := N_of_ascii c.

(** [str.isspace] on one code point below 256. *)
Definition isspace (c : ascii) : bool :=
  let n := code c in
  ((9 <=? n) && (n <=? 13) || (28 <=? n) && (n <=? 32)
   || (n =? 133) || (n =? 160))%N.

(** [str.lower] on one code point below 256. *)
Definition lower_char (c : ascii) : ascii :=
  let n := code c in
  if ((65 <=? n) && (n <=? 90)
      || (192 <=? n) && (n <=? 222) && negb (n =? 215))%N
  then ascii_of_N (n + 32) else c.

Fixpoint lower (s : string) : string :=
  match s with
  | EmptyString => EmptyString
  | String c r => String (lower_char c) (lower r)
  end.

Fixpoint lstrip_list (space : ascii -> bool) (l : list ascii) : list ascii :=
  match l with
  | c :: r => if space c then lstrip_list space r else l
  | [] => []
  end.

Definition strip_list (space : ascii -> bool) (l : list ascii) : list ascii :=
  rev (lstrip_list space (rev (lstrip_list space l))).

(** [str.strip()] *)
Definition strip (s : string) : string :=
  string_of_list_ascii (strip_list isspace (list_ascii_of_string s)).

(** truth value of a [str] *)
Definition truthy (s : string) : bool :=
  match s with EmptyString => false | _ => true end.

(** [a or b] on strings *)
Definition or_else (a b : string) : string := if truthy a then a else b.

(** [sep * n] *)
Fixpoint repeat_str (sep : string) (n : nat) : string :=
  match n with
  | O => EmptyString
  | S k => sep +:+ repeat_str sep k
  end.

(** [str.count(sub)]: occurrences of [sub], scanning from the left and
    never overlapping.  [skip] is the number of characters still covered
    by the occurrence found last. *)
Fixpoint count_from (sub s : string) (skip : nat) : nat :=
  match s with
  | EmptyString => O
  | String _ r =>
      match skip with
      | S k => count_from sub r k
      | O => if String.prefix sub s
             then S (count_from sub r (Nat.pred (String.length sub)))
             else count_from sub r O
      end
  end.

Definition count (s sub : string) : nat :=
  match sub with
  | EmptyString => S (String.length s)
  | _ => count_from sub s O
  end.

Definition digit (c : ascii) : option Z :=
  let n := code c in
  if ((48 <=? n) && (n <=? 57))%N then Some (Z.of_N n - 48) else None.

(** Digits of a decimal literal after the first one: a digit, or one
    underscore followed by a digit. *)
Fixpoint digits_from (acc : Z) (l : list ascii) : option Z :=
  match l with
  | [] => Some acc
  | c :: r =>
      match digit c with
      | Some d => digits_from (10 * acc + d) r
      | None =>
          if Ascii.eqb c "_"
          then match r with
               | c' :: r' =>
                   match digit c' with
                   | Some d => digits_from (10 * acc + d) r'
                   | None => None
                   end
               | [] => None
               end
          else None
      end
  end.

Definition decimal (l : list ascii) : option Z :=
  match l with
  | c :: r => match digit c with
              | Some d => digits_from d r
              | None => None
              end
  | [] => None
  end.

(** White space [int] skips at both ends: the C one and, of the code
    points from 128, those [str.isspace] accepts. *)
Definition int_space (c : ascii) : bool :=
  let n := code c in
  ((9 <=? n) && (n <=? 13) || (n =? 32) || (n =? 133) || (n =? 160))%N.

(** [int(s)] in base 10; [None] is [ValueError]. *)
Definition int (s : string) : option Z :=
  match strip_list int_space (list_ascii_of_string s) with
  | c :: r =>
      if Ascii.eqb c "+" then decimal r
      else if Ascii.eqb c "-" then Z.opp <$> decimal r
      else decimal (c :: r)
  | [] => None
  end.

End Py.

(** ** Text primitives of [text_cleaner.py] *)

Module Text.

(** [str.split()] on the characters: the maximal runs of characters that
    are not white space. *)
Fixpoint split_list (l : list ascii) : list (list ascii) :=
  match l with
  | [] => []
  | c :: r =>
      if Py.isspace c then split_list r
      else match r with
           | c' :: _ =>
               if Py.isspace c' then [c] :: split_list r
               else match split_list r with
                    | word :: words => (c :: word) :: words
                    | [] => [[c]]
                    end
           | [] => [[c]]
           end
  end.

Definition split (s : string) : list string :=
  map string_of_list_ascii (split_list (list_ascii_of_string s)).

(** A character of the class [[.!?]]. *)
Definition sentence_end (c : ascii) : bool :=
  Ascii.eqb c "." || Ascii.eqb c "!" || Ascii.eqb c "?".

(** [re.split(r'[...]+', s)] on the characters, for a class of characters
    [sep]: what lies between the maximal runs of characters of the
    class, empty pieces at the ends included. *)
Fixpoint pieces (sep : ascii -> bool) (l : list ascii) : list (list ascii) :=
  match l with
  | [] => [[]]
  | c :: r =>
      if sep c then
        match r with
        | c' :: _ => if sep c' then pieces sep r else [] :: pieces sep r
        | [] => [] :: pieces sep r
        end
      else match pieces sep r with
           | piece :: rest => (c :: piece) :: rest
           | [] => [[c]]
           end
  end.

Definition re_split (sep : ascii -> bool) (s : string) : list string :=
  map string_of_list_ascii (pieces sep (list_ascii_of_string s)).

End Text.

(** ** Exceptions, results and the world *)

Inductive exn : Set := KeyError | ValueError | EOFError | ZeroDivisionError | IndexError.

Inductive result (A : Type) : Type :=
| Ok (a : A)
| Raise (e : exn)
| OutOfFuel.
Arguments Ok {A} a.
Arguments Raise {A} e.
Arguments OutOfFuel {A}.

(** ** The engine *)

Class Numerics : Type := {
  (** the recurrent state of the network, tensors, the temperature (a
      float), the state of the global random generator *)
  Hidden : Type;
  Tensor : Type;
  Temp : Type;
  Rng : Type;
  (** [output / temperature] *)
  div_temperature : Tensor -> Temp -> Tensor;
  (** [torch.nn.functional.softmax(torch.squeeze(output), dim=0)] *)
  softmax : Tensor -> Tensor;
  (** [Categorical(probs).sample().item()]: the id drawn and the generator
      after the draw *)
  categorical_sample : Tensor -> Rng -> Z * Rng;
  (** [float(s)]; [None] is [ValueError] *)
  float_of_str : string -> option Temp;
  (** the literal [0.8] *)
  temp_0_8 : Temp;
  (** [f"{total / count:.1f}"] for a non-zero [count] *)
  format_mean : Z -> Z -> string
}.

Section Engine.

Context `{Numerics}.

(** The network: [model(input, hidden_state)] on a one-token input. *)
Definition Model : Type := Z -> option Hidden -> Tensor * Hidden.

Inductive event : Type :=
| Write (text : string)
| Invoke (seed_phrase : string) (length : Z) (temperature : Temp)
| Eval
| Step (token : Z) (hidden_state : option Hidden)
| Div (output : Tensor) (temperature : Temp)
| Softmax (output : Tensor)
| Sample (probs : Tensor) (character_num : Z).

Record World : Type := mkWorld {
  stdin : list string;
  rng : Rng;
  trace : list event
}.

Definition M (A : Type) : Type := World -> result A * World.

#[global] Instance M_ret : MRet M := fun A a w => (Ok a, w).
#[global] Instance M_bind : MBind M := fun A B k c w =>
  match c w with
  | (Ok a, w') => k a w'
  | (Raise e, w') => (Raise e, w')
  | (OutOfFuel, w') => (OutOfFuel, w')
  end.

Definition raise {A} (e : exn) : M A := fun w => (Raise e, w).

Definition emit (e : event) : M unit := fun w =>
  (Ok tt, mkWorld (stdin w) (rng w) (trace w ++ [e])).

(** [print(s, end='')] and [print(s)] *)
Definition write (s : string) : M unit := emit (Write s).
Definition print (s : string) : M unit := emit (Write (s +:+ Py.nl)).

(** [input(prompt)] *)
Definition input (prompt : string) : M string := fun w =>
  let w' := mkWorld (tail (stdin w)) (rng w) (trace w ++ [Write prompt]) in
  match stdin w with
  | line :: _ => (Ok line, w')
  | [] => (Raise EOFError, w')
  end.

(** The lines not read yet; used only to bound the session loop. *)
Definition unread : M (list string) := fun w => (Ok (stdin w), w).

(** [d[k]] *)
Definition getitem `{Countable K} {V} (d : gmap K V) (k : K) : M V :=
  match d !! k with
  | Some v => mret v
  | None => raise KeyError
  end.

(** [try: body except ValueError: handler] *)
Definition try_except_ValueError {A} (body handler : M A) : M A := fun w =>
  match body w with
  | (Raise ValueError, w') => handler w'
  | r => r
  end.

(** [for x in xs: s = body(x, s)] *)
Fixpoint for_ {A St} (xs : list A) (body : A -> St -> M St) (s : St) : M St :=
  match xs with
  | [] => mret s
  | x :: r => s' ← body x s; for_ r body s'
  end.

(** [range(n)] for a Python int *)
Definition range (n : Z) : list nat := seq 0 (Z.to_nat n).

Definition call_model (model : Model) (token : Z) (h : option Hidden)
  : M (Tensor * Hidden) :=
  emit (Step token h);; mret (model token h).

Definition torch_div (output : Tensor) (temperature : Temp) : M Tensor :=
  emit (Div output temperature);; mret (div_temperature output temperature).

Definition torch_softmax (output : Tensor) : M Tensor :=
  emit (Softmax output);; mret (softmax output).

Definition torch_sample (probs : Tensor) : M Z := fun w =>
  let '(k, g) := categorical_sample probs (rng w) in
  (Ok k, mkWorld (stdin w) g (trace w ++ [Sample probs k])).

Section Generate.

Variable model : Model.
Variable character_to_num : gmap ascii Z.
Variable num_to_character : gmap Z ascii.

Definition warning (char : ascii) : string :=
  "Warning: Character '" +:+ Py.chr char
    +:+ "' not found in vocabulary, skipping...".

(** lines 26-32 *)
Definition seed_to_indices (seed_phrase : string) : M (list Z) :=
  for_ (list_ascii_of_string seed_phrase)
    (fun char seed_indices =>
       match character_to_num !! char with
       | Some k => mret (seed_indices ++ [k])
       | None => print (warning char);; mret seed_indices
       end) [].

(** lines 53-55: [seed_tensor[i:i+1]] is the one-token slice at [i]; the
    index is below the number of tokens, so the last case never runs. *)
Definition warm_up (seed_indices : list Z) : M (option Hidden) :=
  for_ (seq 0 (length seed_indices - 1))
    (fun i hidden_state =>
       match seed_indices !! i with
       | Some input_char =>
           '(_, h) ← call_model model input_char hidden_state;
           mret (Some h)
       | None => raise IndexError
       end) None.

(** lines 61-79: one turn of the generation loop on
    [(current_input, hidden_state, generated_text)] *)
Definition decode_step (temperature : Temp)
    (st : Z * option Hidden * string) : M (Z * option Hidden * string) :=
  let '(current_input, hidden_state, generated_text) := st in
  '(output, h) ← call_model model current_input hidden_state;
  output ← torch_div output temperature;
  probs ← torch_softmax output;
  character_num ← torch_sample probs;
  char ← getitem num_to_character character_num;
  write (Py.chr char);;
  mret (character_num, Some h, generated_text +:+ Py.chr char).

Definition separator : string := Py.nl +:+ Py.repeat_str "=" 50.

Definition generate_text_with_seed
    (seed_phrase : string) (length : Z) (temperature : Temp) : M string :=
  emit (Invoke seed_phrase length temperature);;
  emit Eval;;
  seed_indices ← seed_to_indices seed_phrase;
  match seed_indices with
  | [] =>
      print "Error: No valid characters in seed phrase!";;
      mret EmptyString
  | _ :: _ =>
      print ("Seed: '" +:+ seed_phrase +:+ "'");;
      print "Generated text:";;
      write seed_phrase;;
      hidden_state ← warm_up seed_indices;
      let current_input := default 0 (last seed_indices) in
      '(_, _, generated_text) ←
        for_ (range length) (fun _ => decode_step temperature)
          (current_input, hidden_state, seed_phrase);
      print separator;;
      mret generated_text
  end.

End Generate.

(** ** Batch driver over a phrase list *)

Section Drivers.

Variable model : Model.
Variable character_to_num : gmap ascii Z.
Variable num_to_character : gmap Z ascii.

Let generate := generate_text_with_seed model character_to_num num_to_character.

Definition classic_phrases : list string :=
  [ "My dear fellow"; "Elementary, my dear Watson"; "The game is afoot";
    "I have observed"; "It is quite simple"; "The case presents";
    "Holmes said"; "Watson, I have"; "The evidence suggests";
    "I deduce that" ].

(** [for phrase in phrases: generate_text_with_seed(..., phrase, ...)] *)
Definition for_each_phrase (phrases : list string) (length : Z)
    (temperature : Temp) : M unit :=
  for_ phrases
    (fun phrase _ => generate phrase length temperature;; mret tt) tt.

Definition test_sherlock_phrases : M unit :=
  print (Py.nl +:+ "Testing Classic Sherlock Holmes Phrases:");;
  print (Py.repeat_str "=" 60);;
  for_each_phrase classic_phrases 120 temp_0_8.

(** ** Interactive session *)

Definition parse_int (s : string) : M Z :=
  match Py.int s with Some n => mret n | None => raise ValueError end.

Definition parse_float (s : string) : M Temp :=
  match float_of_str s with Some t => mret t | None => raise ValueError end.

Inductive flow : Set := Next | Break.

(** lines 146-159: one turn of the [while True] loop *)
Definition session_turn : M flow :=
  line ← input (Py.nl +:+ "Enter seed phrase: ");
  let seed := Py.strip line in
  if String.eqb (Py.lower seed) "quit" then mret Break
  else if Py.truthy seed then
    try_except_ValueError
      (l ← input "Enter length (default 150): ";
       length ← parse_int (Py.or_else l "150");
       t ← input "Enter temperature (default 0.8): ";
       temp ← parse_float (Py.or_else t "0.8");
       generate seed length temp;;
       mret tt)
      (print "Invalid input. Using defaults.";;
       generate seed 150 temp_0_8;;
       mret tt);;
    mret Next
  else mret Next.

Fixpoint session_loop (fuel : nat) : M unit :=
  match fuel with
  | O => fun w => (OutOfFuel, w)
  | S n =>
      f ← session_turn;
      match f with
      | Break => mret tt
      | Next => session_loop n
      end
  end.

(** [while True]: every turn reads a line or ends the loop, so one more
    turn than there are lines on standard input is enough. *)
Definition session : M unit :=
  pending ← unread;
  session_loop (S (length pending)).

Definition interactive_generation : M unit :=
  print (Py.nl +:+ "Interactive Text Generation:");;
  print (Py.repeat_str "=" 60);;
  print "Enter your own seed phrases (type 'quit' to exit):";;
  session.

(** ** Quality analysis *)

Definition test_phrases : list string :=
  [ "My dear Watson"; "The case was"; "Holmes observed";
    "I have deduced"; "Elementary" ].

Definition common_words : list string :=
  [ "the"; "and"; "of"; "to"; "a"; "in"; "is"; "it"; "you"; "that" ].

(** [d[k] = v] on a dict kept in insertion order *)
Fixpoint dict_set (d : list (string * Z)) (k : string) (v : Z)
  : list (string * Z) :=
  match d with
  | [] => [(k, v)]
  | (k', v') :: r =>
      if String.eqb k k' then (k, v) :: r else (k', v') :: dict_set r k v
  end.

(** [sorted(items, key=lambda x: x[1], reverse=True)]: descending by
    count, items with equal counts in their original order. *)
Fixpoint insert_desc (x : string * Z) (l : list (string * Z))
  : list (string * Z) :=
  match l with
  | [] => [x]
  | y :: r => if snd y <=? snd x then x :: l else y :: insert_desc x r
  end.

Definition sorted_desc (items : list (string * Z)) : list (string * Z) :=
  foldr insert_desc [] items.

(** [sum(len(s) for s in samples)] *)
Definition total_length (samples : list string) : Z :=
  foldl (fun acc s => acc + Z.of_nat (String.length s)) 0 samples.

(** [sum(s.lower().count(word) for s in samples)] *)
Definition count_word (samples : list string) (word : string) : Z :=
  foldl (fun acc s => acc + Z.of_nat (Py.count (Py.lower s) word)) 0 samples.

(** lines 186-189 *)
Definition word_counts (samples : list string) : list (string * Z) :=
  foldl (fun d word => dict_set d word (count_word samples word))
    [] common_words.

(** [total / count] as the text [format_mean] makes of it *)
Definition mean_text (total count : Z) : M string :=
  if count =? 0 then raise ZeroDivisionError
  else mret (format_mean total count).

(** lines 174-178 *)
Definition draw_samples (phrase : string) (num_samples : Z)
  : M (list string) :=
  for_ (range num_samples)
    (fun i samples =>
       print (Py.nl +:+ "Sample " +:+ pretty (Z.of_nat i + 1) +:+ ":");;
       text ← generate phrase 100 temp_0_8;
       mret (samples ++ [text])) [].

Definition count_line (item : string * Z) : string :=
  "  '" +:+ fst item +:+ "': " +:+ pretty (snd item).

(** lines 169-193: the body of [for phrase in test_phrases] *)
Definition analyze_phrase (num_samples : Z) (phrase : string) : M unit :=
  print (Py.nl +:+ "Analyzing: '" +:+ phrase +:+ "'");;
  print (Py.repeat_str "-" 40);;
  samples ← draw_samples phrase num_samples;
  avg_length ← mean_text (total_length samples) (Z.of_nat (length samples));
  print (Py.nl +:+ "Average length: " +:+ avg_length +:+ " characters");;
  print "Common word frequency:";;
  for_ (sorted_desc (word_counts samples))
    (fun item _ => print (count_line item)) tt.

Definition analyze_generation_quality (num_samples : Z) : M unit :=
  print (Py.nl +:+ "Analyzing Generation Quality:");;
  print (Py.repeat_str "=" 60);;
  for_ test_phrases (fun phrase _ => analyze_phrase num_samples phrase) tt.

End Drivers.

(** ** What a run is compared with *)

(** Text of the session. *)
Definition seed_prompt : string := Py.nl +:+ "Enter seed phrase: ".
Definition length_prompt : string := "Enter length (default 150): ".
Definition temperature_prompt : string := "Enter temperature (default 0.8): ".
Definition notice : string := "Invalid input. Using defaults." +:+ Py.nl.
Definition empty_seed_error : string :=
  "Error: No valid characters in seed phrase!" +:+ Py.nl.

(** Events a computation added to the trace. *)
Definition new_events (w w' : World) : list event :=
  drop (length (trace w)) (trace w').

Definition step_of (e : event) : option (Z * option Hidden) :=
  match e with Step token h => Some (token, h) | _ => None end.

Definition invocation_of (e : event) : option (string * Z * Temp) :=
  match e with Invoke s n t => Some (s, n, t) | _ => None end.

Definition division_of (e : event) : option (Tensor * Temp) :=
  match e with Div x t => Some (x, t) | _ => None end.

(** Calls of the network, of the engine, and divisions, in order. *)
Definition steps (evs : list event) := omap step_of evs.
Definition invocations (evs : list event) := omap invocation_of evs.
Definition divisions (evs : list event) := omap division_of evs.

Definition step_event (c : Z * option Hidden) : event := Step c.1 c.2.

Definition invokes_only (ok : string -> Prop) (e : event) : Prop :=
  match e with Invoke s _ _ => ok s | _ => True end.

Definition no_invoke : event -> Prop := invokes_only (fun _ => False).

(** An invocation of the engine, if the event is one, has a seed that is
    not empty. *)
Definition nonempty_seed : event -> Prop :=
  invokes_only (fun s => s <> EmptyString).

(** The computation only appends events, all of them satisfying [P]. *)
Definition emits (P : event -> Prop) {A} (c : M A) : Prop :=
  forall w, exists evs, trace (c w).2 = trace w ++ evs /\ Forall P evs.

(** Moreover it leaves standard input alone and needs no fuel. *)
Definition quiet (P : event -> Prop) {A} (c : M A) : Prop :=
  forall w,
    (c w).1 <> OutOfFuel /\ stdin (c w).2 = stdin w /\
    exists evs, trace (c w).2 = trace w ++ evs /\ Forall P evs.

(** The computation depends on the world through the random generator
    only, and what it does to a world is to append to its trace and to
    advance its generator. *)
Definition base (w : World) : World := mkWorld [] (rng w) [].

Definition onto (w : World) {A} (r : result A * World) : result A * World :=
  (r.1, mkWorld (stdin w) (rng r.2) (trace w ++ trace r.2)).

Definition rng_only {A} (c : M A) : Prop :=
  forall w, c w = onto w (c (base w)).

(** The computation needs no fuel and puts nothing back on standard
    input. *)
Definition tame {A} (c : M A) : Prop :=
  forall w,
    (c w).1 <> OutOfFuel /\ (length (stdin (c w).2) <= length (stdin w))%nat.

(** Ids of the seed characters the vocabulary knows, in order, and the
    characters it does not know. *)
Definition known_ids (character_to_num : gmap ascii Z) (seed : string)
  : list Z :=
  omap (fun c => character_to_num !! c) (list_ascii_of_string seed).

Definition unknown_chars (character_to_num : gmap ascii Z) (seed : string)
  : list ascii :=
  filter (fun c => character_to_num !! c = None) (list_ascii_of_string seed).

(** Every id the sampler can draw has a character. *)
Definition covers (num_to_character : gmap Z ascii) : Prop :=
  forall probs g, is_Some (num_to_character !! (categorical_sample probs g).1).

(** Feeding tokens one after the other, each call receiving the state
    the previous one returned: the calls made, and the state reached. *)
Fixpoint chain (model : Model) (tokens : list Z) (h : option Hidden)
  : list (Z * option Hidden) :=
  match tokens with
  | [] => []
  | t :: r => (t, h) :: chain model r (Some (model t h).2)
  end.

Definition run_state (model : Model) (tokens : list Z) (h : option Hidden)
  : option Hidden :=
  foldl (fun h t => Some (model t h).2) h tokens.

Definition warm_state (model : Model) (seed_indices : list Z)
  : option Hidden :=
  run_state model (removelast seed_indices) None.

(** What the engine does before the warm-up of a seed it accepts. *)
Definition preamble (character_to_num : gmap ascii Z) (seed_phrase : string)
    (length : Z) (temperature : Temp) : list event :=
  [Invoke seed_phrase length temperature; Eval]
    ++ map (fun c => Write (warning c +:+ Py.nl))
           (unknown_chars character_to_num seed_phrase)
    ++ [Write (("Seed: '" +:+ seed_phrase +:+ "'") +:+ Py.nl);
        Write ("Generated text:" +:+ Py.nl);
        Write seed_phrase].

(** The decoding loop as the specification words it (4.1, step 4): [n]
    turns from the current token, state and generator; each turn steps
    the model, divides the scores by the temperature, normalises them,
    draws an id, decodes it and feeds it back.  [None] when a drawn id
    has no character. *)
Fixpoint spec_decode (model : Model) (num_to_character : gmap Z ascii)
    (temperature : Temp) (n : nat) (current : Z) (h : option Hidden)
    (g : Rng) : option (list event * string * Rng) :=
  match n with
  | O => Some ([], EmptyString, g)
  | S m =>
      let scores := (model current h).1 in
      let adjusted := div_temperature scores temperature in
      let probs := softmax adjusted in
      let sampled := (categorical_sample probs g).1 in
      match num_to_character !! sampled with
      | Some c =>
          match spec_decode model num_to_character temperature m sampled
                  (Some (model current h).2) (categorical_sample probs g).2 with
          | Some (evs, text, g') =>
              Some ([Step current h; Div scores temperature;
                     Softmax adjusted; Sample probs sampled;
                     Write (Py.chr c)] ++ evs,
                    String c text, g')
          | None => None
          end
      | None => None
      end
  end.



(** What the analysis writes for one phrase: before the samples are
    drawn, and once they are. *)
Definition analysis_heading (phrase : string) : list event :=
  [Write ((Py.nl +:+ "Analyzing: '" +:+ phrase +:+ "'") +:+ Py.nl);
   Write (Py.repeat_str "-" 40 +:+ Py.nl)].

Definition analysis_report (mean : string) (report : list (string * Z))
  : list event :=
  [Write ((Py.nl +:+ "Average length: " +:+ mean +:+ " characters") +:+ Py.nl);
   Write ("Common word frequency:" +:+ Py.nl)]
  ++ map (fun item => Write (count_line item +:+ Py.nl)) report.

(** ** Temperature and seed-length sweeps *)

Section Sweeps.

Variable model : Model.
Variable character_to_num : gmap ascii Z.
Variable num_to_character : gmap Z ascii.

(** [f"{temp}"] for a float, and the literals [0.3], [0.5], [1.0], [1.5]
    and [2.0]. *)
Variable str_of_float : Temp -> string.
Variables (temp_0_3 temp_0_5 temp_1_0 temp_1_5 temp_2_0 : Temp).

Definition temperatures : list Temp :=
  [temp_0_3; temp_0_5; temp_0_8; temp_1_0; temp_1_5; temp_2_0].

(** lines 84-96 *)
Definition test_temperature_effects : M unit :=
  print "Testing Temperature Effects:";;
  print (Py.repeat_str "=" 60);;
  for_ temperatures
    (fun temp _ =>
       print (Py.nl +:+ "Temperature: " +:+ str_of_float temp);;
       print (Py.repeat_str "-" 30);;
       generate_text_with_seed model character_to_num num_to_character
         "My dear Watson" 100 temp;;
       mret tt) tt.

(** The dict of lines 104-108, in insertion order. *)
Definition seeds : list (string * list string) :=
  [ ("Short (1-3 chars)", ["I"; "He"; "The"]);
    ("Medium (4-8 chars)", ["Holmes"; "Watson"; "Elementary"]);
    ("Long (9+ chars)", ["My dear fellow"; "The game is afoot"; "I have observed"]) ].

(** lines 98-115 *)
Definition test_seed_lengths : M unit :=
  print (Py.nl +:+ "Testing Seed Phrase Lengths:");;
  print (Py.repeat_str "=" 60);;
  for_ seeds
    (fun item _ =>
       print (Py.nl +:+ fst item +:+ ":");;
       print (Py.repeat_str "-" 30);;
       for_ (snd item)
         (fun seed _ =>
            generate_text_with_seed model character_to_num num_to_character
              seed 80 temp_0_8;;
            mret tt) tt) tt.

End Sweeps.

(** ** Text quality analysis ([text_cleaner.py]) *)

(** [d[c] = d.get(c, 0) + 1] on a dict kept in insertion order *)
Fixpoint bump (d : list (ascii * Z)) (c : ascii) : list (ascii * Z) :=
  match d with
  | [] => [(c, 0 + 1)]
  | (k, v) :: r => if Ascii.eqb c k then (k, v + 1) :: r else (k, v) :: bump r c
  end.

(** lines 99-101 *)
Definition char_freq (text : string) : list (ascii * Z) :=
  foldl bump [] (list_ascii_of_string text).

(** [sorted(items, key=lambda x: x[1], reverse=True)] for any keys *)
Fixpoint insert_by_count {K} (x : K * Z) (l : list (K * Z)) : list (K * Z) :=
  match l with
  | [] => [x]
  | y :: r => if snd y <=? snd x then x :: l else y :: insert_by_count x r
  end.

Definition sorted_by_count {K} (items : list (K * Z)) : list (K * Z) :=
  foldr insert_by_count [] items.

(** lines 108-113 *)
Definition freq_line (item : ascii * Z) : string :=
  if Ascii.eqb (fst item) (ascii_of_nat 10)
  then "  '\n' (newline): " +:+ pretty (snd item)
  else if Ascii.eqb (fst item) " "
  then "  ' ' (space): " +:+ pretty (snd item)
  else "  '" +:+ Py.chr (fst item) +:+ "': " +:+ pretty (snd item).

(** [sum(len(word) for word in words)] *)
Definition letters (words : list string) : Z :=
  foldl (fun acc word => acc + Z.of_nat (String.length word)) 0 words.

(** lines 121-122 *)
Definition sentences_of (text : string) : list string :=
  map Py.strip
    (filter (fun s => Py.truthy (Py.strip s) = true)
       (Text.re_split Text.sentence_end text)).

(** [sum(len(s.split()) for s in sentences)] *)
Definition sentence_words (sentences : list string) : Z :=
  foldl (fun acc s => acc + Z.of_nat (length (Text.split s))) 0 sentences.

Section TextQuality.

(** [f"{total / count:.2f}"] for a non-zero [count] *)
Variable format_2f : Z -> Z -> string.

Definition ratio_text (total count : Z) : M string :=
  if count =? 0 then raise ZeroDivisionError
  else mret (format_2f total count).

(** lines 92-124 *)
Definition analyze_text_quality (text : string) : M unit :=
  print (Py.nl +:+ "=== TEXT QUALITY ANALYSIS ===");;
  let sorted_chars := sorted_by_count (char_freq text) in
  print "Most frequent characters:";;
  for_ (take 20 sorted_chars) (fun item _ => print (freq_line item)) tt;;
  let words := Text.split text in
  print (Py.nl +:+ "Total words: " +:+ pretty (Z.of_nat (length words)));;
  average ← ratio_text (letters words) (Z.of_nat (length words));
  print ("Average word length: " +:+ average);;
  let sentences := sentences_of text in
  print ("Total sentences: " +:+ pretty (Z.of_nat (length sentences)));;
  average ← ratio_text (sentence_words sentences) (Z.of_nat (length sentences));
  print ("Average sentence length: " +:+ average +:+ " words").

End TextQuality.

(** A character that is neither white space nor the end of a sentence. *)
Definition solid (c : ascii) : bool :=
  negb (Py.isspace c) && negb (Text.sentence_end c).

(** What the text quality analysis writes before it counts the words. *)
Definition quality_heading (text : string) : list event :=
  [Write ((Py.nl +:+ "=== TEXT QUALITY ANALYSIS ===") +:+ Py.nl);
   Write ("Most frequent characters:" +:+ Py.nl)]
  ++ map (fun item => Write (freq_line item +:+ Py.nl))
         (take 20 (sorted_by_count (char_freq text))).

Definition by_count {K} (a b : K * Z) : Prop := snd b <= snd a.

(** ** The engine when the sampler validates its argument

    [Categorical(probs)] checks that [probs] is a distribution and raises
    [ValueError] when it is not: probabilities that are nan, as a division
    by a temperature of zero leaves them.  [refuses] is that check.  What
    follows is the generation loop, the engine and the turn of the session
    with the draw behind the check; nothing else differs. *)

Section Validation.

Variable refuses : Tensor -> bool.

Variable model : Model.
Variable character_to_num : gmap ascii Z.
Variable num_to_character : gmap Z ascii.

(** lines 70-71 *)
Definition torch_sample_checked (probs : Tensor) : M Z :=
  if refuses probs then raise ValueError else torch_sample probs.

(** lines 61-79 *)
Definition decode_step_checked (temperature : Temp)
    (st : Z * option Hidden * string) : M (Z * option Hidden * string) :=
  let '(current_input, hidden_state, generated_text) := st in
  '(output, h) ← call_model model current_input hidden_state;
  output ← torch_div output temperature;
  probs ← torch_softmax output;
  character_num ← torch_sample_checked probs;
  char ← getitem num_to_character character_num;
  write (Py.chr char);;
  mret (character_num, Some h, generated_text +:+ Py.chr char).

(** lines 11-82 *)
Definition generate_text_with_seed_checked
    (seed_phrase : string) (length : Z) (temperature : Temp) : M string :=
  emit (Invoke seed_phrase length temperature);;
  emit Eval;;
  seed_indices ← seed_to_indices character_to_num seed_phrase;
  match seed_indices with
  | [] =>
      print "Error: No valid characters in seed phrase!";;
      mret EmptyString
  | _ :: _ =>
      print ("Seed: '" +:+ seed_phrase +:+ "'");;
      print "Generated text:";;
      write seed_phrase;;
      hidden_state ← warm_up model seed_indices;
      let current_input := default 0 (last seed_indices) in
      '(_, _, generated_text) ←
        for_ (range length) (fun _ => decode_step_checked temperature)
          (current_input, hidden_state, seed_phrase);
      print separator;;
      mret generated_text
  end.

(** lines 146-159 *)
Definition session_turn_checked : M flow :=
  line ← input (Py.nl +:+ "Enter seed phrase: ");
  let seed := Py.strip line in
  if String.eqb (Py.lower seed) "quit" then mret Break
  else if Py.truthy seed then
    try_except_ValueError
      (l ← input "Enter length (default 150): ";
       length ← parse_int (Py.or_else l "150");
       t ← input "Enter temperature (default 0.8): ";
       temp ← parse_float (Py.or_else t "0.8");
       generate_text_with_seed_checked seed length temp;;
       mret tt)
      (print "Invalid input. Using defaults.";;
       generate_text_with_seed_checked seed 150 temp_0_8;;
       mret tt);;
    mret Next
  else mret Next.

End Validation.

(** ** More to compare a run with *)

(** All the text written, in order. *)
Definition printed (evs : list event) : string :=
  foldr (fun e rest => match e with Write s => s +:+ rest | _ => rest end)
    EmptyString evs.

Definition draw_of (e : event) : option Z :=
  match e with Sample _ k => Some k | _ => None end.

(** Ids drawn, in order. *)
Definition draws (evs : list event) := omap draw_of evs.

(** The computation returns, leaves standard input alone, and the calls of
    the engine it makes are exactly [calls], in that order. *)
Definition performs {A} (c : M A) (calls : list (string * Z * Temp)) : Prop :=
  forall w,
    exists a w',
      c w = (Ok a, w') /\ stdin w' = stdin w /\
      exists evs, trace w' = trace w ++ evs /\ invocations evs = calls.

(** The two vocabulary maps agree: a character's id decodes to it. *)
Definition decodes (character_to_num : gmap ascii Z)
    (num_to_character : gmap Z ascii) : Prop :=
  forall c k, character_to_num !! c = Some k -> num_to_character !! k = Some c.

End Engine.

(** * A toy instance to run the engine on

    Scores are lists of rationals, the temperature is a rational, softmax
    is left out, and the generator is the list of the draws to come: a
    draw of [true] is id 1, anything else id 0.  The network answers the
    token it is given and counts the calls in its state.  Only integer
    literals parse as floats. *)

Module Demo.

Definition numerics : Numerics := {|
  Hidden := nat;
  Tensor := list Q;
  Temp := Q;
  Rng := list bool;
  div_temperature := fun output t => map (fun x => Qdiv x t) output;
  softmax := fun output => output;
  categorical_sample := fun _ g => (if hd false g then 1 else 0, tail g);
  float_of_str := fun s => inject_Z <$> Py.int s;
  temp_0_8 := Qmake 4 5;
  format_mean := fun total count => pretty (total / count)
|}.

Definition model : @Model numerics :=
  fun token h => ([inject_Z token], S (default O h)).

Definition character_to_num : gmap ascii Z :=
  list_to_map [("a"%char, 0); ("b"%char, 1)].

Definition num_to_character : gmap Z ascii :=
  list_to_map [(0, "a"%char); (1, "b"%char)].

Definition world (lines : list string) (draws : list bool) : @World numerics :=
  @mkWorld numerics lines draws [].

Definition generate :=
  @generate_text_with_seed numerics model character_to_num num_to_character.

End Demo.

(** A vocabulary that lacks the character of id 1, and renderings of
    floats, for the toy instance. *)

Module DemoMore.

Definition short_num_to_character : gmap Z ascii :=
  list_to_map [(0, "a"%char)].

Definition str_of_float (t : Q) : string :=
  pretty (Qnum t) +:+ "/" +:+ pretty (Zpos (Qden t)).

Definition format_2f (total count : Z) : string := pretty (total / count).

(** A second toy instance, with a sampler that validates: a tensor is a
    list of rationals or, after a division by zero, not a number at all
    ([None]), and that is what the sampler refuses. *)
Definition nan_numerics : Numerics := {|
  Hidden := nat;
  Tensor := option (list Q);
  Temp := Q;
  Rng := list bool;
  div_temperature := fun output t =>
    if Qeq_bool t 0 then None else map (fun x => Qdiv x t) <$> output;
  softmax := fun output => output;
  categorical_sample := fun _ g => (if hd false g then 1 else 0, tail g);
  float_of_str := fun s => inject_Z <$> Py.int s;
  temp_0_8 := Qmake 4 5;
  format_mean := fun total count => pretty (total / count)
|}.

Definition nan_model : @Model nan_numerics :=
  fun token h => (Some [inject_Z token], S (default O h)).

Definition refuses (probs : option (list Q)) : bool :=
  match probs with Some _ => false | None => true end.

Definition nan_world (lines : list string) (draws : list bool)
  : @World nan_numerics :=
  @mkWorld nan_numerics lines draws [].

End DemoMore.

(** * Facts *)

Section Facts.

Context `{Numerics}.

Implicit Types (w : World) (model : Model).
Implicit Types (character_to_num : gmap ascii Z) (num_to_character : gmap Z ascii).

(** ** Running computations *)

Lemma run_bind {A B} (c : M A) (k : A -> M B) w :
  (c ≫= k) w =
  match c w with
  | (Ok a, w') => k a w'
  | (Raise e, w') => (Raise e, w')
  | (OutOfFuel, w') => (OutOfFuel, w')
  end.
Proof. reflexivity. Qed.

Lemma run_bind_ok {A B} (c : M A) (k : A -> M B) w a w' :
  c w = (Ok a, w') -> (c ≫= k) w = k a w'.
Proof. intros E. rewrite run_bind, E. reflexivity. Qed.

Lemma run_bind_raise {A B} (c : M A) (k : A -> M B) w e w' :
  c w = (Raise e, w') -> (c ≫= k) w = (Raise e, w').
Proof. intros E. rewrite run_bind, E. reflexivity. Qed.

Lemma run_emit e w :
  emit e w = (Ok tt, mkWorld (stdin w) (rng w) (trace w ++ [e])).
Proof. reflexivity. Qed.

Lemma run_print s w :
  print s w = (Ok tt, mkWorld (stdin w) (rng w) (trace w ++ [Write (s +:+ Py.nl)])).
Proof. reflexivity. Qed.

Lemma run_ret {A} (a : A) w : @mret M _ A a w = (Ok a, w).
Proof. reflexivity. Qed.

Lemma run_raise {A} e w : @raise _ A e w = (Raise e, w).
Proof. reflexivity. Qed.

Lemma run_write s w :
  write s w = (Ok tt, mkWorld (stdin w) (rng w) (trace w ++ [Write s])).
Proof. reflexivity. Qed.

Lemma run_for_nil {A St} (body : A -> St -> M St) s w :
  for_ [] body s w = (Ok s, w).
Proof. reflexivity. Qed.

Lemma run_for_cons {A St} x xs (body : A -> St -> M St) s w :
  for_ (x :: xs) body s w = (body x s ≫= for_ xs body) w.
Proof. reflexivity. Qed.

Lemma run_sample probs w :
  torch_sample probs w
  = (Ok (categorical_sample probs (rng w)).1,
     mkWorld (stdin w) (categorical_sample probs (rng w)).2
       (trace w ++ [Sample probs (categorical_sample probs (rng w)).1])).
Proof.
  unfold torch_sample. destruct (categorical_sample probs (rng w)). reflexivity.
Qed.

Lemma run_getitem `{Countable K} {V} (d : gmap K V) k w :
  getitem d k w
  = (match d !! k with Some v => Ok v | None => Raise KeyError end, w).
Proof. unfold getitem. destruct (d !! k); reflexivity. Qed.

Ltac run1 :=
  first [ rewrite run_bind | rewrite run_ret | rewrite run_emit
        | rewrite run_print | rewrite run_write | rewrite run_raise
        | rewrite run_for_nil | rewrite run_for_cons
        | rewrite run_sample | rewrite run_getitem ];
  cbv beta iota; cbn [stdin rng trace fst snd].
Ltac run := repeat run1.

Lemma seed_to_indices_from character_to_num chars acc w :
  for_ chars
    (fun char seed_indices =>
       match character_to_num !! char with
       | Some k => mret (seed_indices ++ [k])
       | None => print (warning char);; mret seed_indices
       end) acc w
  = (Ok (acc ++ omap (fun c => character_to_num !! c) chars),
     mkWorld (stdin w) (rng w)
       (trace w ++ map (fun c => Write (warning c +:+ Py.nl))
                       (filter (fun c => character_to_num !! c = None) chars))).
Proof.
  revert acc w. induction chars as [|c chars IH]; intros acc w.
  - run. cbn. rewrite !app_nil_r. destruct w; reflexivity.
  - run. cbn [omap list_omap]. rewrite filter_cons.
    destruct (character_to_num !! c) as [k|] eqn:E.
    + run. rewrite IH. cbn [stdin rng trace].
      case_decide; [discriminate|].
      rewrite <- app_assoc. reflexivity.
    + run. rewrite IH. cbn [stdin rng trace].
      case_decide; [|congruence].
      cbn [map]. rewrite <- app_assoc. reflexivity.
Qed.

(** ** Computations that only append to the trace *)

Lemma quiet_emits P {A} (c : M A) : quiet P c -> emits P c.
Proof. intros Q w. apply (Q w). Qed.

Lemma quiet_weaken (P Q : event -> Prop) {A} (c : M A) :
  (forall e, P e -> Q e) -> quiet P c -> quiet Q c.
Proof.
  intros PQ Hc w. destruct (Hc w) as (F & I & evs & T & All).
  split; [exact F|]. split; [exact I|].
  exists evs. split; [exact T|]. eapply Forall_impl; eauto.
Qed.

Lemma quiet_ret P {A} (a : A) : quiet P (mret a : M A).
Proof.
  intros w. cbn. split; [discriminate|]. split; [reflexivity|].
  exists []. rewrite app_nil_r. auto.
Qed.

Lemma quiet_raise P {A} e : quiet P (raise e : M A).
Proof.
  intros w. cbn. split; [discriminate|]. split; [reflexivity|].
  exists []. rewrite app_nil_r. auto.
Qed.

Lemma quiet_emit (P : event -> Prop) e : P e -> quiet P (emit e).
Proof.
  intros Pe w. cbn. split; [discriminate|]. split; [reflexivity|].
  exists [e]. auto.
Qed.

Lemma quiet_bind P {A B} (c : M A) (k : A -> M B) :
  quiet P c -> (forall a, quiet P (k a)) -> quiet P (c ≫= k).
Proof.
  intros Hc Hk w. rewrite run_bind.
  destruct (Hc w) as (F & I & evs & T & All).
  destruct (c w) as [[a| e |] w1]; cbn [fst snd] in *.
  - destruct (Hk a w1) as (F2 & I2 & evs2 & T2 & All2).
    split; [exact F2|]. split; [congruence|].
    exists (evs ++ evs2). rewrite T2, T, app_assoc.
    split; [reflexivity|]. apply Forall_app; auto.
  - split; [discriminate|]. split; [exact I|]. eauto.
  - congruence.
Qed.

Lemma quiet_for P {A St} (xs : list A) (body : A -> St -> M St) s :
  (forall x s, quiet P (body x s)) -> quiet P (for_ xs body s).
Proof.
  intros Hb. revert s. induction xs as [|x xs IH]; intros s.
  - apply quiet_ret.
  - cbn [for_]. apply quiet_bind; auto.
Qed.

Lemma quiet_sample (P : event -> Prop) probs :
  (forall k, P (Sample probs k)) -> quiet P (torch_sample probs).
Proof.
  intros Pk w. unfold torch_sample.
  destruct (categorical_sample probs (rng w)) as [k g]. cbn.
  split; [discriminate|]. split; [reflexivity|].
  exists [Sample probs k]. auto.
Qed.

Lemma quiet_getitem P `{Countable K} {V} (d : gmap K V) k :
  quiet P (getitem d k).
Proof.
  unfold getitem. destruct (d !! k); [apply quiet_ret | apply quiet_raise].
Qed.

Lemma emits_bind P {A B} (c : M A) (k : A -> M B) :
  emits P c -> (forall a, emits P (k a)) -> emits P (c ≫= k).
Proof.
  intros Hc Hk w. rewrite run_bind.
  destruct (Hc w) as (evs & T & All).
  destruct (c w) as [[a| e |] w1]; cbn [fst snd] in *; eauto.
  destruct (Hk a w1) as (evs2 & T2 & All2).
  exists (evs ++ evs2). rewrite T2, T, app_assoc.
  split; [reflexivity|]. apply Forall_app; auto.
Qed.

Lemma emits_try P {A} (body handler : M A) :
  emits P body -> emits P handler ->
  emits P (try_except_ValueError body handler).
Proof.
  intros Hb Hh w. unfold try_except_ValueError.
  destruct (Hb w) as (evs & T & All).
  destruct (body w) as [[a| [] |] w1]; cbn [fst snd] in *; eauto.
  destruct (Hh w1) as (evs2 & T2 & All2).
  exists (evs ++ evs2). rewrite T2, T, app_assoc.
  split; [reflexivity|]. apply Forall_app; auto.
Qed.

Lemma emits_input (P : event -> Prop) prompt :
  P (Write prompt) -> emits P (input prompt).
Proof.
  intros Pp w. unfold input. exists [Write prompt].
  destruct (stdin w); cbn; auto.
Qed.

(** ** The engine only talks: one invocation event, no input read *)

Ltac quiet_step :=
  first [ apply quiet_ret | apply quiet_raise | apply quiet_getitem
        | apply quiet_emit; exact I
        | apply quiet_sample; intros; exact I
        | apply quiet_bind; [|intros]
        | apply quiet_for; intros ].

Lemma quiet_call_model model token h :
  quiet no_invoke (call_model model token h).
Proof. unfold call_model. repeat quiet_step. Qed.

Lemma quiet_decode_step model num_to_character temperature st :
  quiet no_invoke (decode_step model num_to_character temperature st).
Proof.
  destruct st as [[cur h] text]. unfold decode_step.
  apply quiet_bind; [apply quiet_call_model|]. intros [output h'].
  unfold torch_div, torch_softmax, write. repeat quiet_step.
Qed.

Lemma quiet_seed_to_indices character_to_num seed_phrase :
  quiet no_invoke (seed_to_indices character_to_num seed_phrase).
Proof.
  unfold seed_to_indices. apply quiet_for. intros c acc.
  destruct (character_to_num !! c); unfold print; repeat quiet_step.
Qed.

Lemma quiet_warm_up model seed_indices :
  quiet no_invoke (warm_up model seed_indices).
Proof.
  unfold warm_up. apply quiet_for. intros i h.
  destruct (seed_indices !! i); [|apply quiet_raise].
  apply quiet_bind; [apply quiet_call_model|]. intros [? ?]. apply quiet_ret.
Qed.

Lemma generate_events model character_to_num num_to_character
    seed_phrase length temperature w :
  let r := generate_text_with_seed model character_to_num num_to_character
             seed_phrase length temperature w in
  r.1 <> OutOfFuel /\ stdin r.2 = stdin w /\
  exists evs,
    trace r.2 = trace w ++ Invoke seed_phrase length temperature :: evs /\
    Forall no_invoke evs.
Proof.
  cbv zeta. unfold generate_text_with_seed. rewrite run_bind, run_emit.
  cbv beta iota.
  set (w1 := mkWorld _ _ _).
  match goal with |- context [?c w1] =>
    assert (Q : quiet no_invoke c) end.
  { apply quiet_bind; [apply quiet_emit; exact I|]. intros _.
    apply quiet_bind; [apply quiet_seed_to_indices|]. intros [|t ts].
    - unfold print. repeat quiet_step.
    - unfold print, write.
      do 3 (apply quiet_bind; [apply quiet_emit; exact I|]; intros _).
      apply quiet_bind; [apply quiet_warm_up|]. intros h.
      apply quiet_bind.
      + apply quiet_for. intros. apply quiet_decode_step.
      + intros [[? ?] ?]. repeat quiet_step. }
  destruct (Q w1) as (F & I & evs & T & All).
  split; [exact F|]. split; [exact I|].
  exists evs. rewrite T. subst w1. cbn [trace].
  rewrite <- app_assoc. auto.
Qed.

(** ** Warm-up *)

Lemma warm_up_from model seed_indices k a h w :
  (a + k <= length seed_indices)%nat ->
  for_ (seq a k)
    (fun i hidden_state =>
       match seed_indices !! i with
       | Some input_char =>
           '(_, h) ← call_model model input_char hidden_state;
           mret (Some h)
       | None => raise IndexError
       end) h w
  = (Ok (run_state model (take k (drop a seed_indices)) h),
     mkWorld (stdin w) (rng w)
       (trace w ++ map step_event
                    (chain model (take k (drop a seed_indices)) h))).
Proof.
  revert a h w. induction k as [|k IH]; intros a h w Hle.
  - cbn [seq take]. run. cbn. rewrite app_nil_r. destruct w; reflexivity.
  - cbn [seq]. run.
    destruct (lookup_lt_is_Some_2 seed_indices a) as [t Ht]; [lia|].
    rewrite Ht. unfold call_model. run.
    destruct (model t h) as [out h'] eqn:Em. run.
    rewrite IH by lia. cbn [stdin rng trace].
    rewrite (drop_S _ _ _ Ht). cbn [take firstn chain run_state foldl map].
    rewrite Em. cbn [snd]. rewrite <- app_assoc. reflexivity.
Qed.

Lemma removelast_take {A} (l : list A) :
  removelast l = take (length l - 1) l.
Proof.
  rewrite removelast_firstn_len. f_equal. lia.
Qed.

Lemma warm_up_run model seed_indices w :
  warm_up model seed_indices w
  = (Ok (warm_state model seed_indices),
     mkWorld (stdin w) (rng w)
       (trace w ++ map step_event
                    (chain model (removelast seed_indices) None))).
Proof.
  unfold warm_up. rewrite warm_up_from by lia.
  rewrite drop_0, <- removelast_take. reflexivity.
Qed.

Lemma chain_length model tokens h :
  length (chain model tokens h) = length tokens.
Proof.
  revert h. induction tokens as [|t r IH]; intros h; cbn; [|rewrite IH]; reflexivity.
Qed.

Lemma chain_tokens model tokens h :
  map fst (chain model tokens h) = tokens.
Proof.
  revert h. induction tokens as [|t r IH]; intros h; cbn; [|rewrite IH]; reflexivity.
Qed.

(** Each call but the first receives the state the previous one returned. *)
Lemma chain_linked model tokens h i t1 h1 t2 h2 :
  chain model tokens h !! i = Some (t1, h1) ->
  chain model tokens h !! S i = Some (t2, h2) ->
  h2 = Some (model t1 h1).2.
Proof.
  revert h i. induction tokens as [|t r IH]; intros h i; [discriminate|].
  destruct i as [|i]; cbn.
  - intros [= <- <-]. destruct r; [discriminate|]. cbn. congruence.
  - apply IH.
Qed.

Lemma chain_first model tokens h t1 h1 :
  chain model tokens h !! O = Some (t1, h1) -> h1 = h.
Proof. destruct tokens; cbn; congruence. Qed.

(** The state reached is the one the last call returned. *)
Lemma run_state_from model tokens h :
  run_state model tokens h
  = match last (chain model tokens h) with
    | Some (t, h') => Some (model t h').2
    | None => h
    end.
Proof.
  revert h. induction tokens as [|t r IH]; intros h; [reflexivity|].
  cbn [run_state foldl chain]. fold (run_state model r (Some (model t h).2)).
  rewrite IH. destruct r as [|t' r']; [reflexivity|].
  cbn [chain]. set (c := (t', _)). set (l := chain model r' _).
  change (last ((t, h) :: c :: l)) with (last (c :: l)).
  destruct (last (c :: l)) as [[? ?]|] eqn:E; [reflexivity|].
  apply last_None in E. discriminate.
Qed.

Lemma run_state_last model seed_indices :
  warm_state model seed_indices
  = match last (chain model (removelast seed_indices) None) with
    | Some (t, h) => Some (model t h).2
    | None => None
    end.
Proof. unfold warm_state. apply run_state_from. Qed.

(** ** Strings *)

Lemma append_cons c s t : String c s +:+ t = String c (s +:+ t).
Proof. reflexivity. Qed.

Lemma append_nil_r s : s +:+ EmptyString = s.
Proof. induction s as [|c s IH]; [reflexivity|]. rewrite append_cons, IH. reflexivity. Qed.

Lemma append_assoc s t u : (s +:+ t) +:+ u = s +:+ (t +:+ u).
Proof.
  induction s as [|c s IH]; [reflexivity|].
  rewrite !append_cons, IH. reflexivity.
Qed.

Lemma length_append s t :
  String.length (s +:+ t) = (String.length s + String.length t)%nat.
Proof.
  induction s as [|c s IH]; [reflexivity|].
  rewrite append_cons. cbn [String.length]. rewrite IH. reflexivity.
Qed.

Lemma prefix_append s t : String.prefix s (s +:+ t) = true.
Proof.
  induction s as [|c s IH]; [destruct t; reflexivity|].
  rewrite append_cons. cbn [String.prefix].
  destruct (ascii_dec c c); [exact IH | congruence].
Qed.

(** ** The decoding loop against the specification's wording *)

Lemma spec_decode_length model num_to_character temperature n cur h g evs text g' :
  spec_decode model num_to_character temperature n cur h g = Some (evs, text, g') ->
  String.length text = n.
Proof.
  revert cur h g evs text g'. induction n as [|n IH]; intros cur h g evs text g'.
  - intros [= <- <- <-]. reflexivity.
  - cbn [spec_decode]. cbv zeta.
    destruct (num_to_character !! _) as [c|]; [|discriminate].
    destruct (spec_decode _ _ _ n _ _ _) as [[[evs1 text1] g1]|] eqn:E; [|discriminate].
    intros [= <- <- <-]. cbn [String.length]. f_equal. eapply IH, E.
Qed.

Lemma spec_decode_covers model num_to_character temperature n cur h g :
  covers num_to_character ->
  is_Some (spec_decode model num_to_character temperature n cur h g).
Proof.
  intros Hc. revert cur h g. induction n as [|n IH]; intros cur h g.
  - eexists. reflexivity.
  - cbn [spec_decode]. cbv zeta.
    match goal with |- context [num_to_character !! ?k] =>
      destruct (num_to_character !! k) as [c|] eqn:E end.
    + match goal with |- context [spec_decode _ _ _ n ?a ?b ?d] =>
        destruct (IH a b d) as [[[evs1 text1] g1] E1] end.
      rewrite E1. eexists. reflexivity.
    + destruct (Hc (softmax (div_temperature (model cur h).1 temperature)) g) as [c Ec].
      congruence.
Qed.

Lemma decode_loop_some model num_to_character temperature n a cur h text w evs cs g' :
  spec_decode model num_to_character temperature n cur h (rng w) = Some (evs, cs, g') ->
  exists cur' h',
    for_ (seq a n) (fun _ => decode_step model num_to_character temperature)
      (cur, h, text) w
    = (Ok (cur', h', text +:+ cs), mkWorld (stdin w) g' (trace w ++ evs)).
Proof.
  revert a cur h text w evs cs g'.
  induction n as [|n IH]; intros a cur h text w evs cs g'.
  - intros [= <- <- <-]. exists cur, h. cbn [seq]. run.
    rewrite append_nil_r, app_nil_r. destruct w; reflexivity.
  - cbn [spec_decode]. cbv zeta.
    destruct (num_to_character !! _) as [c|] eqn:Ec; [|discriminate].
    destruct (spec_decode _ _ _ n _ _ _) as [[[evs1 text1] g1]|] eqn:E; [|discriminate].
    intros [= <- <- <-].
    cbn [seq]. run. unfold decode_step at 1, call_model. run.
    destruct (model cur h) as [out h1] eqn:Em. cbn [fst snd] in *.
    unfold torch_div, torch_softmax. run.
    rewrite Ec. run.
    match goal with |- context [for_ _ _ _ ?w1] =>
      destruct (IH (S a) _ _ (text +:+ Py.chr c) w1 _ _ _ E) as (cur' & h' & ->)
    end.
    exists cur', h'. cbn [stdin rng trace].
    unfold Py.chr. rewrite append_assoc, append_cons.
    rewrite <- !app_assoc. reflexivity.
Qed.

Lemma decode_loop_none model num_to_character temperature n a cur h text w :
  spec_decode model num_to_character temperature n cur h (rng w) = None ->
  exists w',
    for_ (seq a n) (fun _ => decode_step model num_to_character temperature)
      (cur, h, text) w
    = (Raise KeyError, w').
Proof.
  revert a cur h text w.
  induction n as [|n IH]; intros a cur h text w; [discriminate|].
  cbn [spec_decode]. cbv zeta. intros E.
  cbn [seq]. run. unfold decode_step at 1, call_model. run.
  destruct (model cur h) as [out h1] eqn:Em. cbn [fst snd] in *.
  unfold torch_div, torch_softmax. run.
  destruct (num_to_character !! _) as [c|] eqn:Ec.
  - run.
    destruct (spec_decode _ _ _ n _ _ _) as [[[evs1 text1] g1]|] eqn:E1; [discriminate|].
    match goal with |- context [for_ _ _ _ ?w1] =>
      apply (IH (S a) _ _ _ w1 E1)
    end.
  - eexists. reflexivity.
Qed.

(** ** The engine, phase by phase *)

Lemma seed_to_indices_run character_to_num seed_phrase w :
  seed_to_indices character_to_num seed_phrase w
  = (Ok (known_ids character_to_num seed_phrase),
     mkWorld (stdin w) (rng w)
       (trace w ++ map (fun c => Write (warning c +:+ Py.nl))
                       (unknown_chars character_to_num seed_phrase))).
Proof. unfold seed_to_indices. rewrite seed_to_indices_from. reflexivity. Qed.

Lemma unknown_all character_to_num seed_phrase :
  known_ids character_to_num seed_phrase = [] ->
  unknown_chars character_to_num seed_phrase = list_ascii_of_string seed_phrase.
Proof.
  unfold known_ids, unknown_chars.
  induction (list_ascii_of_string seed_phrase) as [|c l IH]; [reflexivity|].
  cbn [omap list_omap]. rewrite filter_cons.
  destruct (character_to_num !! c) eqn:E; [discriminate|].
  intros E'. case_decide; [|congruence]. rewrite IH by exact E'. reflexivity.
Qed.

Lemma generate_empty model character_to_num num_to_character
    seed_phrase length temperature w :
  known_ids character_to_num seed_phrase = [] ->
  generate_text_with_seed model character_to_num num_to_character
    seed_phrase length temperature w
  = (Ok EmptyString,
     mkWorld (stdin w) (rng w)
       (trace w
        ++ [Invoke seed_phrase length temperature; Eval]
        ++ map (fun c => Write (warning c +:+ Py.nl))
               (list_ascii_of_string seed_phrase)
        ++ [Write ("Error: No valid characters in seed phrase!" +:+ Py.nl)])).
Proof.
  intros E. unfold generate_text_with_seed. run.
  rewrite seed_to_indices_run, E, (unknown_all _ _ E). run.
  rewrite <- !app_assoc. reflexivity.
Qed.

Lemma generate_warm model character_to_num num_to_character
    seed_phrase length temperature w :
  known_ids character_to_num seed_phrase <> [] ->
  let seed_indices := known_ids character_to_num seed_phrase in
  generate_text_with_seed model character_to_num num_to_character
    seed_phrase length temperature w
  = ('(_, _, generated_text) ←
       for_ (range length)
         (fun _ => decode_step model num_to_character temperature)
         (default 0 (last seed_indices),
          warm_state model seed_indices, seed_phrase);
     print separator;;
     mret generated_text)
      (mkWorld (stdin w) (rng w)
         (trace w
          ++ preamble character_to_num seed_phrase length temperature
          ++ map step_event (chain model (removelast seed_indices) None))).
Proof.
  intros NE seed_indices. unfold generate_text_with_seed. run.
  rewrite seed_to_indices_run. fold seed_indices.
  destruct seed_indices as [|t ts] eqn:Et; [contradiction|]. run.
  rewrite warm_up_run. cbn [stdin rng trace].
  unfold preamble. rewrite <- !app_assoc. reflexivity.
Qed.

Lemma generate_some model character_to_num num_to_character
    seed_phrase length temperature w evs text g' :
  known_ids character_to_num seed_phrase <> [] ->
  let seed_indices := known_ids character_to_num seed_phrase in
  spec_decode model num_to_character temperature (Z.to_nat length)
    (default 0 (last seed_indices)) (warm_state model seed_indices) (rng w)
    = Some (evs, text, g') ->
  generate_text_with_seed model character_to_num num_to_character
    seed_phrase length temperature w
  = (Ok (seed_phrase +:+ text),
     mkWorld (stdin w) g'
       (trace w
        ++ preamble character_to_num seed_phrase length temperature
        ++ map step_event (chain model (removelast seed_indices) None)
        ++ evs
        ++ [Write (separator +:+ Py.nl)])).
Proof.
  intros NE seed_indices E. rewrite generate_warm by exact NE.
  fold seed_indices. rewrite run_bind. unfold range.
  match goal with |- context [for_ _ _ ?st ?w1] =>
    destruct (decode_loop_some model num_to_character temperature
                (Z.to_nat length) 0 _ _ seed_phrase w1 _ _ _ E)
      as (cur' & h' & ->)
  end.
  run. rewrite <- !app_assoc. reflexivity.
Qed.

Lemma generate_none model character_to_num num_to_character
    seed_phrase length temperature w :
  known_ids character_to_num seed_phrase <> [] ->
  let seed_indices := known_ids character_to_num seed_phrase in
  spec_decode model num_to_character temperature (Z.to_nat length)
    (default 0 (last seed_indices)) (warm_state model seed_indices) (rng w)
    = None ->
  exists w',
    generate_text_with_seed model character_to_num num_to_character
      seed_phrase length temperature w
    = (Raise KeyError, w').
Proof.
  intros NE seed_indices E. rewrite generate_warm by exact NE.
  fold seed_indices. rewrite run_bind. unfold range.
  match goal with |- context [for_ _ _ ?st ?w1] =>
    destruct (decode_loop_none model num_to_character temperature
                (Z.to_nat length) 0 _ _ seed_phrase w1 E) as (w' & ->)
  end.
  eexists. reflexivity.
Qed.

(** ** The session loop needs no more fuel than it is given *)

Section Session.

Variables (model : Model).
Variables (character_to_num : gmap ascii Z) (num_to_character : gmap Z ascii).

Local Abbreviation generate :=
  (generate_text_with_seed model character_to_num num_to_character).
Local Abbreviation turn :=
  (session_turn model character_to_num num_to_character).
Local Abbreviation loop :=
  (session_loop model character_to_num num_to_character).
Local Abbreviation run_session :=
  (session model character_to_num num_to_character).

Lemma tame_quiet P {A} (c : M A) : quiet P c -> tame c.
Proof. intros Q w. destruct (Q w) as (F & I & _). split; [exact F|]. rewrite I. lia. Qed.

Lemma tame_ret {A} (a : A) : tame (mret a : M A).
Proof. intros w. cbn. split; [discriminate|lia]. Qed.

Lemma tame_raise {A} e : tame (raise e : M A).
Proof. intros w. cbn. split; [discriminate|lia]. Qed.

Lemma tame_bind {A B} (c : M A) (k : A -> M B) :
  tame c -> (forall a, tame (k a)) -> tame (c ≫= k).
Proof.
  intros Hc Hk w. rewrite run_bind. destruct (Hc w) as (F & L).
  destruct (c w) as [[a| e |] w1]; cbn [fst snd] in *.
  - destruct (Hk a w1) as (F2 & L2). split; [exact F2|lia].
  - split; [discriminate|lia].
  - congruence.
Qed.

Lemma tame_try {A} (body handler : M A) :
  tame body -> tame handler -> tame (try_except_ValueError body handler).
Proof.
  intros Hb Hh w. unfold try_except_ValueError. destruct (Hb w) as (F & L).
  destruct (body w) as [[a| [] |] w1]; cbn [fst snd] in *;
    try (split; [discriminate|lia]); try congruence.
  destruct (Hh w1) as (F2 & L2). split; [exact F2|lia].
Qed.

Lemma tame_input prompt : tame (input prompt).
Proof.
  intros w. unfold input. destruct (stdin w); cbn; split; try discriminate; lia.
Qed.

Lemma tame_generate seed_phrase length temperature :
  tame (generate seed_phrase length temperature).
Proof.
  intros w.
  destruct (generate_events model character_to_num num_to_character
              seed_phrase length temperature w) as (F & I & _).
  split; [exact F|]. rewrite I. lia.
Qed.

Lemma tame_parse_int s : tame (parse_int s).
Proof. unfold parse_int. destruct (Py.int s); [apply tame_ret|apply tame_raise]. Qed.

Lemma tame_parse_float s : tame (parse_float s).
Proof.
  unfold parse_float. destruct (float_of_str s); [apply tame_ret|apply tame_raise].
Qed.

Ltac tame_step :=
  first [ apply tame_ret | apply tame_raise | apply tame_input
        | apply tame_generate | apply tame_parse_int | apply tame_parse_float
        | apply (tame_quiet (fun _ => True)); apply quiet_emit; exact I
        | apply tame_try
        | apply tame_bind; [|intros] ].

Lemma input_then {A} prompt (k : string -> M A) w :
  (forall line, tame (k line)) ->
  ((input prompt ≫= k) w).1 <> OutOfFuel /\
  forall a, ((input prompt ≫= k) w).1 = Ok a ->
            (length (stdin ((input prompt ≫= k) w).2) < length (stdin w))%nat.
Proof.
  intros T. rewrite run_bind. unfold input.
  destruct (stdin w) as [|line rest] eqn:Ein; cbn [fst snd].
  - split; [discriminate|]. intros a [=].
  - match goal with |- context [k line ?w1] =>
      destruct (T line w1) as (F & L) end.
    cbn [tail] in *. cbn [stdin] in L. split; [exact F|]. intros a _. cbn [length]. lia.
Qed.

Lemma session_turn_progress w :
  (turn w).1 <> OutOfFuel /\
  ((turn w).1 = Ok Next ->
   (length (stdin (turn w).2) < length (stdin w))%nat).
Proof.
  unfold session_turn.
  match goal with |- context [(input ?p ≫= ?k) w] =>
    destruct (input_then p k w) as (F & L) end.
  { intros line. cbv beta zeta.
    destruct (String.eqb _ _); [apply tame_ret|].
    destruct (Py.truthy _); [|apply tame_ret].
    unfold print. repeat tame_step. }
  split; [exact F | apply L].
Qed.

Lemma session_loop_enough n m w :
  (length (stdin w) < n)%nat -> (length (stdin w) < m)%nat ->
  loop n w = loop m w /\ (loop n w).1 <> OutOfFuel.
Proof.
  revert m w. induction n as [|n IH]; intros m w Hn Hm; [lia|].
  destruct m as [|m]; [lia|]. cbn [session_loop]. rewrite !run_bind.
  destruct (session_turn_progress w) as (F & L).
  destruct (turn w) as [[[]| e |] w1]; cbn [fst snd] in *.
  - specialize (L eq_refl).
    destruct (IH m w1) as (E & F1); [lia|lia|]. rewrite E. split; [reflexivity|].
    rewrite <- E. exact F1.
  - split; [reflexivity|discriminate].
  - split; [reflexivity|discriminate].
  - congruence.
Qed.

(** [session] is the [while True] loop: a turn, then the loop again
    unless the turn ended it. *)
Lemma session_unfold w :
  run_session w
  = (f ← turn; match f with Break => mret tt | Next => run_session end) w.
Proof.
  unfold session at 1. rewrite run_bind. unfold unread at 1. cbv beta iota.
  cbn [session_loop]. rewrite !run_bind.
  destruct (session_turn_progress w) as (F & L).
  destruct (turn w) as [[[]| e |] w1]; cbn [fst snd] in *; try reflexivity.
  specialize (L eq_refl). unfold session. rewrite run_bind.
  unfold unread. cbv beta iota.
  apply session_loop_enough; lia.
Qed.

Lemma session_total w : (run_session w).1 <> OutOfFuel.
Proof.
  unfold session. rewrite run_bind. unfold unread. cbv beta iota.
  apply (session_loop_enough _ (S (length (stdin w))) w); lia.
Qed.

(** *** One turn, case by case *)

Lemma generate_outcome seed_phrase length temperature w :
  (exists text, (generate seed_phrase length temperature w).1 = Ok text) \/
  (generate seed_phrase length temperature w).1 = Raise KeyError.
Proof.
  destruct (known_ids character_to_num seed_phrase) as [|t ts] eqn:Ek.
  - left. rewrite generate_empty by exact Ek. eexists. reflexivity.
  - assert (NE : known_ids character_to_num seed_phrase <> []) by congruence.
    destruct (spec_decode model num_to_character temperature (Z.to_nat length)
                (default 0 (last (known_ids character_to_num seed_phrase)))
                (warm_state model (known_ids character_to_num seed_phrase))
                (rng w)) as [[[evs text] g']|] eqn:E.
    + left. rewrite (generate_some _ _ _ _ _ _ _ _ _ _ NE E). eexists. reflexivity.
    + right. destruct (generate_none _ _ _ _ _ _ _ NE E) as (w' & ->). reflexivity.
Qed.

Lemma turn_skip w line rest :
  stdin w = line :: rest -> Py.strip line = EmptyString ->
  turn w = (Ok Next, mkWorld rest (rng w) (trace w ++ [Write seed_prompt])).
Proof.
  intros Ein Es. unfold session_turn. rewrite run_bind. unfold input.
  rewrite Ein. cbv beta iota zeta. rewrite Es. reflexivity.
Qed.

Lemma turn_quit w line rest :
  stdin w = line :: rest ->
  String.eqb (Py.lower (Py.strip line)) "quit" = true ->
  turn w = (Ok Break, mkWorld rest (rng w) (trace w ++ [Write seed_prompt])).
Proof.
  intros Ein Es. unfold session_turn. rewrite run_bind. unfold input.
  rewrite Ein. cbv beta iota zeta. rewrite Es. reflexivity.
Qed.

Lemma turn_bad_length w line l rest :
  stdin w = line :: l :: rest ->
  String.eqb (Py.lower (Py.strip line)) "quit" = false ->
  Py.truthy (Py.strip line) = true ->
  Py.int (Py.or_else l "150") = None ->
  turn w
  = (generate (Py.strip line) 150 temp_0_8;; mret Next)
      (mkWorld rest (rng w)
         (trace w ++ [Write seed_prompt; Write length_prompt; Write notice])).
Proof.
  intros Ein Eq Et Ei. unfold session_turn. rewrite run_bind. unfold input at 1.
  rewrite Ein. cbv beta iota zeta. rewrite Eq, Et.
  rewrite run_bind. unfold try_except_ValueError.
  rewrite run_bind. unfold input at 1. cbn [stdin tail rng trace].
  cbv beta iota. rewrite run_bind. unfold parse_int. rewrite Ei, run_raise.
  cbv beta iota. run. rewrite <- !app_assoc.
  destruct (generate _ _ _ _) as [[text| e |] w2]; reflexivity.
Qed.

Lemma turn_bad_temperature w line l t rest n :
  stdin w = line :: l :: t :: rest ->
  String.eqb (Py.lower (Py.strip line)) "quit" = false ->
  Py.truthy (Py.strip line) = true ->
  Py.int (Py.or_else l "150") = Some n ->
  float_of_str (Py.or_else t "0.8") = None ->
  turn w
  = (generate (Py.strip line) 150 temp_0_8;; mret Next)
      (mkWorld rest (rng w)
         (trace w ++ [Write seed_prompt; Write length_prompt;
                      Write temperature_prompt; Write notice])).
Proof.
  intros Ein Eq Et Ei Ef. unfold session_turn. rewrite run_bind. unfold input at 1.
  rewrite Ein. cbv beta iota zeta. rewrite Eq, Et.
  rewrite run_bind. unfold try_except_ValueError.
  rewrite run_bind. unfold input at 1. cbn [stdin tail rng trace].
  cbv beta iota. rewrite run_bind. unfold parse_int. rewrite Ei, run_ret.
  cbv beta iota. rewrite run_bind. unfold input at 1. cbn [stdin tail rng trace].
  cbv beta iota. rewrite run_bind. unfold parse_float. rewrite Ef, run_raise.
  cbv beta iota. run. rewrite <- !app_assoc.
  destruct (generate _ _ _ _) as [[text| e |] w2]; reflexivity.
Qed.

Lemma turn_parsed w line l t rest n temperature :
  stdin w = line :: l :: t :: rest ->
  String.eqb (Py.lower (Py.strip line)) "quit" = false ->
  Py.truthy (Py.strip line) = true ->
  Py.int (Py.or_else l "150") = Some n ->
  float_of_str (Py.or_else t "0.8") = Some temperature ->
  turn w
  = (generate (Py.strip line) n temperature;; mret Next)
      (mkWorld rest (rng w)
         (trace w ++ [Write seed_prompt; Write length_prompt;
                      Write temperature_prompt])).
Proof.
  intros Ein Eq Et Ei Ef. unfold session_turn. rewrite run_bind. unfold input at 1.
  rewrite Ein. cbv beta iota zeta. rewrite Eq, Et.
  rewrite run_bind. unfold try_except_ValueError.
  rewrite run_bind. unfold input at 1. cbn [stdin tail rng trace].
  cbv beta iota. rewrite run_bind. unfold parse_int. rewrite Ei, run_ret.
  cbv beta iota. rewrite run_bind. unfold input at 1. cbn [stdin tail rng trace].
  cbv beta iota. rewrite run_bind. unfold parse_float. rewrite Ef, run_ret.
  cbv beta iota. rewrite <- !app_assoc. cbn [app].
  rewrite !run_bind.
  match goal with |- _ = match generate ?s ?a ?b ?w1 with _ => _ end =>
    set (W := w1);
    destruct (generate_outcome s a b W) as [[text E]|E];
    match goal with |- context [generate s a b ?w0] => change w0 with W end;
    destruct (generate s a b W) as [[text'| e |] w2] end;
    cbn [fst] in E; try discriminate; try reflexivity.
  injection E as ->. reflexivity.
Qed.

(** A turn that answers [Next] is followed by the rest of the session. *)
Lemma session_after {A} (c : M A) w w1 :
  turn w = (c;; mret Next) w1 ->
  run_session w = (c;; run_session) w1.
Proof.
  intros E. rewrite session_unfold, run_bind, E, !run_bind.
  destruct (c w1) as [[a| e |] w2]; reflexivity.
Qed.

End Session.

(** ** Observing a run *)

Lemma new_events_app w w' evs :
  trace w' = trace w ++ evs -> new_events w w' = evs.
Proof. intros E. unfold new_events. rewrite E. apply drop_app_length. Qed.

Lemma steps_app evs1 evs2 : steps (evs1 ++ evs2) = steps evs1 ++ steps evs2.
Proof. apply omap_app. Qed.

Lemma divisions_app evs1 evs2 :
  divisions (evs1 ++ evs2) = divisions evs1 ++ divisions evs2.
Proof. apply omap_app. Qed.

Lemma invocations_app evs1 evs2 :
  invocations (evs1 ++ evs2) = invocations evs1 ++ invocations evs2.
Proof. apply omap_app. Qed.

Lemma steps_step_events cs : steps (map step_event cs) = cs.
Proof.
  induction cs as [|[t h] cs IH]; [reflexivity|].
  cbn [map]. unfold steps in *. cbn. rewrite IH. reflexivity.
Qed.

Lemma divisions_step_events cs : divisions (map step_event cs) = [].
Proof. induction cs as [|[t h] cs IH]; [reflexivity|exact IH]. Qed.

Lemma steps_writes {A} (f : A -> string) l : steps (map (fun c => Write (f c)) l) = [].
Proof. induction l as [|c l IH]; [reflexivity|exact IH]. Qed.

Lemma divisions_writes {A} (f : A -> string) l :
  divisions (map (fun c => Write (f c)) l) = [].
Proof. induction l as [|c l IH]; [reflexivity|exact IH]. Qed.

Lemma invocations_none evs : Forall no_invoke evs -> invocations evs = [].
Proof.
  induction 1 as [|e evs He _ IH]; [reflexivity|].
  unfold invocations in *. cbn. destruct e; try exact IH. destruct He.
Qed.

Lemma steps_preamble character_to_num seed_phrase length temperature :
  steps (preamble character_to_num seed_phrase length temperature) = [].
Proof.
  unfold preamble. rewrite !steps_app, steps_writes. reflexivity.
Qed.

Lemma divisions_preamble character_to_num seed_phrase length temperature :
  divisions (preamble character_to_num seed_phrase length temperature) = [].
Proof.
  unfold preamble. rewrite !divisions_app, divisions_writes. reflexivity.
Qed.


(** The first turn of a decoding loop that runs at all starts with a
    call of the network followed by the division. *)
Lemma decode_first model num_to_character temperature n a cur h text
    {B} (k : Z * option Hidden * string -> M B) w :
  (forall st, quiet no_invoke (k st)) ->
  exists evs,
    trace ((for_ (seq a (S n))
              (fun _ => decode_step model num_to_character temperature)
              (cur, h, text) ≫= k) w).2
    = trace w ++ Step cur h :: Div (model cur h).1 temperature :: evs.
Proof.
  intros Qk. cbn [seq]. rewrite run_bind, run_for_cons, run_bind.
  unfold decode_step at 1, call_model. run.
  destruct (model cur h) as [out h1] eqn:Em. cbn [fst snd].
  unfold torch_div. rewrite run_bind, run_bind, run_emit. cbv beta iota.
  rewrite run_ret. cbv beta iota.
  match goal with |- context [(?c ≫= ?f) ?w1] =>
    assert (Q1 : quiet no_invoke (c ≫= f)) end.
  { unfold torch_softmax, write. repeat quiet_step. }
  match goal with |- context [(?c ≫= ?f) ?w1] =>
    destruct (Q1 w1) as (_ & _ & evs1 & T1 & _);
    destruct ((c ≫= f) w1) as [[st| e |] w2] end; cbn [fst snd trace] in *.
  - assert (Q2 : quiet no_invoke
              (for_ (seq (S a) n)
                 (fun _ => decode_step model num_to_character temperature) st)).
    { apply quiet_for. intros. apply quiet_decode_step. }
    destruct (Q2 w2) as (_ & _ & evs2 & T2 & _).
    destruct (for_ _ _ st w2) as [[st'| e |] w3]; cbn [fst snd trace] in *.
    + destruct (Qk st' w3) as (_ & _ & evs3 & T3 & _).
      rewrite T3, T2, T1, <- !app_assoc. eexists. reflexivity.
    + rewrite T2, T1, <- !app_assoc. eexists. reflexivity.
    + rewrite T2, T1, <- !app_assoc. eexists. reflexivity.
  - rewrite T1, <- !app_assoc. eexists. reflexivity.
  - rewrite T1, <- !app_assoc. eexists. reflexivity.
Qed.

(** ** The engine reads the world through the generator only *)

Lemma rng_only_ret {A} (a : A) : rng_only (mret a : M A).
Proof. intros w. unfold onto. cbn. rewrite app_nil_r. destruct w; reflexivity. Qed.

Lemma rng_only_raise {A} e : rng_only (raise e : M A).
Proof. intros w. unfold onto. cbn. rewrite app_nil_r. destruct w; reflexivity. Qed.

Lemma rng_only_emit e : rng_only (emit e).
Proof. intros w. reflexivity. Qed.

Lemma rng_only_sample probs : rng_only (torch_sample probs).
Proof. intros w. rewrite !run_sample. reflexivity. Qed.

Lemma rng_only_getitem `{Countable K} {V} (d : gmap K V) k :
  rng_only (getitem d k).
Proof.
  unfold getitem. destruct (d !! k); [apply rng_only_ret | apply rng_only_raise].
Qed.

Lemma rng_only_bind {A B} (c : M A) (k : A -> M B) :
  rng_only c -> (forall a, rng_only (k a)) -> rng_only (c ≫= k).
Proof.
  intros Hc Hk w. rewrite !run_bind, (Hc w). unfold onto at 1.
  destruct (c (base w)) as [[a| e |] w0]; cbn [fst snd]; try reflexivity.
  rewrite (Hk a (mkWorld _ _ _)), (Hk a w0). unfold onto, base. cbn [fst snd stdin rng trace].
  rewrite app_assoc. reflexivity.
Qed.

Lemma rng_only_for {A St} (xs : list A) (body : A -> St -> M St) s :
  (forall x s, rng_only (body x s)) -> rng_only (for_ xs body s).
Proof.
  intros Hb. revert s. induction xs as [|x xs IH]; intros s.
  - apply rng_only_ret.
  - cbn [for_]. apply rng_only_bind; auto.
Qed.

Ltac rng_step :=
  first [ apply rng_only_ret | apply rng_only_raise | apply rng_only_emit
        | apply rng_only_sample | apply rng_only_getitem
        | apply rng_only_bind; [|intros]
        | apply rng_only_for; intros ].

Lemma rng_only_generate model character_to_num num_to_character
    seed_phrase length temperature :
  rng_only (generate_text_with_seed model character_to_num num_to_character
              seed_phrase length temperature).
Proof.
  unfold generate_text_with_seed.
  do 2 (apply rng_only_bind; [apply rng_only_emit|]; intros _).
  apply rng_only_bind.
  { unfold seed_to_indices. apply rng_only_for. intros c acc.
    destruct (character_to_num !! c); unfold print; repeat rng_step. }
  intros [|t ts]; [unfold print; repeat rng_step|].
  unfold print, write.
  do 3 (apply rng_only_bind; [apply rng_only_emit|]; intros _).
  apply rng_only_bind.
  { unfold warm_up. apply rng_only_for. intros i h.
    destruct (_ !! i); [|apply rng_only_raise].
    unfold call_model. apply rng_only_bind; [repeat rng_step|].
    intros [? ?]. apply rng_only_ret. }
  intros h. apply rng_only_bind.
  - apply rng_only_for. intros _ [[cur h'] text]. unfold decode_step, call_model.
    apply rng_only_bind; [repeat rng_step|]. intros [out h''].
    unfold torch_div, torch_softmax, write. repeat rng_step.
  - intros [[? ?] ?]. repeat rng_step.
Qed.

Lemma new_events_onto w {A} (r : result A * World) :
  new_events w (onto w r).2 = trace r.2.
Proof. apply new_events_app. reflexivity. Qed.

(** ** What the session asks of the engine *)

Lemma emits_weaken (P Q : event -> Prop) {A} (c : M A) :
  (forall e, P e -> Q e) -> emits P c -> emits Q c.
Proof.
  intros PQ Hc w. destruct (Hc w) as (evs & T & All).
  exists evs. split; [exact T|]. eapply Forall_impl; eauto.
Qed.

Lemma emits_ret P {A} (a : A) : emits P (mret a : M A).
Proof. apply quiet_emits, quiet_ret. Qed.

Lemma emits_raise P {A} e : emits P (raise e : M A).
Proof. apply quiet_emits, quiet_raise. Qed.

Lemma emits_print (P : event -> Prop) s :
  (forall t, P (Write t)) -> emits P (print s).
Proof. intros Pw. apply quiet_emits, quiet_emit, Pw. Qed.

Lemma emits_generate (ok : string -> Prop) model character_to_num
    num_to_character seed_phrase length temperature :
  ok seed_phrase ->
  emits (invokes_only ok)
    (generate_text_with_seed model character_to_num num_to_character
       seed_phrase length temperature).
Proof.
  intros Hok w.
  destruct (generate_events model character_to_num num_to_character
              seed_phrase length temperature w) as (_ & _ & evs & T & All).
  eexists. split; [exact T|]. constructor; [exact Hok|].
  eapply Forall_impl; [exact All|]. intros [] He; cbn in *; auto. destruct He.
Qed.

Lemma invocations_generate model character_to_num num_to_character
    seed_phrase length temperature w :
  invocations
    (new_events w
       (generate_text_with_seed model character_to_num num_to_character
          seed_phrase length temperature w).2)
  = [(seed_phrase, length, temperature)].
Proof.
  destruct (generate_events model character_to_num num_to_character
              seed_phrase length temperature w) as (_ & _ & evs & T & All).
  rewrite (new_events_app _ _ _ T).
  change (invocations (?e :: ?l)) with ((seed_phrase, length, temperature) :: invocations evs).
  rewrite (invocations_none _ All). reflexivity.
Qed.

Lemma generate_returns model character_to_num num_to_character
    seed_phrase length temperature w :
  covers num_to_character ->
  exists text w',
    generate_text_with_seed model character_to_num num_to_character
      seed_phrase length temperature w = (Ok text, w').
Proof.
  intros Hc.
  destruct (known_ids character_to_num seed_phrase) as [|t ts] eqn:Ek.
  - rewrite generate_empty by exact Ek. eauto.
  - assert (NE : known_ids character_to_num seed_phrase <> []) by congruence.
    destruct (spec_decode_covers model num_to_character temperature
                (Z.to_nat length)
                (default 0 (last (known_ids character_to_num seed_phrase)))
                (warm_state model (known_ids character_to_num seed_phrase))
                (rng w) Hc) as [[[evs cs] g'] E].
    rewrite (generate_some _ _ _ _ _ _ _ _ _ _ NE E). eauto.
Qed.

Lemma truthy_nonempty s : Py.truthy s = true -> s <> EmptyString.
Proof. destruct s; [discriminate|congruence]. Qed.

Lemma emits_session_turn model character_to_num num_to_character :
  emits nonempty_seed (session_turn model character_to_num num_to_character).
Proof.
  unfold session_turn.
  apply emits_bind; [apply emits_input; exact I|]. intros line. cbv zeta.
  destruct (String.eqb _ _); [apply emits_ret|].
  destruct (Py.truthy _) eqn:Et; [|apply emits_ret].
  apply truthy_nonempty in Et.
  apply emits_bind; [|intros; apply emits_ret].
  apply emits_try.
  - apply emits_bind; [apply emits_input; exact I|]. intros l.
    apply emits_bind.
    { unfold parse_int. destruct (Py.int _); [apply emits_ret|apply emits_raise]. }
    intros n. apply emits_bind; [apply emits_input; exact I|]. intros t.
    apply emits_bind.
    { unfold parse_float. destruct (float_of_str _); [apply emits_ret|apply emits_raise]. }
    intros temp. apply emits_bind; [|intros; apply emits_ret].
    apply emits_generate, Et.
  - apply emits_bind; [apply emits_print; intros; exact I|]. intros _.
    apply emits_bind; [|intros; apply emits_ret].
    apply emits_generate, Et.
Qed.

Lemma emits_session_loop model character_to_num num_to_character fuel :
  emits nonempty_seed (session_loop model character_to_num num_to_character fuel).
Proof.
  induction fuel as [|n IH].
  - intros w. exists []. cbn. rewrite app_nil_r. auto.
  - cbn [session_loop]. apply emits_bind; [apply emits_session_turn|].
    intros []; [exact IH|apply emits_ret].
Qed.

Lemma emits_session model character_to_num num_to_character :
  emits nonempty_seed (session model character_to_num num_to_character).
Proof.
  intros w. unfold session. rewrite run_bind. unfold unread. cbv beta iota.
  apply emits_session_loop.
Qed.

Lemma emits_new_events P {A} (c : M A) w :
  emits P c -> Forall P (new_events w (c w).2).
Proof.
  intros Hc. destruct (Hc w) as (evs & T & All).
  rewrite (new_events_app _ _ _ T). exact All.
Qed.

Lemma after_turn model character_to_num num_to_character
    w w1 seed_phrase length temperature evs :
  session_turn model character_to_num num_to_character w
  = (generate_text_with_seed model character_to_num num_to_character
       seed_phrase length temperature;; mret Next) w1 ->
  trace w1 = trace w ++ evs -> invocations evs = [] ->
  session model character_to_num num_to_character w
  = (generate_text_with_seed model character_to_num num_to_character
       seed_phrase length temperature;;
     session model character_to_num num_to_character) w1
  /\ invocations
       (new_events w (session_turn model character_to_num num_to_character w).2)
     = [(seed_phrase, length, temperature)]
  /\ (covers num_to_character ->
      exists text w2,
        generate_text_with_seed model character_to_num num_to_character
          seed_phrase length temperature w1 = (Ok text, w2)
        /\ session_turn model character_to_num num_to_character w = (Ok Next, w2)
        /\ session model character_to_num num_to_character w
           = session model character_to_num num_to_character w2).
Proof.
  intros T Etr Einv.
  assert (S1 := session_after model character_to_num num_to_character _ w w1 T).
  split; [exact S1|]. split.
  - rewrite T, run_bind.
    assert (G := invocations_generate model character_to_num num_to_character
                   seed_phrase length temperature w1).
    destruct (generate_events model character_to_num num_to_character
                seed_phrase length temperature w1) as (_ & _ & evs2 & T2 & _).
    rewrite (new_events_app _ _ _ T2) in G.
    assert (E : trace (generate_text_with_seed model character_to_num
                         num_to_character seed_phrase length temperature w1).2
                = trace w ++ evs
                    ++ Invoke seed_phrase length temperature :: evs2).
    { rewrite T2, Etr, <- app_assoc. reflexivity. }
    destruct (generate_text_with_seed _ _ _ _ _ _ w1) as [[text| e |] w2];
      cbv beta iota; rewrite ?run_ret; cbn [fst snd] in *;
      rewrite (new_events_app _ _ _ E), invocations_app, Einv; exact G.
  - intros Hc.
    destruct (generate_returns model character_to_num num_to_character
                seed_phrase length temperature w1 Hc) as (text & w2 & G).
    exists text, w2. split; [exact G|].
    split; [rewrite T, run_bind, G; reflexivity|].
    rewrite S1, run_bind, G. reflexivity.
Qed.

(** ** The report of the quality analysis *)






Lemma sum_from (f : string -> nat) samples acc :
  foldl (fun acc s => acc + Z.of_nat (f s)) acc samples
  = acc + Z.of_nat (list_sum (map f samples)).
Proof.
  revert acc. induction samples as [|s r IH]; intros acc; cbn [foldl map].
  - cbn. lia.
  - rewrite IH.
    change (list_sum (f s :: map f r)) with (f s + list_sum (map f r))%nat.
    lia.
Qed.

Lemma total_length_sum samples :
  total_length samples = Z.of_nat (list_sum (map String.length samples)).
Proof. unfold total_length. rewrite sum_from. lia. Qed.



Lemma print_lines {A} (line : A -> string) items w :
  for_ items (fun item _ => print (line item)) tt w
  = (Ok tt,
     mkWorld (stdin w) (rng w)
       (trace w ++ map (fun item => Write (line item +:+ Py.nl)) items)).
Proof.
  revert w. induction items as [|x r IH]; intros w.
  - run. cbn [map]. rewrite app_nil_r. destruct w; reflexivity.
  - run. rewrite IH. cbn [stdin rng trace map]. rewrite <- app_assoc. reflexivity.
Qed.

Lemma invocations_write s evs : invocations (Write s :: evs) = invocations evs.
Proof. reflexivity. Qed.

Lemma draw_samples_from model character_to_num num_to_character phrase k a acc w :
  covers num_to_character ->
  exists texts w',
    for_ (seq a k)
      (fun i samples =>
         print (Py.nl +:+ "Sample " +:+ pretty (Z.of_nat i + 1) +:+ ":");;
         text ← generate_text_with_seed model character_to_num num_to_character
                  phrase 100 temp_0_8;
         mret (samples ++ [text])) acc w
    = (Ok (acc ++ texts), w')
    /\ List.length texts = k
    /\ stdin w' = stdin w
    /\ exists evs,
         trace w' = trace w ++ evs
         /\ invocations evs = replicate k (phrase, 100, temp_0_8).
Proof.
  intros Hc. revert a acc w. induction k as [|k IH]; intros a acc w.
  - exists [], w. cbn [seq]. run. rewrite !app_nil_r.
    split; [reflexivity|]. split; [reflexivity|]. split; [reflexivity|].
    exists []. rewrite app_nil_r. split; reflexivity.
  - cbn [seq]. run.
    match goal with |- context [generate_text_with_seed _ _ _ _ _ _ ?w1] =>
      destruct (generate_returns model character_to_num num_to_character
                  phrase 100 temp_0_8 w1 Hc) as (text & w2 & G);
      assert (Ev := generate_events model character_to_num num_to_character
                      phrase 100 temp_0_8 w1);
      rewrite G in *
    end.
    cbv zeta in Ev. cbn [fst snd stdin trace] in Ev.
    destruct Ev as (_ & I2 & evs2 & T2 & All2).
    run.
    destruct (IH (S a) (acc ++ [text]) w2) as (texts & w' & E & L & I & evs & T & Inv).
    exists (text :: texts), w'. rewrite E, <- app_assoc.
    split; [reflexivity|]. split; [cbn; lia|]. split; [congruence|].
    rewrite T2, <- !app_assoc in T.
    eexists. split; [exact T|].
    cbn [app]. rewrite invocations_write.
    change (invocations (Invoke ?s ?n ?t :: ?l)) with ((s, n, t) :: invocations l).
    rewrite invocations_app, (invocations_none _ All2), Inv. reflexivity.
Qed.

Lemma analyze_phrase_run model character_to_num num_to_character
    num_samples phrase w :
  covers num_to_character -> 0 < num_samples ->
  exists samples w1,
    draw_samples model character_to_num num_to_character phrase num_samples
      (mkWorld (stdin w) (rng w) (trace w ++ analysis_heading phrase))
    = (Ok samples, w1)
    /\ List.length samples = Z.to_nat num_samples
    /\ stdin w1 = stdin w
    /\ (exists evs,
          trace w1 = trace w ++ evs /\
          invocations evs
          = replicate (Z.to_nat num_samples) (phrase, 100, temp_0_8))
    /\ analyze_phrase model character_to_num num_to_character
         num_samples phrase w
       = (Ok tt,
          mkWorld (stdin w1) (rng w1)
            (trace w1
             ++ analysis_report
                  (format_mean (total_length samples) num_samples)
                  (sorted_desc (word_counts samples)))).
Proof.
  intros Hc Hn. unfold draw_samples, range.
  destruct (draw_samples_from model character_to_num num_to_character phrase
              (Z.to_nat num_samples) 0 []
              (mkWorld (stdin w) (rng w) (trace w ++ analysis_heading phrase)) Hc)
    as (samples & w1 & E & L & I & evs & T & Inv).
  cbn [app] in E. exists samples, w1.
  split; [exact E|]. split; [exact L|]. split; [exact I|]. split.
  - exists (analysis_heading phrase ++ evs). cbn [trace] in T.
    rewrite T, <- app_assoc. split; [reflexivity|].
    rewrite invocations_app, Inv. reflexivity.
  - unfold analyze_phrase. run. unfold draw_samples, range.
    rewrite <- app_assoc. change ([?a] ++ [?b]) with [a; b].
    fold (analysis_heading phrase). rewrite E. cbv beta iota.
    rewrite run_bind. unfold mean_text.
    rewrite L, Z2Nat.id by lia.
    destruct (num_samples =? 0) eqn:E0; [lia|]. run.
    rewrite print_lines. cbn [stdin rng trace].
    unfold analysis_report. rewrite <- !app_assoc. reflexivity.
Qed.

(** Without a sample there is no mean: the analysis stops at the first
    phrase, on the division. *)
Lemma analysis_without_samples model character_to_num num_to_character
    num_samples phrase w :
  num_samples <= 0 ->
  analyze_phrase model character_to_num num_to_character num_samples phrase w
  = (Raise ZeroDivisionError,
     mkWorld (stdin w) (rng w) (trace w ++ analysis_heading phrase)).
Proof.
  intros Hn. unfold analyze_phrase, draw_samples, range. run.
  replace (Z.to_nat num_samples) with O by lia. cbn [seq]. run.
  unfold mean_text. cbn [length Z.of_nat Z.eqb]. run.
  rewrite <- app_assoc. reflexivity.
Qed.


(** ** The validating sampler *)

Lemma for_ext {A St} (xs : list A) (body body' : A -> St -> M St) :
  (forall x s w, body x s w = body' x s w) ->
  forall s w, for_ xs body s w = for_ xs body' s w.
Proof.
  intros E. induction xs as [|x xs IH]; intros s w; [reflexivity|].
  rewrite !run_for_cons, !run_bind, E.
  destruct (body' x s w) as [[s'| e |] w']; [apply IH|reflexivity|reflexivity].
Qed.

Section Checked.

Variable refuses : Tensor -> bool.
Variables (model : Model).
Variables (character_to_num : gmap ascii Z) (num_to_character : gmap Z ascii).

Local Abbreviation step_checked :=
  (decode_step_checked refuses model num_to_character).
Local Abbreviation generate_checked :=
  (generate_text_with_seed_checked refuses model character_to_num
     num_to_character).
Local Abbreviation turn_checked :=
  (session_turn_checked refuses model character_to_num num_to_character).

(** A sampler that refuses nothing is the sampler of the engine. *)
Lemma checked_without_refusal seed_phrase length temperature w :
  (forall probs, refuses probs = false) ->
  generate_checked seed_phrase length temperature w
  = generate_text_with_seed model character_to_num num_to_character
      seed_phrase length temperature w.
Proof.
  intros R. unfold generate_text_with_seed_checked, generate_text_with_seed.
  run. rewrite seed_to_indices_run.
  destruct (known_ids character_to_num seed_phrase) as [|t ts]; [reflexivity|].
  run. rewrite warm_up_run. cbn [stdin rng trace].
  rewrite !run_bind.
  rewrite (for_ext _ (fun _ => step_checked temperature)
             (fun _ => decode_step model num_to_character temperature));
    [reflexivity|].
  intros _ [[cur h] text] w'. unfold decode_step_checked, decode_step.
  rewrite !run_bind. destruct (call_model model cur h w') as [[[out h1]| e |] w1];
    [|reflexivity|reflexivity].
  cbv beta iota. rewrite !run_bind.
  destruct (torch_div out temperature w1) as [[out'| e |] w2];
    [|reflexivity|reflexivity].
  rewrite !run_bind.
  destruct (torch_softmax out' w2) as [[probs| e |] w3];
    [|reflexivity|reflexivity].
  unfold torch_sample_checked. rewrite R. reflexivity.
Qed.

Lemma quiet_sample_checked (P : event -> Prop) probs :
  (forall k, P (Sample probs k)) -> quiet P (torch_sample_checked refuses probs).
Proof.
  intros HP. unfold torch_sample_checked.
  destruct (refuses probs); [apply quiet_raise | apply quiet_sample; exact HP].
Qed.

Lemma quiet_decode_step_checked temperature st :
  quiet no_invoke (step_checked temperature st).
Proof.
  destruct st as [[cur h] text]. unfold decode_step_checked.
  apply quiet_bind; [apply quiet_call_model|]. intros [output h'].
  unfold torch_div, torch_softmax, write.
  repeat first [ apply quiet_sample_checked; intros; exact I | quiet_step ].
Qed.

Lemma generate_checked_events seed_phrase length temperature w :
  let r := generate_checked seed_phrase length temperature w in
  r.1 <> OutOfFuel /\ stdin r.2 = stdin w /\
  exists evs,
    trace r.2 = trace w ++ Invoke seed_phrase length temperature :: evs /\
    Forall no_invoke evs.
Proof.
  cbv zeta. unfold generate_text_with_seed_checked. rewrite run_bind, run_emit.
  cbv beta iota.
  set (w1 := mkWorld _ _ _).
  match goal with |- context [?c w1] =>
    assert (Q : quiet no_invoke c) end.
  { apply quiet_bind; [apply quiet_emit; exact I|]. intros _.
    apply quiet_bind; [apply quiet_seed_to_indices|]. intros [|t ts].
    - unfold print. repeat quiet_step.
    - unfold print, write.
      do 3 (apply quiet_bind; [apply quiet_emit; exact I|]; intros _).
      apply quiet_bind; [apply quiet_warm_up|]. intros h.
      apply quiet_bind.
      + apply quiet_for. intros. apply quiet_decode_step_checked.
      + intros [[? ?] ?]. repeat quiet_step. }
  destruct (Q w1) as (F & I & evs & T & All).
  split; [exact F|]. split; [exact I|].
  exists evs. rewrite T. subst w1. cbn [trace].
  rewrite <- app_assoc. auto.
Qed.

Lemma generate_checked_empty seed_phrase length temperature w :
  known_ids character_to_num seed_phrase = [] ->
  generate_checked seed_phrase length temperature w
  = generate_text_with_seed model character_to_num num_to_character
      seed_phrase length temperature w.
Proof.
  intros E. unfold generate_text_with_seed_checked, generate_text_with_seed.
  run. rewrite seed_to_indices_run, E. reflexivity.
Qed.

Lemma generate_checked_warm seed_phrase length temperature w :
  known_ids character_to_num seed_phrase <> [] ->
  let seed_indices := known_ids character_to_num seed_phrase in
  generate_checked seed_phrase length temperature w
  = ('(_, _, generated_text) ←
       for_ (range length) (fun _ => step_checked temperature)
         (default 0 (last seed_indices),
          warm_state model seed_indices, seed_phrase);
     print separator;;
     mret generated_text)
      (mkWorld (stdin w) (rng w)
         (trace w
          ++ preamble character_to_num seed_phrase length temperature
          ++ map step_event (chain model (removelast seed_indices) None))).
Proof.
  intros NE seed_indices. unfold generate_text_with_seed_checked. run.
  rewrite seed_to_indices_run. fold seed_indices.
  destruct seed_indices as [|t ts] eqn:Et; [contradiction|]. run.
  rewrite warm_up_run. cbn [stdin rng trace].
  unfold preamble. rewrite <- !app_assoc. reflexivity.
Qed.

(** A refusal of the first probabilities ends the loop in its first turn,
    after the division and the softmax. *)
Lemma decode_checked_refused temperature n a cur h text w :
  refuses (softmax (div_temperature (model cur h).1 temperature)) = true ->
  for_ (seq a (S n)) (fun _ => step_checked temperature) (cur, h, text) w
  = (Raise ValueError,
     mkWorld (stdin w) (rng w)
       (trace w ++ [Step cur h; Div (model cur h).1 temperature;
                    Softmax (div_temperature (model cur h).1 temperature)])).
Proof.
  intros R. cbn [seq]. run. unfold decode_step_checked at 1, call_model. run.
  destruct (model cur h) as [out h1] eqn:Em. cbn [fst snd] in *.
  unfold torch_div, torch_softmax. run. unfold torch_sample_checked.
  rewrite R. run. rewrite <- !app_assoc. reflexivity.
Qed.

(** What the loop leaves in the trace, and why it stops when it does. *)
Lemma decode_checked_loop temperature n a cur h text w :
  let r := for_ (seq a n) (fun _ => step_checked temperature) (cur, h, text) w in
  exists evs,
    trace r.2 = trace w ++ evs
    /\ Forall (fun d => d.2 = temperature) (divisions evs)
    /\ (n <> O ->
        exists after, evs = Step cur h :: Div (model cur h).1 temperature :: after)
    /\ (r.1 = Raise KeyError ->
        exists before probs k,
          evs = before ++ [Sample probs k] /\ num_to_character !! k = None)
    /\ (r.1 = Raise ValueError ->
        exists before output,
          evs = before ++ [Div output temperature;
                           Softmax (div_temperature output temperature)]
          /\ refuses (softmax (div_temperature output temperature)) = true).
Proof.
  cbv zeta. revert a cur h text w.
  induction n as [|n IH]; intros a cur h text w;
    remember (for_ _ _ _ w) as r eqn:Er; symmetry in Er; revert Er.
  - cbn [seq]. run. intros <-. exists []. cbn [fst snd]. rewrite app_nil_r.
    split; [reflexivity|]. split; [constructor|].
    split; [congruence|]. split; discriminate.
  - cbn [seq]. run. unfold decode_step_checked at 1, call_model. run.
    destruct (model cur h) as [out h1] eqn:Em. cbn [fst snd] in *.
    unfold torch_div, torch_softmax. run. unfold torch_sample_checked.
    destruct (refuses _) eqn:R.
    + run. rewrite <- !app_assoc. cbn [app]. intros <-. cbn [fst snd trace].
      exists [Step cur h; Div out temperature;
              Softmax (div_temperature out temperature)].
      split; [reflexivity|]. split; [repeat constructor|].
      split; [intros _; eexists; reflexivity|].
      split; [discriminate|].
      intros _. exists [Step cur h], out. split; [reflexivity|exact R].
    + run. destruct (num_to_character !! _) as [c|] eqn:Ec.
      * run.
        match goal with |- for_ _ _ (?k, ?h', ?t') ?w1 = _ -> _ =>
          set (W := w1);
          assert (TW : trace W = trace w ++ [Step cur h; Div out temperature;
                     Softmax (div_temperature out temperature);
                     Sample (softmax (div_temperature out temperature)) k;
                     Write (Py.chr c)])
            by (subst W; cbn [trace]; rewrite <- !app_assoc; reflexivity);
          destruct (IH (S a) k h' t' W) as (evs & T & D & _ & K & V)
        end.
        rewrite TW, <- app_assoc in T. cbn [app] in T.
        intros <-.
        eexists. split; [exact T|].
        split; [constructor; [reflexivity|exact D]|].
        split; [intros _; eexists; reflexivity|].
        split.
        -- intros E. destruct (K E) as (before & probs & k & -> & Hk).
           eexists (_ :: _ :: _ :: _ :: _ :: before), probs, k.
           split; [reflexivity|exact Hk].
        -- intros E. destruct (V E) as (before & output & -> & Hr).
           eexists (_ :: _ :: _ :: _ :: _ :: before), output.
           split; [reflexivity|exact Hr].
      * rewrite <- !app_assoc. cbn [app]. intros <-. cbn [fst snd trace].
        eexists. split; [reflexivity|].
        split; [repeat constructor|].
        split; [intros _; eexists; reflexivity|].
        split; [|discriminate].
        intros _. eexists [_; _; _], _, _. split; [reflexivity|exact Ec].
Qed.

(** The same for the engine, once the seed has a known character. *)
Lemma generate_checked_run seed_phrase length temperature w :
  known_ids character_to_num seed_phrase <> [] ->
  let seed_indices := known_ids character_to_num seed_phrase in
  let r := generate_checked seed_phrase length temperature w in
  exists evs,
    new_events w r.2
    = preamble character_to_num seed_phrase length temperature
      ++ map step_event (chain model (removelast seed_indices) None)
      ++ evs
    /\ Forall (fun d => d.2 = temperature) (divisions evs)
    /\ (0 < length ->
        exists after,
          evs = Step (default 0 (last seed_indices)) (warm_state model seed_indices)
                :: Div (model (default 0 (last seed_indices))
                          (warm_state model seed_indices)).1 temperature
                :: after)
    /\ (r.1 = Raise KeyError ->
        exists before probs k,
          evs = before ++ [Sample probs k] /\ num_to_character !! k = None)
    /\ (r.1 = Raise ValueError ->
        exists before output,
          evs = before ++ [Div output temperature;
                           Softmax (div_temperature output temperature)]
          /\ refuses (softmax (div_temperature output temperature)) = true).
Proof.
  intros NE seed_indices. cbv zeta. rewrite generate_checked_warm by exact NE.
  fold seed_indices. rewrite run_bind. unfold range.
  match goal with |- context [for_ _ _ (?k, ?h', ?t') ?w1] =>
    destruct (decode_checked_loop temperature (Z.to_nat length) 0 k h' t' w1)
      as (evs & T & D & F & K & V)
  end.
  cbn [trace] in T. rewrite <- !app_assoc in T.
  destruct (for_ _ _ _ _) as [[[[cur' h'] text']| e |] w'];
    cbn [fst snd] in *.
  - run. exists (evs ++ [Write (separator +:+ Py.nl)]).
    split; [apply new_events_app; cbn [trace]; rewrite T, <- !app_assoc;
            reflexivity|].
    split; [rewrite divisions_app; cbn; rewrite app_nil_r; exact D|].
    split; [|split; discriminate].
    intros Hl. destruct F as (after & ->); [lia|]. eexists. reflexivity.
  - exists evs. split; [apply new_events_app; exact T|].
    split; [exact D|]. split; [intros Hl; apply F; lia|].
    split; intros [= ->]; [apply K|apply V]; reflexivity.
  - exists evs. split; [apply new_events_app; exact T|].
    split; [exact D|]. split; [|split; discriminate].
    intros Hl. apply F. lia.
Qed.

(** Unless the sampler refuses, a validated run is the run of the engine
    with the plain sampler. *)
Lemma step_checked_run temperature cur h text w :
  step_checked temperature (cur, h, text) w
  = if refuses (softmax (div_temperature (model cur h).1 temperature))
    then (Raise ValueError,
          mkWorld (stdin w) (rng w)
            (trace w ++ [Step cur h; Div (model cur h).1 temperature;
                         Softmax (div_temperature (model cur h).1 temperature)]))
    else decode_step model num_to_character temperature (cur, h, text) w.
Proof.
  unfold decode_step_checked, decode_step, call_model. run.
  destruct (model cur h) as [out h1] eqn:Em. cbn [fst snd] in *.
  unfold torch_div, torch_softmax. run. unfold torch_sample_checked.
  destruct (refuses _); run; [|reflexivity].
  rewrite <- !app_assoc. reflexivity.
Qed.

Lemma decode_checked_agrees temperature n a cur h text w :
  (for_ (seq a n) (fun _ => step_checked temperature) (cur, h, text) w).1
  <> Raise ValueError ->
  for_ (seq a n) (fun _ => step_checked temperature) (cur, h, text) w
  = for_ (seq a n) (fun _ => decode_step model num_to_character temperature)
      (cur, h, text) w.
Proof.
  revert a cur h text w.
  induction n as [|n IH]; intros a cur h text w NV; [reflexivity|].
  cbn [seq] in *. rewrite run_for_cons, run_bind, step_checked_run in NV.
  rewrite !run_for_cons, !run_bind, step_checked_run.
  destruct (refuses _); [contradiction NV; reflexivity|].
  destruct (decode_step _ _ _ _ w) as [[[[cur' h'] text']| e |] w'];
    [apply IH; exact NV|reflexivity|reflexivity].
Qed.

Lemma generate_checked_agrees seed_phrase length temperature w :
  (generate_checked seed_phrase length temperature w).1 <> Raise ValueError ->
  generate_checked seed_phrase length temperature w
  = generate_text_with_seed model character_to_num num_to_character
      seed_phrase length temperature w.
Proof.
  destruct (known_ids character_to_num seed_phrase) as [|t ts] eqn:Ek.
  { intros _. apply generate_checked_empty. exact Ek. }
  assert (NE : known_ids character_to_num seed_phrase <> []) by congruence.
  rewrite generate_checked_warm, generate_warm by exact NE.
  rewrite !run_bind. unfold range. intros NV.
  rewrite decode_checked_agrees; [reflexivity|].
  intros E. apply NV.
  destruct (for_ _ (fun _ => step_checked temperature) _ _) as [[st| e |] w'];
    cbn [fst] in E; try discriminate E.
  injection E as ->. reflexivity.
Qed.

(** A turn of the session whose two lines parse: the call of the engine
    is inside the [try], so a refusal of the sampler is handled like a
    line that does not parse. *)
Lemma turn_checked_parsed w line l t rest n temperature :
  stdin w = line :: l :: t :: rest ->
  String.eqb (Py.lower (Py.strip line)) "quit" = false ->
  Py.truthy (Py.strip line) = true ->
  Py.int (Py.or_else l "150") = Some n ->
  float_of_str (Py.or_else t "0.8") = Some temperature ->
  let w1 := mkWorld rest (rng w)
              (trace w ++ [Write seed_prompt; Write length_prompt;
                           Write temperature_prompt]) in
  turn_checked w
  = match generate_checked (Py.strip line) n temperature w1 with
    | (Raise ValueError, w2) =>
        (generate_checked (Py.strip line) 150 temp_0_8;; mret Next)
          (mkWorld (stdin w2) (rng w2) (trace w2 ++ [Write notice]))
    | (Raise e, w2) => (Raise e, w2)
    | (Ok _, w2) => (Ok Next, w2)
    | (OutOfFuel, w2) => (OutOfFuel, w2)
    end.
Proof.
  intros Ein Eq Et Ei Ef w1. unfold session_turn_checked.
  rewrite run_bind. unfold input at 1.
  rewrite Ein. cbv beta iota zeta. rewrite Eq, Et.
  rewrite run_bind. unfold try_except_ValueError.
  rewrite run_bind. unfold input at 1. cbn [stdin tail rng trace].
  cbv beta iota. rewrite run_bind. unfold parse_int. rewrite Ei, run_ret.
  cbv beta iota. rewrite run_bind. unfold input at 1. cbn [stdin tail rng trace].
  cbv beta iota. rewrite run_bind. unfold parse_float. rewrite Ef, run_ret.
  cbv beta iota. rewrite <- !app_assoc. cbn [app].
  rewrite !run_bind. fold seed_prompt length_prompt temperature_prompt. fold w1.
  destruct (generate_checked (Py.strip line) n temperature w1)
    as [[text| [] |] w2]; run; try reflexivity.
  unfold notice.
  destruct (generate_checked _ _ _ _) as [[text| e |] w3]; reflexivity.
Qed.

End Checked.

(** * The claims *)

Section Claims.

Variables (model : Model).
Variables (character_to_num : gmap ascii Z) (num_to_character : gmap Z ascii).

Local Abbreviation generate :=
  (generate_text_with_seed model character_to_num num_to_character).
Local Abbreviation turn :=
  (session_turn model character_to_num num_to_character).
Local Abbreviation run_session :=
  (session model character_to_num num_to_character).
Local Abbreviation each_phrase :=
  (for_each_phrase model character_to_num num_to_character).

(** C1.  A seed none of whose characters is in the vocabulary makes
    the engine return the empty string after one warning per character
    and the error line; nothing else happens: no call of the network,
    no draw, the generator is untouched.  The caller goes on: a batch
    driver with its next phrase, the session with its next prompt. *)
Theorem empty_seed_is_reported seed_phrase length temperature w :
  known_ids character_to_num seed_phrase = [] ->
  let said :=
    [Invoke seed_phrase length temperature; Eval]
    ++ map (fun c => Write (warning c +:+ Py.nl))
           (list_ascii_of_string seed_phrase)
    ++ [Write empty_seed_error] in
  let after w := mkWorld (stdin w) (rng w) (trace w ++ said) in
  generate seed_phrase length temperature w = (Ok EmptyString, after w)
  /\ steps said = [] /\ divisions said = []
  /\ (forall phrases,
        each_phrase (seed_phrase :: phrases) length temperature w
        = each_phrase phrases length temperature (after w))
  /\ (forall ws line l t rest,
        stdin ws = line :: l :: t :: rest ->
        Py.strip line = seed_phrase ->
        Py.truthy seed_phrase = true ->
        String.eqb (Py.lower seed_phrase) "quit" = false ->
        Py.int (Py.or_else l "150") = Some length ->
        float_of_str (Py.or_else t "0.8") = Some temperature ->
        run_session ws
        = run_session
            (after (mkWorld rest (rng ws)
                      (trace ws ++ [Write seed_prompt; Write length_prompt;
                                    Write temperature_prompt])))).
Proof.
  intros E said after.
  assert (G : forall w0, generate seed_phrase length temperature w0
                         = (Ok EmptyString, after w0)).
  { intros w0. apply generate_empty, E. }
  split; [apply G|].
  split; [unfold said; rewrite !steps_app, steps_writes; reflexivity|].
  split; [unfold said; rewrite !divisions_app, divisions_writes; reflexivity|].
  split.
  - intros phrases. unfold for_each_phrase. rewrite run_for_cons, !run_bind, G.
    reflexivity.
  - intros ws line l t rest Ein Es Et Eq Ei Ef. subst seed_phrase.
    erewrite session_after; [|eapply turn_parsed; eauto].
    rewrite run_bind, G. reflexivity.
Qed.

(** C2.  With at least one seed character in the vocabulary, whatever
    the engine returns starts with the seed phrase as it was given,
    skipped characters included; and it does return when every id that
    can be drawn has a character. *)
Theorem result_starts_with_seed seed_phrase length temperature w :
  known_ids character_to_num seed_phrase <> [] ->
  (forall text,
     (generate seed_phrase length temperature w).1 = Ok text ->
     String.prefix seed_phrase text = true /\
     exists continuation, text = seed_phrase +:+ continuation)
  /\ (covers num_to_character ->
      exists text, (generate seed_phrase length temperature w).1 = Ok text).
Proof.
  intros NE.
  destruct (spec_decode model num_to_character temperature (Z.to_nat length)
              (default 0 (last (known_ids character_to_num seed_phrase)))
              (warm_state model (known_ids character_to_num seed_phrase))
              (rng w)) as [[[evs cs] g']|] eqn:E.
  - rewrite (generate_some _ _ _ _ _ _ _ _ _ _ NE E). cbn [fst]. split.
    + intros text [= <-]. split; [apply prefix_append|]. eauto.
    + eauto.
  - destruct (generate_none _ _ _ _ _ _ _ NE E) as (w' & ->). cbn [fst]. split.
    + intros text [=].
    + intros Hc.
      destruct (spec_decode_covers model num_to_character temperature
                  (Z.to_nat length)
                  (default 0 (last (known_ids character_to_num seed_phrase)))
                  (warm_state model (known_ids character_to_num seed_phrase))
                  (rng w) Hc) as [x Ex].
      congruence.
Qed.


(** C4.  For a seed with [n >= 1] known characters the engine, before
    any decoding, calls the network exactly [n - 1] times: on the seed
    tokens but the last, in order, the first call from the null state
    and each later call from the state the previous call returned.
    The scores of these calls are not used (no division, no draw, and
    only the last state is kept).  Decoding then starts from the last
    seed token and that last state. *)
Theorem warm_up_replays_seed seed_phrase length temperature w :
  known_ids character_to_num seed_phrase <> [] ->
  let seed_indices := known_ids character_to_num seed_phrase in
  let warm := chain model (removelast seed_indices) None in
  let before := preamble character_to_num seed_phrase length temperature in
  let last_token := default 0 (last seed_indices) in
  let r := generate seed_phrase length temperature w in
  r = ('(_, _, generated_text) ←
         for_ (range length)
           (fun _ => decode_step model num_to_character temperature)
           (last_token, warm_state model seed_indices, seed_phrase);
       print separator;;
       mret generated_text)
        (mkWorld (stdin w) (rng w)
           (trace w ++ before ++ map step_event warm))
  /\ steps before = []
  /\ divisions (before ++ map step_event warm) = []
  /\ List.length warm = (List.length seed_indices - 1)%nat
  /\ map fst warm = removelast seed_indices
  /\ (forall t h, warm !! O = Some (t, h) -> h = None)
  /\ (forall i t1 h1 t2 h2,
        warm !! i = Some (t1, h1) -> warm !! S i = Some (t2, h2) ->
        h2 = Some (model t1 h1).2)
  /\ warm_state model seed_indices
     = match last warm with
       | Some (t, h) => Some (model t h).2
       | None => None
       end
  /\ last seed_indices = Some last_token
  /\ (0 < length ->
      exists evs,
        new_events w r.2
        = before ++ map step_event warm
          ++ Step last_token (warm_state model seed_indices) :: evs)
  /\ (length <= 0 -> steps (new_events w r.2) = warm).
Proof.
  intros NE seed_indices warm before last_token r.
  assert (R := generate_warm model character_to_num num_to_character
                 seed_phrase length temperature w NE).
  cbv zeta in R. fold seed_indices warm before last_token r in R.
  split; [exact R|].
  split; [apply steps_preamble|].
  split; [rewrite divisions_app; unfold before;
          rewrite divisions_preamble, divisions_step_events; reflexivity|].
  split; [unfold warm; rewrite chain_length, removelast_take, length_take; lia|].
  split; [apply chain_tokens|].
  split; [intros t h; apply chain_first|].
  split; [intros i t1 h1 t2 h2; apply chain_linked|].
  split; [apply run_state_last|].
  split.
  { unfold last_token. destruct (last seed_indices) eqn:El; [reflexivity|].
    apply last_None in El. contradiction. }
  split.
  - intros Hl. rewrite R. unfold range.
    destruct (Z.to_nat length) as [|n] eqn:En; [lia|].
    match goal with |- context [(for_ _ _ ?st ≫= ?k) ?w1] =>
      destruct (decode_first model num_to_character temperature n 0
                  last_token (warm_state model seed_indices) seed_phrase k w1)
        as (evs & T)
    end.
    { intros [[? ?] ?]. unfold print.
      apply quiet_bind; [apply quiet_emit; exact I|]. intros. apply quiet_ret. }
    exists (Div (model last_token (warm_state model seed_indices)).1 temperature
              :: evs).
    apply new_events_app. rewrite T. cbn [trace].
    rewrite <- !app_assoc. reflexivity.
  - intros Hl. subst r.
    rewrite (generate_some model character_to_num num_to_character
               seed_phrase length temperature w [] EmptyString (rng w) NE).
    + cbn [snd]. erewrite new_events_app by reflexivity.
      fold seed_indices warm before.
      rewrite !steps_app. unfold before. rewrite steps_preamble, steps_step_events.
      cbn. apply app_nil_r.
    + replace (Z.to_nat length) with O by lia. reflexivity.
Qed.


(** C6.  Nothing in the engine looks at the temperature before
    dividing by it: for every temperature, zero and negative ones
    included, a request with a known seed character and a positive
    length reaches the division of the first scores by that
    temperature, and no division precedes it.  This is so whatever the
    sampler accepts, and every division of a run, complete or not, is
    by the temperature of the request.  What can stop a run after that
    first division is the sampler, not the engine: when it refuses the
    probabilities that the division leaves, the run ends there with
    [ValueError], nothing drawn and nothing more written. *)
Theorem division_is_unguarded refuses seed_phrase length temperature w :
  known_ids character_to_num seed_phrase <> [] ->
  0 < length ->
  let seed_indices := known_ids character_to_num seed_phrase in
  let scores :=
    (model (default 0 (last seed_indices)) (warm_state model seed_indices)).1 in
  let r := generate seed_phrase length temperature w in
  let r' := generate_text_with_seed_checked refuses model character_to_num
              num_to_character seed_phrase length temperature w in
  (exists before after,
     new_events w r.2 = before ++ Div scores temperature :: after
     /\ divisions before = [])
  /\ (exists before after,
        new_events w r'.2 = before ++ Div scores temperature :: after
        /\ divisions before = [])
  /\ Forall (fun d => d.2 = temperature) (divisions (new_events w r'.2))
  /\ (refuses (softmax (div_temperature scores temperature)) = true ->
      r' = (Raise ValueError,
            mkWorld (stdin w) (rng w)
              (trace w
               ++ preamble character_to_num seed_phrase length temperature
               ++ map step_event (chain model (removelast seed_indices) None)
               ++ [Step (default 0 (last seed_indices))
                     (warm_state model seed_indices);
                   Div scores temperature;
                   Softmax (div_temperature scores temperature)]))).
Proof.
  intros NE Hl seed_indices scores r r'. split.
  - subst r. rewrite generate_warm by exact NE. fold seed_indices. unfold range.
    destruct (Z.to_nat length) as [|n] eqn:En; [lia|].
    match goal with |- context [(for_ _ _ ?st ≫= ?k) ?w1] =>
      destruct (decode_first model num_to_character temperature n 0
                  (default 0 (last seed_indices))
                  (warm_state model seed_indices) seed_phrase k w1)
        as (evs & T)
    end.
    { intros [[? ?] ?]. unfold print.
      apply quiet_bind; [apply quiet_emit; exact I|]. intros. apply quiet_ret. }
    cbn [trace] in T. rewrite <- !app_assoc in T.
    exists (preamble character_to_num seed_phrase length temperature
            ++ map step_event (chain model (removelast seed_indices) None)
            ++ [Step (default 0 (last seed_indices))
                  (warm_state model seed_indices)]), evs.
    split.
    + apply new_events_app. rewrite T, <- !app_assoc. reflexivity.
    + rewrite !divisions_app, divisions_preamble, divisions_step_events.
      reflexivity.
  - destruct (generate_checked_run refuses model character_to_num
                num_to_character seed_phrase length temperature w NE)
      as (evs & T & D & F & _ & _).
    fold seed_indices r' in T. fold seed_indices scores in F.
    destruct (F Hl) as (after & ->). split; [|split].
    + exists (preamble character_to_num seed_phrase length temperature
              ++ map step_event (chain model (removelast seed_indices) None)
              ++ [Step (default 0 (last seed_indices))
                    (warm_state model seed_indices)]), after.
      split.
      * rewrite T, <- !app_assoc. reflexivity.
      * rewrite !divisions_app, divisions_preamble, divisions_step_events.
        reflexivity.
    + rewrite T, !divisions_app, divisions_preamble, divisions_step_events.
      exact D.
    + intros R. subst r'. rewrite generate_checked_warm by exact NE.
      fold seed_indices. rewrite run_bind. unfold range.
      destruct (Z.to_nat length) as [|n] eqn:En; [lia|].
      rewrite (decode_checked_refused refuses model num_to_character) by exact R.
      cbn [stdin rng trace]. rewrite <- !app_assoc. reflexivity.
Qed.

(** C10.  The session never calls the engine with an empty seed.  A
    line that is empty once stripped is skipped: the turn writes
    nothing after the prompt that read it, reads neither length nor
    temperature, calls nothing, and the session goes on with the next
    prompt. *)
Theorem session_never_sends_empty_seed w :
  Forall nonempty_seed (new_events w (run_session w).2)
  /\ Forall nonempty_seed
       (new_events w
          (interactive_generation model character_to_num num_to_character w).2)
  /\ (forall line rest,
        stdin w = line :: rest -> Py.strip line = EmptyString ->
        let w' := mkWorld rest (rng w) (trace w ++ [Write seed_prompt]) in
        turn w = (Ok Next, w') /\ run_session w = run_session w').
Proof.
  split; [apply emits_new_events, emits_session|].
  split.
  - apply emits_new_events. unfold interactive_generation.
    do 3 (apply emits_bind; [apply emits_print; intros; exact I|]; intros _).
    apply emits_session.
  - intros line rest Ein Es w'.
    assert (T := turn_skip model character_to_num num_to_character w line rest Ein Es).
    split; [exact T|].
    rewrite session_unfold, run_bind, T. reflexivity.
Qed.

(** C8.  In the session, when the length read does not parse as an
    integer, or the length does and the temperature read does not
    parse as a float, the turn writes the notice and calls the engine
    once, for the seed that was entered, with length 150 and
    temperature 0.8; when that call returns, the turn is over and the
    session goes on with the next prompt.  The length [abc] does not
    parse. *)
Theorem malformed_input_uses_defaults w line l rest :
  stdin w = line :: l :: rest ->
  let seed := Py.strip line in
  String.eqb (Py.lower seed) "quit" = false ->
  Py.truthy seed = true ->
  let falls_back (w1 : World) : Prop :=
    turn w = (generate seed 150 temp_0_8;; mret Next) w1
    /\ run_session w = (generate seed 150 temp_0_8;; run_session) w1
    /\ invocations (new_events w (turn w).2) = [(seed, 150, temp_0_8)]
    /\ (covers num_to_character ->
        exists text w2,
          generate seed 150 temp_0_8 w1 = (Ok text, w2)
          /\ turn w = (Ok Next, w2)
          /\ run_session w = run_session w2) in
  (Py.int (Py.or_else l "150") = None ->
   falls_back
     (mkWorld rest (rng w)
        (trace w ++ [Write seed_prompt; Write length_prompt; Write notice])))
  /\ (forall n t rest',
        rest = t :: rest' ->
        Py.int (Py.or_else l "150") = Some n ->
        float_of_str (Py.or_else t "0.8") = None ->
        falls_back
          (mkWorld rest' (rng w)
             (trace w ++ [Write seed_prompt; Write length_prompt;
                          Write temperature_prompt; Write notice])))
  /\ (l = "abc" -> Py.int (Py.or_else l "150") = None).
Proof.
  intros Ein seed Eq Et falls_back. split; [|split].
  - intros Ei.
    assert (T := turn_bad_length model character_to_num num_to_character
                   w line l rest Ein Eq Et Ei).
    split; [exact T|].
    eapply after_turn; [exact T|reflexivity|reflexivity].
  - intros n t rest' -> Ei Ef.
    assert (T := turn_bad_temperature model character_to_num num_to_character
                   w line l t rest' n Ein Eq Et Ei Ef).
    split; [exact T|].
    eapply after_turn; [exact T|reflexivity|reflexivity].
  - intros ->. reflexivity.
Qed.


End Claims.

(** * Beyond the claims *)

(** ** Computations that return and call the engine a known number of times *)

Lemma performs_ret {A} (a : A) : performs (mret a : M A) [].
Proof.
  intros w. exists a, w. split; [reflexivity|]. split; [reflexivity|].
  exists []. rewrite app_nil_r. auto.
Qed.

Lemma performs_print s : performs (print s) [].
Proof.
  intros w. eexists tt, _. split; [reflexivity|]. split; [reflexivity|].
  eexists. split; reflexivity.
Qed.

Lemma performs_bind {A B} (c : M A) (k : A -> M B) l1 l2 :
  performs c l1 -> (forall a, performs (k a) l2) -> performs (c ≫= k) (l1 ++ l2).
Proof.
  intros Hc Hk w. destruct (Hc w) as (a & w1 & E1 & I1 & evs1 & T1 & C1).
  destruct (Hk a w1) as (b & w2 & E2 & I2 & evs2 & T2 & C2).
  exists b, w2. rewrite run_bind, E1. split; [exact E2|]. split; [congruence|].
  exists (evs1 ++ evs2). rewrite T2, T1, <- app_assoc. split; [reflexivity|].
  rewrite invocations_app, C1, C2. reflexivity.
Qed.

Lemma performs_for {A St} (xs : list A) (body : A -> St -> M St)
    (calls : A -> list (string * Z * Temp)) s :
  (forall x s, performs (body x s) (calls x)) ->
  performs (for_ xs body s) (concat (map calls xs)).
Proof.
  intros Hb. revert s. induction xs as [|x xs IH]; intros s.
  - apply performs_ret.
  - cbn [for_ map concat]. apply performs_bind; [apply Hb|]. intros s'. apply IH.
Qed.

Lemma performs_generate model character_to_num num_to_character
    seed_phrase length temperature :
  covers num_to_character ->
  performs (generate_text_with_seed model character_to_num num_to_character
              seed_phrase length temperature)
    [(seed_phrase, length, temperature)].
Proof.
  intros Hc w.
  destruct (generate_returns model character_to_num num_to_character
              seed_phrase length temperature w Hc) as (text & w' & G).
  assert (Ev := generate_events model character_to_num num_to_character
                  seed_phrase length temperature w).
  assert (Inv := invocations_generate model character_to_num num_to_character
                   seed_phrase length temperature w).
  cbv zeta in Ev. rewrite G in Ev, Inv. cbn [fst snd] in Ev, Inv.
  destruct Ev as (_ & I & evs & T & _).
  exists text, w'. split; [exact G|]. split; [exact I|].
  eexists. split; [exact T|]. rewrite (new_events_app _ _ _ T) in Inv. exact Inv.
Qed.

Lemma concat_singletons {A B} (f : A -> B) (l : list A) :
  concat (map (fun x => [f x]) l) = map f l.
Proof. induction l as [|x l IH]; [reflexivity|]. cbn. rewrite IH. reflexivity. Qed.

(** ** What a decoding run writes, draws and feeds back *)

Lemma printed_app evs1 evs2 : printed (evs1 ++ evs2) = printed evs1 +:+ printed evs2.
Proof.
  induction evs1 as [|e evs1 IH]; [reflexivity|].
  cbn [app printed foldr]. fold (printed (evs1 ++ evs2)). fold (printed evs1).
  rewrite IH. destruct e; try reflexivity. rewrite append_assoc. reflexivity.
Qed.

Lemma printed_step_events cs : printed (map step_event cs) = EmptyString.
Proof. induction cs as [|c cs IH]; [reflexivity|exact IH]. Qed.

Lemma draws_app evs1 evs2 : draws (evs1 ++ evs2) = draws evs1 ++ draws evs2.
Proof. apply omap_app. Qed.

Lemma draws_step_events cs : draws (map step_event cs) = [].
Proof. induction cs as [|c cs IH]; [reflexivity|exact IH]. Qed.

Lemma draws_writes {A} (f : A -> string) l : draws (map (fun c => Write (f c)) l) = [].
Proof. induction l as [|c l IH]; [reflexivity|exact IH]. Qed.

Lemma draws_preamble character_to_num seed_phrase length temperature :
  draws (preamble character_to_num seed_phrase length temperature) = [].
Proof. unfold preamble. rewrite !draws_app, draws_writes. reflexivity. Qed.

Lemma spec_decode_observed model num_to_character temperature n cur h g evs text g' :
  spec_decode model num_to_character temperature n cur h g = Some (evs, text, g') ->
  printed evs = text
  /\ omap (fun k => num_to_character !! k) (draws evs) = list_ascii_of_string text
  /\ List.length (draws evs) = n
  /\ List.length (steps evs) = n
  /\ map fst (steps evs) = removelast (cur :: draws evs).
Proof.
  revert cur h g evs text g'. induction n as [|n IH]; intros cur h g evs text g'.
  - intros [= <- <- <-]. repeat split; reflexivity.
  - cbn [spec_decode]. cbv zeta.
    destruct (num_to_character !! _) as [c|] eqn:Ec; [|discriminate].
    destruct (spec_decode _ _ _ n _ _ _) as [[[evs1 text1] g1]|] eqn:E; [|discriminate].
    intros [= <- <- <-].
    destruct (IH _ _ _ _ _ _ E) as (P & D & L & Ls & F).
    split; [cbn; fold (printed evs1); rewrite P; reflexivity|].
    split.
    { unfold draws in *. cbn. rewrite Ec. cbn. rewrite D. reflexivity. }
    split; [unfold draws in *; cbn; rewrite L; reflexivity|].
    split; [unfold steps in *; cbn; rewrite Ls; reflexivity|].
    unfold steps, draws in *. cbn [app omap list_omap step_of draw_of].
    cbn [map fst]. rewrite F. reflexivity.
Qed.

Lemma removelast_app_cons {A} (l : list A) x r :
  removelast (l ++ x :: r) = l ++ removelast (x :: r).
Proof. apply removelast_app. discriminate. Qed.

Lemma split_last {A} (l : list A) (d : A) :
  l <> [] -> l = removelast l ++ [default d (last l)].
Proof.
  intros NE. destruct (last l) as [x|] eqn:El.
  - apply last_Some in El as (l' & ->). rewrite removelast_last. reflexivity.
  - apply last_None in El. contradiction.
Qed.

(** ** Tokenisation, ties in the report, lengths of the samples *)

Lemma length_list_ascii s : List.length (list_ascii_of_string s) = String.length s.
Proof. induction s as [|c s IH]; [reflexivity|]. cbn. rewrite IH. reflexivity. Qed.

Lemma known_unknown_length character_to_num seed_phrase :
  (List.length (known_ids character_to_num seed_phrase)
   + List.length (unknown_chars character_to_num seed_phrase)
   = String.length seed_phrase)%nat.
Proof.
  rewrite <- length_list_ascii. unfold known_ids, unknown_chars.
  induction (list_ascii_of_string seed_phrase) as [|c l IH]; [reflexivity|].
  cbn [omap list_omap]. rewrite filter_cons.
  destruct (character_to_num !! c) eqn:E; case_decide; try congruence;
    cbn [List.length]; lia.
Qed.

Lemma known_ids_decode character_to_num num_to_character seed_phrase :
  decodes character_to_num num_to_character ->
  omap (fun k => num_to_character !! k) (known_ids character_to_num seed_phrase)
  = filter (fun c => is_Some (character_to_num !! c))
      (list_ascii_of_string seed_phrase).
Proof.
  intros Hd. unfold known_ids.
  induction (list_ascii_of_string seed_phrase) as [|c l IH]; [reflexivity|].
  cbn [omap list_omap]. rewrite filter_cons.
  destruct (character_to_num !! c) as [k|] eqn:E.
  - case_decide as D; [|exfalso; apply D; eauto].
    cbn [omap list_omap]. rewrite (Hd c k E). f_equal. exact IH.
  - case_decide as D; [destruct D; discriminate|]. exact IH.
Qed.

Lemma insert_desc_ties (c : Z) x l :
  filter (fun item : string * Z => snd item = c) (insert_desc x l)
  = filter (fun item : string * Z => snd item = c) (x :: l).
Proof.
  induction l as [|y r IH]; [reflexivity|]. cbn [insert_desc].
  destruct (snd y <=? snd x) eqn:E; [reflexivity|].
  rewrite filter_cons, IH, !filter_cons.
  repeat case_decide; try reflexivity; lia.
Qed.

Lemma sorted_desc_ties (c : Z) items :
  filter (fun item : string * Z => snd item = c) (sorted_desc items)
  = filter (fun item : string * Z => snd item = c) items.
Proof.
  induction items as [|x r IH]; [reflexivity|].
  cbn [sorted_desc foldr]. fold (sorted_desc r).
  rewrite insert_desc_ties, !filter_cons, IH. reflexivity.
Qed.

Lemma generate_length model character_to_num num_to_character
    seed_phrase length temperature w :
  covers num_to_character ->
  known_ids character_to_num seed_phrase <> [] ->
  exists text w',
    generate_text_with_seed model character_to_num num_to_character
      seed_phrase length temperature w = (Ok text, w')
    /\ String.length text = (String.length seed_phrase + Z.to_nat length)%nat.
Proof.
  intros Hc NE.
  destruct (spec_decode_covers model num_to_character temperature
              (Z.to_nat length)
              (default 0 (last (known_ids character_to_num seed_phrase)))
              (warm_state model (known_ids character_to_num seed_phrase))
              (rng w) Hc) as [[[evs cs] g'] E].
  rewrite (generate_some _ _ _ _ _ _ _ _ _ _ NE E).
  eexists _, _. split; [reflexivity|].
  rewrite length_append, (spec_decode_length _ _ _ _ _ _ _ _ _ _ E). reflexivity.
Qed.

Lemma draw_samples_lengths model character_to_num num_to_character phrase k a acc w :
  covers num_to_character ->
  known_ids character_to_num phrase <> [] ->
  exists texts w',
    for_ (seq a k)
      (fun i samples =>
         print (Py.nl +:+ "Sample " +:+ pretty (Z.of_nat i + 1) +:+ ":");;
         text ← generate_text_with_seed model character_to_num num_to_character
                  phrase 100 temp_0_8;
         mret (samples ++ [text])) acc w
    = (Ok (acc ++ texts), w')
    /\ List.length texts = k
    /\ Forall (fun text => String.length text = (String.length phrase + 100)%nat) texts.
Proof.
  intros Hc NE. revert a acc w. induction k as [|k IH]; intros a acc w.
  - exists [], w. cbn [seq]. run. rewrite app_nil_r. auto.
  - cbn [seq]. run.
    match goal with |- context [generate_text_with_seed _ _ _ _ _ _ ?w1] =>
      destruct (generate_length model character_to_num num_to_character
                  phrase 100 temp_0_8 w1 Hc NE) as (text & w2 & G & L)
    end.
    rewrite G. run.
    destruct (IH (S a) (acc ++ [text]) w2) as (texts & w' & E & Lt & All).
    exists (text :: texts), w'. rewrite E, <- app_assoc.
    split; [reflexivity|]. split; [cbn; lia|]. constructor; [exact L|exact All].
Qed.

Lemma total_length_fixed (n : nat) samples :
  Forall (fun text => String.length text = n) samples ->
  total_length samples = Z.of_nat (List.length samples) * Z.of_nat n.
Proof.
  intros All. rewrite total_length_sum.
  induction All as [|s r Hs _ IH]; [reflexivity|].
  cbn [map List.length].
  change (list_sum (?x :: ?l)) with (x + list_sum l)%nat. rewrite Hs. lia.
Qed.

(** ** Words, sentences and the frequency table *)

Lemma split_list_nil l :
  Text.split_list l = [] <-> Forall (fun c => Py.isspace c = true) l.
Proof.
  induction l as [|c r IH]; [split; auto|]. cbn [Text.split_list].
  destruct (Py.isspace c) eqn:Ec.
  - rewrite IH. split; [intros Hr; constructor; assumption|].
    intros Hr. inversion Hr; assumption.
  - split.
    + destruct r as [|c' r']; [discriminate|].
      destruct (Py.isspace c'); [discriminate|].
      destruct (Text.split_list (c' :: r')); discriminate.
    + intros Hr. inversion Hr; congruence.
Qed.

Lemma split_list_concat l :
  concat (Text.split_list l) = filter (fun c => Py.isspace c = false) l.
Proof.
  induction l as [|c r IH]; [reflexivity|]. cbn [Text.split_list].
  rewrite filter_cons. destruct (Py.isspace c) eqn:Ec.
  - rewrite decide_False by discriminate. exact IH.
  - rewrite decide_True by reflexivity. rewrite <- IH.
    destruct r as [|c' r']; [reflexivity|].
    destruct (Py.isspace c'); [reflexivity|].
    destruct (Text.split_list (c' :: r')); reflexivity.
Qed.

Lemma split_list_words l :
  Forall (fun word => word <> [] /\ Forall (fun c => Py.isspace c = false) word)
    (Text.split_list l).
Proof.
  induction l as [|c r IH]; [constructor|]. cbn [Text.split_list].
  destruct (Py.isspace c) eqn:Ec; [exact IH|].
  destruct r as [|c' r']; [repeat constructor; [discriminate|assumption]|].
  destruct (Py.isspace c').
  - constructor; [|exact IH]. split; [discriminate|]. repeat constructor. exact Ec.
  - destruct (Text.split_list (c' :: r')) as [|word words].
    + repeat constructor; [discriminate|assumption].
    + inversion IH as [|? ? [Hne Hw] Hws]; subst.
      constructor; [|exact Hws]. split; [discriminate|]. constructor; assumption.
Qed.

Lemma length_string_of_list l :
  String.length (string_of_list_ascii l) = List.length l.
Proof. induction l as [|c l IH]; [reflexivity|]. cbn. rewrite IH. reflexivity. Qed.

Lemma letters_from words acc :
  foldl (fun acc word => acc + Z.of_nat (String.length word)) acc
    (map string_of_list_ascii words)
  = acc + Z.of_nat (List.length (concat words)).
Proof.
  revert acc. induction words as [|word words IH]; intros acc; cbn [map foldl concat].
  - cbn. lia.
  - rewrite IH, length_string_of_list, length_app. lia.
Qed.

Lemma letters_split text :
  letters (Text.split text)
  = Z.of_nat (List.length (filter (fun c => Py.isspace c = false)
                             (list_ascii_of_string text))).
Proof.
  unfold letters, Text.split. rewrite letters_from, split_list_concat. lia.
Qed.

Lemma lstrip_list_nil l :
  Py.lstrip_list Py.isspace l = [] <-> Forall (fun c => Py.isspace c = true) l.
Proof.
  induction l as [|c r IH]; [split; auto|]. cbn [Py.lstrip_list].
  destruct (Py.isspace c) eqn:Ec.
  - rewrite IH. split; [intros Hr; constructor; assumption|].
    intros Hr. inversion Hr; assumption.
  - split; [discriminate|]. intros Hr. inversion Hr; congruence.
Qed.

Lemma lstrip_list_suffix l :
  exists skipped,
    l = skipped ++ Py.lstrip_list Py.isspace l
    /\ Forall (fun c => Py.isspace c = true) skipped.
Proof.
  induction l as [|c r (skipped & E & All)]; [exists []; auto|].
  cbn [Py.lstrip_list]. destruct (Py.isspace c) eqn:Ec.
  - exists (c :: skipped). split; [cbn; congruence|]. constructor; assumption.
  - exists []. auto.
Qed.

Lemma strip_list_nil l :
  Py.strip_list Py.isspace l = [] <-> Forall (fun c => Py.isspace c = true) l.
Proof.
  unfold Py.strip_list. split.
  - intros E. apply (f_equal (@rev ascii)) in E. rewrite rev_involutive in E.
    cbn in E. apply lstrip_list_nil in E.
    destruct (lstrip_list_suffix l) as (skipped & El & All).
    rewrite El. apply Forall_app. split; [exact All|].
    apply Forall_rev in E. rewrite rev_involutive in E. exact E.
  - intros All. apply lstrip_list_nil in All. rewrite All. reflexivity.
Qed.

Lemma strip_blank s :
  Py.truthy (Py.strip s) = false
  <-> Forall (fun c => Py.isspace c = true) (list_ascii_of_string s).
Proof.
  unfold Py.strip. rewrite <- strip_list_nil.
  destruct (Py.strip_list Py.isspace (list_ascii_of_string s)); cbn; split;
    congruence.
Qed.

Lemma pieces_all (Q : ascii -> Prop) sep l :
  Forall (Forall Q) (Text.pieces sep l)
  <-> Forall (fun c => sep c = true \/ Q c) l.
Proof.
  induction l as [|c r IH]; [split; repeat constructor|].
  cbn [Text.pieces]. destruct (sep c) eqn:Ec.
  - assert (S : Forall (Forall Q) ([] :: Text.pieces sep r)
                <-> Forall (Forall Q) (Text.pieces sep r)).
    { split; [intros Hp; inversion Hp; assumption|]. intros Hp. constructor; auto. }
    assert (R : Forall (Forall Q) (Text.pieces sep r)
                <-> Forall (fun c => sep c = true \/ Q c) (c :: r)).
    { rewrite IH. split; [intros Hr; constructor; auto|].
      intros Hr. inversion Hr; assumption. }
    destruct r as [|c' r']; [rewrite S; exact R|].
    destruct (sep c'); [exact R|rewrite S; exact R].
  - destruct (Text.pieces sep r) as [|piece rest].
    + split.
      * intros Hp. inversion Hp as [|? ? Hc _]; subst. inversion Hc; subst.
        constructor; [auto|]. apply IH. constructor.
      * intros Hr. inversion Hr as [|? ? [Hc|Hc] _]; subst; [congruence|].
        repeat constructor. exact Hc.
    + split.
      * intros Hp. inversion Hp as [|? ? Hc Hrest]; subst.
        inversion Hc; subst. constructor; [auto|]. apply IH. constructor; assumption.
      * intros Hr. inversion Hr as [|? ? [Hc|Hc] Hr']; subst; [congruence|].
        apply IH in Hr'. inversion Hr'; subst.
        constructor; [constructor|]; assumption.
Qed.

Lemma not_solid c :
  solid c = false <-> Text.sentence_end c = true \/ Py.isspace c = true.
Proof.
  unfold solid. destruct (Py.isspace c), (Text.sentence_end c); cbn; intuition congruence.
Qed.

Lemma sentences_nil text :
  sentences_of text = []
  <-> Forall (fun c => solid c = false) (list_ascii_of_string text).
Proof.
  unfold sentences_of, Text.re_split.
  assert (Eq : Forall (fun c => solid c = false) (list_ascii_of_string text)
               <-> Forall (fun c => Text.sentence_end c = true \/ Py.isspace c = true)
                     (list_ascii_of_string text)).
  { split; intros Hf; (eapply Forall_impl; [exact Hf|]); intros c; apply not_solid. }
  rewrite Eq, <- (pieces_all (fun c => Py.isspace c = true)).
  split.
  - intros E. apply map_eq_nil in E.
    induction (Text.pieces Text.sentence_end (list_ascii_of_string text))
      as [|piece rest IH]; [constructor|].
    cbn [map] in E. rewrite filter_cons in E.
    destruct (Py.truthy (Py.strip (string_of_list_ascii piece))) eqn:Et.
    + rewrite decide_True in E by reflexivity. discriminate.
    + rewrite decide_False in E by discriminate.
      constructor; [|apply IH, E].
      apply strip_blank in Et. rewrite list_ascii_of_string_of_list_ascii in Et.
      exact Et.
  - intros All.
    induction All as [|piece rest Hp _ IH]; [reflexivity|].
    cbn [map]. rewrite filter_cons.
    rewrite <- (list_ascii_of_string_of_list_ascii piece) in Hp.
    apply strip_blank in Hp. rewrite decide_False by congruence. exact IH.
Qed.

Lemma bump_keys d c :
  map fst (bump d c)
  = if in_dec ascii_dec c (map fst d) then map fst d else map fst d ++ [c].
Proof.
  induction d as [|[k v] r IH]; cbn [bump map fst].
  - destruct (in_dec ascii_dec c []) as [[]|_]. reflexivity.
  - destruct (Ascii.eqb c k) eqn:E.
    + apply Ascii.eqb_eq in E as ->.
      destruct (in_dec ascii_dec k (k :: map fst r)) as [_|Hn]; [reflexivity|].
      exfalso. apply Hn. left. reflexivity.
    + apply Ascii.eqb_neq in E. cbn [map fst]. rewrite IH.
      destruct (in_dec ascii_dec c (map fst r)) as [Hin|Hin];
        destruct (in_dec ascii_dec c (k :: map fst r)) as [Hin'|Hin'];
        try reflexivity.
      * exfalso. apply Hin'. right. exact Hin.
      * exfalso. destruct Hin' as [?|?]; [congruence|contradiction].
Qed.

Lemma bump_other d c k v : In (k, v) (bump d c) -> k <> c -> In (k, v) d.
Proof.
  induction d as [|[k' v'] r IH]; cbn [bump].
  - intros [[= <- <-]|[]] Hne. congruence.
  - destruct (Ascii.eqb c k') eqn:E.
    + apply Ascii.eqb_eq in E as <-. intros [[= <- <-]|Hin] Hne; [congruence|].
      right. exact Hin.
    + intros [Heq|Hin] Hne; [left; exact Heq|right; apply IH; assumption].
Qed.

Lemma bump_new d c v : ~ In c (map fst d) -> In (c, v) (bump d c) -> v = 1.
Proof.
  induction d as [|[k' v'] r IH]; cbn [bump map fst].
  - intros _ [[= <-]|[]]. reflexivity.
  - intros Hnot. destruct (Ascii.eqb c k') eqn:E.
    + apply Ascii.eqb_eq in E as <-. exfalso. apply Hnot. left. reflexivity.
    + apply Ascii.eqb_neq in E. intros [[= <- <-]|Hin]; [congruence|].
      apply IH; [|exact Hin]. intros Hr. apply Hnot. right. exact Hr.
Qed.

Lemma in_keys (d : list (ascii * Z)) k v : In (k, v) d -> In k (map fst d).
Proof. intros Hin. apply (in_map fst) in Hin. exact Hin. Qed.

Lemma bump_old d c v0 v :
  List.NoDup (map fst d) -> In (c, v0) d -> In (c, v) (bump d c) -> v = v0 + 1.
Proof.
  induction d as [|[k' v'] r IH]; cbn [bump map fst]; [intros _ []|].
  intros Hnd. apply List.NoDup_cons_iff in Hnd as [Hk Hr].
  destruct (Ascii.eqb c k') eqn:E.
  - apply Ascii.eqb_eq in E as <-. intros [[= <-]|Hin0].
    + intros [[= <-]|Hin]; [reflexivity|]. exfalso. apply Hk. eapply in_keys, Hin.
    + exfalso. apply Hk. eapply in_keys, Hin0.
  - apply Ascii.eqb_neq in E. intros [[= <- <-]|Hin0]; [congruence|].
    intros [[= <- <-]|Hin]; [congruence|]. apply IH; assumption.
Qed.

(** The table after a text: one entry per character met, holding the
    number of times it was met. *)
Lemma char_freq_from l :
  let d := foldl bump [] l in
  List.NoDup (map fst d)
  /\ (forall k v, In (k, v) d -> v = Z.of_nat (count_occ ascii_dec l k) /\ 0 < v)
  /\ (forall k, In k l -> In k (map fst d)).
Proof.
  induction l as [|c l IH] using rev_ind.
  - cbn. split; [constructor|]. split; intros; contradiction.
  - cbv zeta in *. rewrite foldl_app. cbn [foldl].
    destruct IH as (Hnd & Hv & Hk). set (d := foldl bump [] l) in *.
    assert (Hc : In c (map fst (bump d c))).
    { rewrite bump_keys. destruct (in_dec ascii_dec c (map fst d)); [assumption|].
      apply in_or_app. right. left. reflexivity. }
    split; [|split].
    + rewrite bump_keys. destruct (in_dec ascii_dec c (map fst d)) as [Hin|Hin];
        [exact Hnd|].
      apply List.NoDup_app; [exact Hnd|repeat constructor; intros []|].
      intros x Hx [<-|[]]. contradiction.
    + intros k v Hin. rewrite count_occ_app. cbn [count_occ].
      destruct (ascii_dec c k) as [<-|Hne].
      * destruct (in_dec ascii_dec c (map fst d)) as [Hold|Hnew].
        -- apply in_map_iff in Hold as ([k0 v0] & Ek & Hold). cbn in Ek. subst k0.
           rewrite (bump_old d c v0 v Hnd Hold Hin).
           destruct (Hv c v0 Hold) as (-> & Hpos). lia.
        -- rewrite (bump_new d c v Hnew Hin).
           rewrite (proj1 (count_occ_not_In ascii_dec l c)); [lia|].
           intros Hl. apply Hnew, Hk, Hl.
      * apply bump_other in Hin; [|congruence].
        destruct (Hv k v Hin) as (-> & Hpos). lia.
    + intros k Hin. apply in_app_or in Hin as [Hin|[<-|[]]]; [|exact Hc].
      apply Hk in Hin. rewrite bump_keys.
      destruct (in_dec ascii_dec c (map fst d)); [exact Hin|].
      apply in_or_app. left. exact Hin.
Qed.

Lemma bump_total d c :
  foldr (fun item acc => snd item + acc) 0 (bump d c)
  = foldr (fun item acc => snd item + acc) 0 d + 1.
Proof.
  induction d as [|[k v] r IH]; cbn [bump foldr snd]; [lia|].
  destruct (Ascii.eqb c k); cbn [foldr snd]; [lia|]. rewrite IH. lia.
Qed.

Lemma char_freq_total l :
  foldr (fun item acc => snd item + acc) 0 (foldl bump [] l)
  = Z.of_nat (List.length l).
Proof.
  induction l as [|c l IH] using rev_ind; [reflexivity|].
  rewrite foldl_app. cbn [foldl]. rewrite bump_total, IH, length_app. cbn. lia.
Qed.

Lemma insert_by_count_perm {K} (x : K * Z) l :
  Permutation (insert_by_count x l) (x :: l).
Proof.
  induction l as [|y r IH]; [reflexivity|]. cbn [insert_by_count].
  destruct (snd y <=? snd x); [reflexivity|].
  rewrite IH. apply perm_swap.
Qed.

Lemma sorted_by_count_perm {K} (items : list (K * Z)) :
  Permutation (sorted_by_count items) items.
Proof.
  induction items as [|x r IH]; [reflexivity|].
  cbn [sorted_by_count foldr]. rewrite insert_by_count_perm. constructor. exact IH.
Qed.

Lemma insert_by_count_sorted {K} (x : K * Z) l :
  StronglySorted by_count l -> StronglySorted by_count (insert_by_count x l).
Proof.
  induction 1 as [|y r Hr IH Hy]; cbn [insert_by_count].
  - repeat constructor.
  - destruct (snd y <=? snd x) eqn:E.
    + constructor; [constructor; assumption|]. constructor.
      * unfold by_count. lia.
      * eapply Forall_impl; [exact Hy|]. unfold by_count. intros z Hz. lia.
    + constructor; [exact IH|].
      rewrite (insert_by_count_perm x r). constructor; [|exact Hy].
      unfold by_count. lia.
Qed.

Lemma sorted_by_count_sorted {K} (items : list (K * Z)) :
  StronglySorted by_count (sorted_by_count items).
Proof.
  induction items as [|x r IH]; [constructor|].
  cbn [sorted_by_count foldr]. apply insert_by_count_sorted, IH.
Qed.

Section More.

Variables (model : Model).
Variables (character_to_num : gmap ascii Z) (num_to_character : gmap Z ascii).

Local Abbreviation generate :=
  (generate_text_with_seed model character_to_num num_to_character).
Local Abbreviation turn :=
  (session_turn model character_to_num num_to_character).
Local Abbreviation run_session :=
  (session model character_to_num num_to_character).
Local Abbreviation generate_checked refuses :=
  (generate_text_with_seed_checked refuses model character_to_num
     num_to_character).
Local Abbreviation turn_checked refuses :=
  (session_turn_checked refuses model character_to_num num_to_character).

(** The drivers.  When every id that can be drawn has a character, each
    driver returns, reads nothing, and calls the engine once per item of
    its list, in the order of the list and with its fixed parameters; a
    seed the engine rejects does not stop it.  For the classic phrases:
    length 120 and temperature 0.8. *)

Theorem sherlock_phrases_calls :
  covers num_to_character ->
  performs (test_sherlock_phrases model character_to_num num_to_character)
    (map (fun phrase => (phrase, 120, temp_0_8)) classic_phrases).
Proof.
  intros Hc. unfold test_sherlock_phrases, for_each_phrase.
  change (map _ classic_phrases)
    with ([] ++ [] ++ map (fun phrase => (phrase, 120, temp_0_8)) classic_phrases).
  do 2 (apply performs_bind; [apply performs_print|]; intros _).
  rewrite <- concat_singletons. apply performs_for. intros phrase [].
  rewrite <- (app_nil_r [_]).
  apply performs_bind; [apply performs_generate, Hc|]. intros _. apply performs_ret.
Qed.

(** The temperature sweep: one call per temperature of its list, in the
    order of the list, on the seed [My dear Watson] with length 100. *)
Theorem temperature_sweep_calls str_of_float t03 t05 t10 t15 t20 :
  covers num_to_character ->
  performs (test_temperature_effects model character_to_num num_to_character
              str_of_float t03 t05 t10 t15 t20)
    (map (fun temp => ("My dear Watson", 100, temp))
         (temperatures t03 t05 t10 t15 t20)).
Proof.
  intros Hc. unfold test_temperature_effects.
  change (map ?f ?l) with ([] ++ [] ++ map f l).
  do 2 (apply performs_bind; [apply performs_print|]; intros _).
  rewrite <- concat_singletons. apply performs_for. intros temp [].
  change [?c] with ([] ++ [] ++ [c] ++ []).
  do 2 (apply performs_bind; [apply performs_print|]; intros _).
  apply performs_bind; [apply performs_generate, Hc|]. intros _. apply performs_ret.
Qed.

(** The seed-length sweep: one call per seed, category after category in
    the order of the dict, with length 80 and temperature 0.8. *)
Theorem seed_lengths_calls :
  covers num_to_character ->
  performs (test_seed_lengths model character_to_num num_to_character)
    (map (fun seed => (seed, 80, temp_0_8)) (concat (map snd seeds))).
Proof.
  intros Hc. unfold test_seed_lengths.
  change (map ?f ?l) with ([] ++ [] ++ map f l).
  do 2 (apply performs_bind; [apply performs_print|]; intros _).
  replace (map (fun seed => (seed, 80, temp_0_8)) (concat (map snd seeds)))
    with (concat (map (fun item : string * list string =>
                         map (fun seed => (seed, 80, temp_0_8)) (snd item)) seeds))
    by reflexivity.
  apply performs_for. intros item [].
  change (map ?f ?l) with ([] ++ [] ++ map f l).
  do 2 (apply performs_bind; [apply performs_print|]; intros _).
  rewrite <- concat_singletons. apply performs_for. intros seed [].
  rewrite <- (app_nil_r [_]).
  apply performs_bind; [apply performs_generate, Hc|]. intros _. apply performs_ret.
Qed.

(** A length that is zero or negative: the loop does not run.  The
    engine returns the seed as it was given, after the warm-up, without
    drawing, whether or not the vocabulary covers the ids. *)
Theorem nonpositive_length_returns_seed seed_phrase length temperature w :
  known_ids character_to_num seed_phrase <> [] ->
  length <= 0 ->
  generate seed_phrase length temperature w
  = (Ok seed_phrase,
     mkWorld (stdin w) (rng w)
       (trace w
        ++ preamble character_to_num seed_phrase length temperature
        ++ map step_event
             (chain model (removelast (known_ids character_to_num seed_phrase)) None)
        ++ [Write (separator +:+ Py.nl)])).
Proof.
  intros NE Hl.
  rewrite (generate_some model character_to_num num_to_character
             seed_phrase length temperature w [] EmptyString (rng w) NE).
  - rewrite append_nil_r. reflexivity.
  - replace (Z.to_nat length) with O by lia. reflexivity.
Qed.

(** What an exception of the engine tells, when the sampler validates
    its argument.  [KeyError] comes right after the draw of an id that
    [num_to_character] does not have.  [ValueError] comes right after a
    division by the temperature and the softmax whose result the sampler
    refuses, before anything is drawn from it.  In both cases nothing
    more is written: the separator line is not. *)
Theorem engine_exceptions_have_causes refuses seed_phrase length temperature w e :
  let r := generate_text_with_seed_checked refuses model character_to_num
             num_to_character seed_phrase length temperature w in
  r.1 = Raise e ->
  (e = KeyError ->
   exists before probs k,
     new_events w r.2 = before ++ [Sample probs k]
     /\ num_to_character !! k = None)
  /\ (e = ValueError ->
      exists before output,
        new_events w r.2
        = before ++ [Div output temperature;
                     Softmax (div_temperature output temperature)]
        /\ refuses (softmax (div_temperature output temperature)) = true).
Proof.
  cbv zeta.
  destruct (known_ids character_to_num seed_phrase) as [|t ts] eqn:Ek.
  { rewrite generate_checked_empty, generate_empty by exact Ek. discriminate. }
  assert (NE : known_ids character_to_num seed_phrase <> []) by congruence.
  destruct (generate_checked_run refuses model character_to_num
              num_to_character seed_phrase length temperature w NE)
    as (evs & T & _ & _ & K & V).
  intros E. rewrite T. split.
  - intros ->. destruct (K E) as (before & probs & k & -> & Hk).
    exists (preamble character_to_num seed_phrase length temperature
            ++ map step_event
                 (chain model
                    (removelast (known_ids character_to_num seed_phrase)) None)
            ++ before), probs, k.
    split; [rewrite <- !app_assoc; reflexivity|exact Hk].
  - intros ->. destruct (V E) as (before & output & -> & Hr).
    exists (preamble character_to_num seed_phrase length temperature
            ++ map step_event
                 (chain model
                    (removelast (known_ids character_to_num seed_phrase)) None)
            ++ before), output.
    split; [rewrite <- !app_assoc; reflexivity|exact Hr].
Qed.

(** Seed characters outside the vocabulary have no influence on what is
    generated: two seeds with the same known characters, from the same
    generator state, make the same calls of the network and either both
    raise or return their own seed followed by the same continuation. *)
Theorem unknown_characters_do_not_matter seed1 seed2 length temperature w1 w2 :
  known_ids character_to_num seed1 = known_ids character_to_num seed2 ->
  known_ids character_to_num seed1 <> [] ->
  rng w1 = rng w2 ->
  let r1 := generate seed1 length temperature w1 in
  let r2 := generate seed2 length temperature w2 in
  (forall text,
     r1.1 = Ok text ->
     exists continuation,
       text = seed1 +:+ continuation
       /\ r2.1 = Ok (seed2 +:+ continuation)
       /\ rng r1.2 = rng r2.2
       /\ steps (new_events w1 r1.2) = steps (new_events w2 r2.2))
  /\ (forall e, r1.1 = Raise e -> r2.1 = Raise e).
Proof.
  intros Ek NE1 Er r1 r2.
  assert (NE2 : known_ids character_to_num seed2 <> []) by congruence.
  subst r1 r2.
  destruct (spec_decode model num_to_character temperature (Z.to_nat length)
              (default 0 (last (known_ids character_to_num seed1)))
              (warm_state model (known_ids character_to_num seed1))
              (rng w1)) as [[[evs text] g']|] eqn:E.
  - assert (E2 := E). rewrite Ek, Er in E2.
    rewrite (generate_some _ _ _ _ _ _ _ _ _ _ NE1 E).
    rewrite (generate_some _ _ _ _ _ _ _ _ _ _ NE2 E2). cbn [fst snd]. split.
    + intros t [= <-]. exists text. split; [reflexivity|]. split; [reflexivity|].
      cbn [rng]. split; [reflexivity|].
      erewrite !new_events_app by reflexivity.
      rewrite !steps_app, !steps_preamble, Ek. reflexivity.
    + intros e [=].
  - assert (E2 := E). rewrite Ek, Er in E2.
    destruct (generate_none _ _ _ _ _ _ _ NE1 E) as (w1' & ->).
    destruct (generate_none _ _ _ _ _ _ _ NE2 E2) as (w2' & ->). cbn [fst]. split.
    + intros t [=].
    + intros e [= <-]. reflexivity.
Qed.

(** What the engine writes is what it returns: whenever it returns a text
    for an accepted seed, the text written, in order, is the warnings, the
    two heading lines, the text returned, and the separator line. *)
Theorem written_text_is_returned_text seed_phrase length temperature w text :
  known_ids character_to_num seed_phrase <> [] ->
  (generate seed_phrase length temperature w).1 = Ok text ->
  printed (new_events w (generate seed_phrase length temperature w).2)
  = printed (map (fun c => Write (warning c +:+ Py.nl))
               (unknown_chars character_to_num seed_phrase))
    +:+ (("Seed: '" +:+ seed_phrase +:+ "'") +:+ Py.nl)
    +:+ ("Generated text:" +:+ Py.nl)
    +:+ text
    +:+ (separator +:+ Py.nl).
Proof.
  intros NE.
  destruct (spec_decode model num_to_character temperature (Z.to_nat length)
              (default 0 (last (known_ids character_to_num seed_phrase)))
              (warm_state model (known_ids character_to_num seed_phrase))
              (rng w)) as [[[evs cs] g']|] eqn:E.
  - rewrite (generate_some _ _ _ _ _ _ _ _ _ _ NE E). cbn [fst snd].
    intros [= <-]. erewrite new_events_app by reflexivity.
    destruct (spec_decode_observed _ _ _ _ _ _ _ _ _ _ E) as (P & _).
    unfold preamble. rewrite !printed_app, printed_step_events, P.
    cbn [printed foldr]. rewrite !append_nil_r.
    change (EmptyString +:+ ?x) with x.
    rewrite !append_assoc. reflexivity.
  - destruct (generate_none _ _ _ _ _ _ _ NE E) as (w' & ->). discriminate.
Qed.

(** Autoregression.  Whenever the engine returns a text for an accepted
    seed, the continuation is the decoding of the ids drawn, one character
    per draw, and the tokens the network was given are the seed tokens
    followed by the ids drawn, all but the last of them. *)
Theorem drawn_ids_are_fed_back seed_phrase length temperature w text :
  known_ids character_to_num seed_phrase <> [] ->
  (generate seed_phrase length temperature w).1 = Ok text ->
  let evs := new_events w (generate seed_phrase length temperature w).2 in
  exists continuation,
    text = seed_phrase +:+ continuation
    /\ omap (fun k => num_to_character !! k) (draws evs)
       = list_ascii_of_string continuation
    /\ List.length (draws evs) = Z.to_nat length
    /\ map fst (steps evs)
       = removelast (known_ids character_to_num seed_phrase ++ draws evs).
Proof.
  intros NE.
  destruct (spec_decode model num_to_character temperature (Z.to_nat length)
              (default 0 (last (known_ids character_to_num seed_phrase)))
              (warm_state model (known_ids character_to_num seed_phrase))
              (rng w)) as [[[evs cs] g']|] eqn:E.
  - rewrite (generate_some _ _ _ _ _ _ _ _ _ _ NE E). cbn [fst snd].
    intros [= <-]. cbv zeta. erewrite new_events_app by reflexivity.
    destruct (spec_decode_observed _ _ _ _ _ _ _ _ _ _ E) as (_ & D & L & _ & F).
    exists cs. split; [reflexivity|].
    rewrite !draws_app, draws_preamble, draws_step_events. cbn [app].
    change (draws [Write _]) with (@nil Z). rewrite app_nil_r.
    split; [exact D|]. split; [exact L|].
    rewrite !steps_app, steps_preamble, steps_step_events. cbn [app].
    change (steps [Write _]) with (@nil (Z * option Hidden)). rewrite app_nil_r.
    rewrite map_app, chain_tokens, F.
    rewrite (split_last (known_ids character_to_num seed_phrase) 0 NE) at 3.
    rewrite <- app_assoc. cbn [app]. rewrite removelast_app_cons. reflexivity.
  - destruct (generate_none _ _ _ _ _ _ _ NE E) as (w' & ->). discriminate.
Qed.

(** Tokenising a seed never fails.  Every character of the seed gives
    either one id or one warning line, so ids and warnings together are
    as many as the characters; and when the two vocabulary maps agree,
    decoding the ids gives back the seed without the characters the
    vocabulary does not know (the whole seed when it knows them all). *)
Theorem tokenization_round_trip seed_phrase w :
  exists ids w',
    seed_to_indices character_to_num seed_phrase w = (Ok ids, w')
    /\ (List.length ids + List.length (new_events w w')
        = String.length seed_phrase)%nat
    /\ (decodes character_to_num num_to_character ->
        omap (fun k => num_to_character !! k) ids
        = filter (fun c => is_Some (character_to_num !! c))
            (list_ascii_of_string seed_phrase))
    /\ (decodes character_to_num num_to_character ->
        new_events w w' = [] ->
        string_of_list_ascii (omap (fun k => num_to_character !! k) ids)
        = seed_phrase).
Proof.
  eexists _, _. split; [apply seed_to_indices_run|].
  erewrite new_events_app by reflexivity.
  split; [rewrite length_map; apply known_unknown_length|].
  split; [apply known_ids_decode|].
  intros Hd Enil. rewrite (known_ids_decode _ _ _ Hd).
  apply map_eq_nil in Enil. unfold unknown_chars in Enil.
  rewrite <- (string_of_list_ascii_of_string seed_phrase) at 2. f_equal.
  induction (list_ascii_of_string seed_phrase) as [|c l IH]; [reflexivity|].
  rewrite filter_cons in Enil. rewrite filter_cons.
  destruct (character_to_num !! c) as [k|] eqn:E.
  - rewrite decide_False in Enil by discriminate.
    rewrite decide_True by eauto. f_equal. apply IH, Enil.
  - rewrite decide_True in Enil by reflexivity. discriminate.
Qed.

(** The word [quit], in any case and with any white space around it,
    ends the session at once: nothing is called, nothing but the prompt
    is written, and the lines that follow stay unread. *)
Theorem quit_ends_session w line rest :
  stdin w = line :: rest ->
  String.eqb (Py.lower (Py.strip line)) "quit" = true ->
  run_session w
  = (Ok tt, mkWorld rest (rng w) (trace w ++ [Write seed_prompt])).
Proof.
  intros Ein Eq.
  rewrite session_unfold, run_bind,
    (turn_quit model character_to_num num_to_character w line rest Ein Eq).
  reflexivity.
Qed.

(** When standard input ends, the session ends with [EOFError], which
    nothing catches: at the seed prompt, at the length prompt, or at the
    temperature prompt after a length that parses.  No call of the engine
    is made in that turn. *)
Theorem end_of_input_raises_EOFError w :
  (stdin w = [] ->
   run_session w
   = (Raise EOFError, mkWorld [] (rng w) (trace w ++ [Write seed_prompt])))
  /\ (forall line,
        stdin w = [line] ->
        String.eqb (Py.lower (Py.strip line)) "quit" = false ->
        Py.truthy (Py.strip line) = true ->
        run_session w
        = (Raise EOFError,
           mkWorld [] (rng w)
             (trace w ++ [Write seed_prompt; Write length_prompt])))
  /\ (forall line l n,
        stdin w = [line; l] ->
        String.eqb (Py.lower (Py.strip line)) "quit" = false ->
        Py.truthy (Py.strip line) = true ->
        Py.int (Py.or_else l "150") = Some n ->
        run_session w
        = (Raise EOFError,
           mkWorld [] (rng w)
             (trace w ++ [Write seed_prompt; Write length_prompt;
                          Write temperature_prompt]))).
Proof.
  split; [|split].
  - intros Ein. rewrite session_unfold, run_bind. unfold session_turn.
    rewrite run_bind. unfold input. rewrite Ein. reflexivity.
  - intros line Ein Eq Et. rewrite session_unfold, run_bind. unfold session_turn.
    rewrite run_bind. unfold input at 1. rewrite Ein. cbv beta iota zeta.
    rewrite Eq, Et. rewrite run_bind. unfold try_except_ValueError.
    rewrite run_bind. unfold input at 1. cbn [stdin tail rng trace].
    cbv beta iota. rewrite <- !app_assoc. reflexivity.
  - intros line l n Ein Eq Et Ei. rewrite session_unfold, run_bind.
    unfold session_turn.
    rewrite run_bind. unfold input at 1. rewrite Ein. cbv beta iota zeta.
    rewrite Eq, Et. rewrite run_bind. unfold try_except_ValueError.
    rewrite run_bind. unfold input at 1. cbn [stdin tail rng trace].
    cbv beta iota. rewrite run_bind. unfold parse_int. rewrite Ei, run_ret.
    cbv beta iota. rewrite run_bind. unfold input at 1. cbn [stdin tail rng trace].
    cbv beta iota. rewrite <- !app_assoc. reflexivity.
Qed.

(** When the length and the temperature read both parse, the turn calls
    the engine with the seed stripped of surrounding white space and the
    values read; an empty length line stands for 150.  That call is
    inside the [try].  Unless it raises [ValueError] it is the only call
    of the turn and no notice is written.  When it does (a sampler that
    refuses what a temperature of zero leaves), the notice is written
    after what the call did and the engine is called a second time, with
    the defaults. *)
Theorem parsed_input_is_used refuses w line l t rest n temperature :
  stdin w = line :: l :: t :: rest ->
  String.eqb (Py.lower (Py.strip line)) "quit" = false ->
  Py.truthy (Py.strip line) = true ->
  Py.int (Py.or_else l "150") = Some n ->
  float_of_str (Py.or_else t "0.8") = Some temperature ->
  let seed := Py.strip line in
  let w1 := mkWorld rest (rng w)
              (trace w ++ [Write seed_prompt; Write length_prompt;
                           Write temperature_prompt]) in
  let first := generate_checked refuses seed n temperature w1 in
  let calls := invocations (new_events w (turn_checked refuses w).2) in
  (first.1 <> Raise ValueError ->
   turn_checked refuses w
   = (generate_checked refuses seed n temperature;; mret Next) w1
   /\ calls = [(seed, n, temperature)])
  /\ (first.1 = Raise ValueError ->
      turn_checked refuses w
      = (generate_checked refuses seed 150 temp_0_8;; mret Next)
          (mkWorld rest (rng first.2) (trace first.2 ++ [Write notice]))
      /\ calls = [(seed, n, temperature); (seed, 150, temp_0_8)])
  /\ (l = EmptyString -> n = 150).
Proof.
  intros Ein Eq Et Ei Ef seed w1 first calls.
  assert (T := turn_checked_parsed refuses model character_to_num
                 num_to_character w line l t rest n temperature
                 Ein Eq Et Ei Ef).
  cbv zeta in T. fold seed w1 in T. fold first in T.
  destruct (generate_checked_events refuses model character_to_num
              num_to_character seed n temperature w1)
    as (_ & I1 & evs1 & T1 & All1).
  fold first in I1, T1. cbn [stdin trace w1] in I1, T1.
  rewrite <- app_assoc in T1.
  split; [|split].
  - intros NV.
    assert (E : turn_checked refuses w
                = (generate_checked refuses seed n temperature;; mret Next) w1).
    { rewrite T, run_bind. fold first.
      destruct first as [[text| [] |] w2]; try reflexivity.
      contradiction NV. reflexivity. }
    split; [exact E|]. subst calls.
    assert (S2 : (turn_checked refuses w).2 = first.2).
    { rewrite E, run_bind. fold first.
      destruct first as [[text| e |] w2]; reflexivity. }
    rewrite S2, (new_events_app _ _ _ T1), invocations_app.
    change (invocations (Invoke seed n temperature :: evs1))
      with ((seed, n, temperature) :: invocations evs1).
    rewrite (invocations_none _ All1). reflexivity.
  - intros V.
    assert (E : turn_checked refuses w
                = (generate_checked refuses seed 150 temp_0_8;; mret Next)
                    (mkWorld rest (rng first.2)
                       (trace first.2 ++ [Write notice]))).
    { rewrite T. destruct first as [[text| [] |] w2]; try discriminate V.
      cbn [fst snd] in *. rewrite I1. reflexivity. }
    split; [exact E|]. subst calls.
    set (w2 := mkWorld rest (rng first.2) (trace first.2 ++ [Write notice])) in *.
    destruct (generate_checked_events refuses model character_to_num
                num_to_character seed 150 temp_0_8 w2)
      as (_ & _ & evs2 & T2 & All2).
    assert (S2 : trace (turn_checked refuses w).2
                 = trace w
                   ++ [Write seed_prompt; Write length_prompt;
                       Write temperature_prompt]
                   ++ Invoke seed n temperature :: evs1
                   ++ Write notice :: Invoke seed 150 temp_0_8 :: evs2).
    { rewrite E, run_bind.
      destruct (generate_checked refuses seed 150 temp_0_8 w2)
        as [[text| e |] w3]; cbv beta iota; rewrite ?run_ret;
        cbn [fst snd] in *; rewrite T2;
        subst w2; cbn [trace]; rewrite T1, <- !app_assoc; reflexivity. }
    rewrite (new_events_app _ _ _ S2), !invocations_app.
    change (invocations (Invoke seed n temperature
                         :: evs1 ++ Write notice
                         :: Invoke seed 150 temp_0_8 :: evs2))
      with ((seed, n, temperature)
            :: invocations (evs1 ++ Write notice
                            :: Invoke seed 150 temp_0_8 :: evs2)).
    rewrite invocations_app, (invocations_none _ All1).
    change (invocations (Write notice :: Invoke seed 150 temp_0_8 :: evs2))
      with ((seed, 150, temp_0_8) :: invocations evs2).
    rewrite (invocations_none _ All2). reflexivity.
  - intros ->. vm_compute in Ei. congruence.
Qed.

(** Without a sample (a number of samples that is zero or negative) the
    quality analysis stops at its first phrase with [ZeroDivisionError],
    having written the headings only and called nothing. *)
Theorem no_samples_no_analysis num_samples w :
  num_samples <= 0 ->
  analyze_generation_quality model character_to_num num_to_character
    num_samples w
  = (Raise ZeroDivisionError,
     mkWorld (stdin w) (rng w)
       (trace w
        ++ [Write ((Py.nl +:+ "Analyzing Generation Quality:") +:+ Py.nl);
            Write (Py.repeat_str "=" 60 +:+ Py.nl)]
        ++ analysis_heading "My dear Watson")).
Proof.
  intros Hn. unfold analyze_generation_quality, test_phrases. run.
  rewrite analysis_without_samples by exact Hn. cbn [stdin rng trace].
  rewrite <- !app_assoc. reflexivity.
Qed.

(** In the report of the analysis, stop words with the same count come in
    the order of the stop-word list. *)
Theorem report_ties_keep_list_order samples (c : Z) :
  map fst (filter (fun item : string * Z => snd item = c)
             (sorted_desc (word_counts samples)))
  = filter (fun word => count_word samples word = c) common_words.
Proof.
  rewrite sorted_desc_ties.
  unfold word_counts, common_words. cbn [foldl dict_set String.eqb Ascii.eqb Bool.eqb].
  rewrite !filter_cons, filter_nil. cbn [snd].
  repeat case_decide; reflexivity.
Qed.

(** The mean length the analysis writes for a phrase the vocabulary knows
    a character of does not depend on what is drawn: every sample is the
    phrase followed by 100 characters. *)
Theorem mean_length_is_fixed num_samples phrase w :
  covers num_to_character -> 0 < num_samples ->
  known_ids character_to_num phrase <> [] ->
  exists samples w1,
    draw_samples model character_to_num num_to_character phrase num_samples
      (mkWorld (stdin w) (rng w) (trace w ++ analysis_heading phrase))
    = (Ok samples, w1)
    /\ Forall (fun text => String.length text = (String.length phrase + 100)%nat)
         samples
    /\ analyze_phrase model character_to_num num_to_character
         num_samples phrase w
       = (Ok tt,
          mkWorld (stdin w1) (rng w1)
            (trace w1
             ++ analysis_report
                  (format_mean
                     (num_samples * (Z.of_nat (String.length phrase) + 100))
                     num_samples)
                  (sorted_desc (word_counts samples)))).
Proof.
  intros Hc Hn NE.
  destruct (analyze_phrase_run model character_to_num num_to_character
              num_samples phrase w Hc Hn)
    as (samples & w1 & D & L & _ & _ & A).
  destruct (draw_samples_lengths model character_to_num num_to_character phrase
              (Z.to_nat num_samples) 0 []
              (mkWorld (stdin w) (rng w) (trace w ++ analysis_heading phrase))
              Hc NE) as (texts & w1' & D' & _ & All).
  unfold draw_samples, range in D. rewrite D' in D. injection D as <- <-.
  cbn [app] in *. exists texts, w1'.
  split; [exact D'|]. split; [exact All|].
  rewrite A, (total_length_fixed _ _ All), L. f_equal. f_equal. f_equal. f_equal.
  f_equal. lia.
Qed.

(** The text quality analysis of [text_cleaner.py] returns only for a
    text with a character that is neither white space nor one of [.!?].
    For a text of white space only (the empty text too) it stops with
    [ZeroDivisionError] after the line of the word count, which says 0;
    for a text with words but nothing except white space and [.!?] it
    stops with [ZeroDivisionError] after the line of the sentence count,
    which says 0. *)
Theorem text_quality_needs_a_sentence format_2f text w :
  let chars := list_ascii_of_string text in
  let words := Text.split text in
  let sentences := sentences_of text in
  let counted :=
    trace w ++ quality_heading text
    ++ [Write ((Py.nl +:+ "Total words: "
                +:+ pretty (Z.of_nat (List.length words))) +:+ Py.nl)] in
  let word_line :=
    Write (("Average word length: "
            +:+ format_2f (letters words) (Z.of_nat (List.length words)))
           +:+ Py.nl) in
  let sentence_count :=
    Write (("Total sentences: "
            +:+ pretty (Z.of_nat (List.length sentences))) +:+ Py.nl) in
  (Forall (fun c => Py.isspace c = true) chars ->
   words = []
   /\ analyze_text_quality format_2f text w
      = (Raise ZeroDivisionError, mkWorld (stdin w) (rng w) counted))
  /\ (~ Forall (fun c => Py.isspace c = true) chars ->
      Forall (fun c => solid c = false) chars ->
      sentences = []
      /\ analyze_text_quality format_2f text w
         = (Raise ZeroDivisionError,
            mkWorld (stdin w) (rng w) (counted ++ [word_line; sentence_count])))
  /\ (~ Forall (fun c => solid c = false) chars ->
      analyze_text_quality format_2f text w
      = (Ok tt,
         mkWorld (stdin w) (rng w)
           (counted
            ++ [word_line; sentence_count;
                Write (("Average sentence length: "
                        +:+ format_2f (sentence_words sentences)
                              (Z.of_nat (List.length sentences))
                        +:+ " words") +:+ Py.nl)]))).
Proof.
  cbv zeta.
  assert (Wn : Text.split text = []
               <-> Forall (fun c => Py.isspace c = true) (list_ascii_of_string text)).
  { unfold Text.split. rewrite <- split_list_nil.
    destruct (Text.split_list (list_ascii_of_string text)); cbn; split; congruence. }
  assert (Sn := sentences_nil text).
  assert (Start :
    analyze_text_quality format_2f text w
    = (average ← ratio_text format_2f (letters (Text.split text))
                   (Z.of_nat (List.length (Text.split text)));
       print ("Average word length: " +:+ average);;
       print ("Total sentences: "
              +:+ pretty (Z.of_nat (List.length (sentences_of text))));;
       average ← ratio_text format_2f (sentence_words (sentences_of text))
                   (Z.of_nat (List.length (sentences_of text)));
       print ("Average sentence length: " +:+ average +:+ " words"))
        (mkWorld (stdin w) (rng w)
           (trace w ++ quality_heading text
            ++ [Write ((Py.nl +:+ "Total words: "
                        +:+ pretty (Z.of_nat (List.length (Text.split text))))
                       +:+ Py.nl)]))).
  { unfold analyze_text_quality. cbv zeta. run. rewrite print_lines. run.
    unfold quality_heading. rewrite <- !app_assoc. reflexivity. }
  rewrite Start. clear Start.
  set (words := Text.split text) in *. set (sentences := sentences_of text) in *.
  unfold ratio_text.
  split; [|split].
  - intros Hb. apply Wn in Hb. split; [exact Hb|]. rewrite Hb. reflexivity.
  - intros Hw Hs. apply Sn in Hs. split; [exact Hs|].
    destruct (Z.of_nat (List.length words) =? 0) eqn:E0.
    { exfalso. apply Hw, Wn. apply Z.eqb_eq in E0. apply nil_length_inv. lia. }
    run. rewrite Hs. cbn [List.length Z.of_nat Z.eqb]. run.
    rewrite <- !app_assoc. reflexivity.
  - intros Hs.
    assert (Hw : ~ Forall (fun c => Py.isspace c = true) (list_ascii_of_string text)).
    { intros Hb. apply Hs. eapply Forall_impl; [exact Hb|].
      intros c Hc. unfold solid. rewrite Hc. reflexivity. }
    destruct (Z.of_nat (List.length words) =? 0) eqn:E0.
    { exfalso. apply Hw, Wn. apply Z.eqb_eq in E0. apply nil_length_inv. lia. }
    run.
    destruct (Z.of_nat (List.length sentences) =? 0) eqn:E1.
    { exfalso. apply Hs, Sn. apply Z.eqb_eq in E1. apply nil_length_inv. lia. }
    run. rewrite <- !app_assoc. reflexivity.
Qed.

(** The frequency table the analysis builds has one entry per distinct
    character of the text, holding the number of its occurrences, so the
    frequencies add up to the length of the text. *)
Theorem frequency_table_counts text :
  let chars := list_ascii_of_string text in
  let table := char_freq text in
  List.NoDup (map fst table)
  /\ (forall c v,
        In (c, v) table -> v = Z.of_nat (count_occ ascii_dec chars c) /\ 0 < v)
  /\ (forall c, In c chars -> In c (map fst table))
  /\ foldr (fun item acc => snd item + acc) 0 table
     = Z.of_nat (String.length text).
Proof.
  cbv zeta. unfold char_freq.
  destruct (char_freq_from (list_ascii_of_string text)) as (Hnd & Hv & Hk).
  split; [exact Hnd|]. split; [exact Hv|]. split; [exact Hk|].
  rewrite char_freq_total, length_list_ascii. reflexivity.
Qed.

(** The analysis shows at most 20 characters, the most frequent ones, most
    frequent first: the entries shown followed by the entries left out are
    the whole table in descending order of frequency. *)
Theorem most_frequent_characters_first text :
  let shown := take 20 (sorted_by_count (char_freq text)) in
  let hidden := drop 20 (sorted_by_count (char_freq text)) in
  List.length shown = Nat.min 20 (List.length (char_freq text))
  /\ Permutation (shown ++ hidden) (char_freq text)
  /\ StronglySorted by_count (shown ++ hidden).
Proof.
  cbv zeta. rewrite take_drop, length_take.
  rewrite (Permutation_length (sorted_by_count_perm (char_freq text))).
  split; [reflexivity|]. split; [apply sorted_by_count_perm|].
  apply sorted_by_count_sorted.
Qed.

(** The words the analysis counts are never empty and hold no white
    space, and their lengths add up to the number of characters of the
    text that are not white space: the average word length written is
    that number over the number of words. *)
Theorem word_letters_are_the_non_blank_characters text :
  letters (Text.split text)
  = Z.of_nat (List.length (filter (fun c => Py.isspace c = false)
                             (list_ascii_of_string text)))
  /\ Forall (fun word =>
               word <> EmptyString
               /\ Forall (fun c => Py.isspace c = false)
                    (list_ascii_of_string word))
       (Text.split text).
Proof.
  split; [apply letters_split|].
  unfold Text.split. apply Forall_map.
  eapply Forall_impl; [apply split_list_words|].
  intros word [Hne Hw]. cbn. rewrite list_ascii_of_string_of_list_ascii.
  split; [|exact Hw]. destruct word; [contradiction|discriminate].
Qed.

End More.

End Facts.

(** C7.  The text the engine returns, what it does and the generator it
    leaves depend on the world through the state of the random generator
    only: two calls with the same network, vocabulary and request from
    worlds with the same generator agree, whatever was read or written
    before.  From different generator states the texts can differ. *)
Theorem same_generator_same_output :
  (forall (N : Numerics) (model : Model) character_to_num num_to_character
          seed_phrase length temperature (w1 w2 : World),
      rng w1 = rng w2 ->
      let r1 := generate_text_with_seed model character_to_num num_to_character
                  seed_phrase length temperature w1 in
      let r2 := generate_text_with_seed model character_to_num num_to_character
                  seed_phrase length temperature w2 in
      r1.1 = r2.1 /\ new_events w1 r1.2 = new_events w2 r2.2 /\ rng r1.2 = rng r2.2)
  /\ (exists (N : Numerics) (model : Model) character_to_num num_to_character
             seed_phrase length temperature (w1 w2 : World),
        (generate_text_with_seed model character_to_num num_to_character
           seed_phrase length temperature w1).1
        <> (generate_text_with_seed model character_to_num num_to_character
              seed_phrase length temperature w2).1).
Proof.
  split.
  - intros N model character_to_num num_to_character seed_phrase length
      temperature w1 w2 E r1 r2. subst r1 r2.
    rewrite (rng_only_generate model character_to_num num_to_character
               seed_phrase length temperature w1).
    rewrite (rng_only_generate model character_to_num num_to_character
               seed_phrase length temperature w2).
    rewrite !new_events_onto. unfold base. rewrite E. auto.
  - exists Demo.numerics, Demo.model, Demo.character_to_num, Demo.num_to_character,
      "ab", 2, (Qmake 1 1), (Demo.world [] [true; true]), (Demo.world [] [false; true]).
    vm_compute. discriminate.
Qed.

(** * The claims on the toy instance *)

Lemma demo_covers : @covers Demo.numerics Demo.num_to_character.
Proof.
  intros probs g. cbn. destruct (hd false g); vm_compute; eauto.
Qed.

Lemma demo_known seed t ts :
  known_ids Demo.character_to_num seed = t :: ts ->
  known_ids Demo.character_to_num seed <> [].
Proof. congruence. Qed.

Lemma empty_seed_is_reported_witness :
  known_ids Demo.character_to_num "xy" = []
  /\ (Demo.generate "xy" 3 (Qmake 1 1) (Demo.world [] [true])).1 = Ok EmptyString
  /\ Py.strip " xy " = "xy"
  /\ (@session Demo.numerics Demo.model Demo.character_to_num
        Demo.num_to_character (Demo.world [" xy "; "3"; "1"; "quit"] [true])).1
     = Ok tt.
Proof.
  destruct (@empty_seed_is_reported Demo.numerics Demo.model
              Demo.character_to_num Demo.num_to_character "xy" 3 (Qmake 1 1)
              (Demo.world [] [true]) eq_refl) as (G & _ & _ & _ & S).
  split; [reflexivity|]. split; [unfold Demo.generate; rewrite G; reflexivity|].
  split; [reflexivity|].
  rewrite (S (Demo.world [" xy "; "3"; "1"; "quit"] [true]) " xy " "3" "1" ["quit"]
             eq_refl eq_refl eq_refl eq_refl eq_refl eq_refl).
  vm_compute. reflexivity.
Defined.

Lemma result_starts_with_seed_witness :
  known_ids Demo.character_to_num "axb" <> []
  /\ @covers Demo.numerics Demo.num_to_character
  /\ (Demo.generate "axb" 2 (Qmake 1 1) (Demo.world [] [true; false])).1 = Ok "axbba"
  /\ String.prefix "axb" "axbba" = true.
Proof.
  assert (NE : known_ids Demo.character_to_num "axb" <> []).
  { apply (demo_known "axb" 0 [1]). reflexivity. }
  destruct (@result_starts_with_seed Demo.numerics Demo.model
              Demo.character_to_num Demo.num_to_character "axb" 2 (Qmake 1 1)
              (Demo.world [] [true; false]) NE) as (P & R).
  split; [exact NE|]. split; [exact demo_covers|].
  assert (E : (Demo.generate "axb" 2 (Qmake 1 1) (Demo.world [] [true; false])).1
              = Ok "axbba") by (vm_compute; reflexivity).
  split; [exact E|]. exact (proj1 (P "axbba" E)).
Defined.


Lemma warm_up_replays_seed_witness :
  known_ids Demo.character_to_num "abxab" <> []
  /\ 0 < 1
  /\ @steps Demo.numerics
       (new_events (Demo.world [] [])
          (Demo.generate "abxab" 0 (Qmake 1 1) (Demo.world [] [])).2)
     = [(0, None); (1, Some 1%nat); (0, Some 2%nat)]
  /\ exists evs,
       new_events (Demo.world [] [true])
         (Demo.generate "abxab" 1 (Qmake 1 1) (Demo.world [] [true])).2
       = @preamble Demo.numerics Demo.character_to_num "abxab" 1 (Qmake 1 1)
         ++ [@Step Demo.numerics 0 None; @Step Demo.numerics 1 (Some 1%nat);
             @Step Demo.numerics 0 (Some 2%nat)]
         ++ @Step Demo.numerics 1 (Some 3%nat) :: evs.
Proof.
  assert (NE : known_ids Demo.character_to_num "abxab" <> []).
  { apply (demo_known "abxab" 0 [1; 0; 1]). reflexivity. }
  split; [exact NE|]. split; [lia|]. split.
  - destruct (@warm_up_replays_seed Demo.numerics Demo.model Demo.character_to_num
                Demo.num_to_character "abxab" 0 (Qmake 1 1) (Demo.world [] []) NE)
      as (_ & _ & _ & _ & _ & _ & _ & _ & _ & _ & S).
    unfold Demo.generate. rewrite S by lia. reflexivity.
  - destruct (@warm_up_replays_seed Demo.numerics Demo.model Demo.character_to_num
                Demo.num_to_character "abxab" 1 (Qmake 1 1) (Demo.world [] [true]) NE)
      as (_ & _ & _ & _ & _ & _ & _ & _ & _ & F & _).
    destruct F as (evs & E); [lia|]. exists evs. exact E.
Defined.


Lemma division_is_unguarded_witness :
  let w := DemoMore.nan_world [] [true] in
  let run t :=
    @generate_text_with_seed_checked DemoMore.nan_numerics DemoMore.refuses
      DemoMore.nan_model Demo.character_to_num Demo.num_to_character
      "ab" 2 t w in
  known_ids Demo.character_to_num "ab" <> []
  /\ 0 < 2
  /\ DemoMore.refuses
       (@softmax DemoMore.nan_numerics
          (@div_temperature DemoMore.nan_numerics
             (Some [Qmake 1 1]) (Qmake 0 1))) = true
  /\ (run (Qmake 0 1)).1 = Raise ValueError
  /\ @divisions DemoMore.nan_numerics (new_events w (run (Qmake 0 1)).2)
     = [(Some [Qmake 1 1], Qmake 0 1)]
  /\ Forall (fun d => d.2 = Qmake (-1) 1)
       (@divisions DemoMore.nan_numerics
          (new_events w (run (Qmake (-1) 1)).2)).
Proof.
  intros w run.
  assert (NE : known_ids Demo.character_to_num "ab" <> []).
  { apply (demo_known "ab" 0 [1]). reflexivity. }
  assert (L : 0 < 2) by lia.
  split; [exact NE|]. split; [exact L|]. split; [reflexivity|].
  destruct (@division_is_unguarded DemoMore.nan_numerics DemoMore.nan_model
              Demo.character_to_num Demo.num_to_character DemoMore.refuses
              "ab" 2 (Qmake 0 1) w NE L) as (_ & _ & _ & V).
  assert (E : run (Qmake 0 1) = _) by exact (V eq_refl).
  split; [rewrite E; reflexivity|]. split; [rewrite E; reflexivity|].
  exact (proj1 (proj2 (proj2
           (@division_is_unguarded DemoMore.nan_numerics DemoMore.nan_model
              Demo.character_to_num Demo.num_to_character DemoMore.refuses
              "ab" 2 (Qmake (-1) 1) w NE L)))).
Defined.

Lemma same_generator_same_output_witness :
  rng (Demo.world ["read"; "before"] [true; false]) = rng (Demo.world [] [true; false])
  /\ (Demo.generate "ab" 2 (Qmake 1 1) (Demo.world ["read"; "before"] [true; false])).1
     = (Demo.generate "ab" 2 (Qmake 1 1) (Demo.world [] [true; false])).1.
Proof.
  split; [reflexivity|].
  exact (proj1 (proj1 same_generator_same_output Demo.numerics Demo.model
                  Demo.character_to_num Demo.num_to_character "ab" 2 (Qmake 1 1)
                  (Demo.world ["read"; "before"] [true; false])
                  (Demo.world [] [true; false]) eq_refl)).
Defined.

Lemma malformed_input_uses_defaults_witness :
  let w := Demo.world [" ab "; "abc"; "quit"] [true] in
  let v := Demo.world ["ab"; "12"; "hot"; "quit"] [true] in
  stdin w = [" ab "; "abc"; "quit"]
  /\ String.eqb (Py.lower (Py.strip " ab ")) "quit" = false
  /\ Py.truthy (Py.strip " ab ") = true
  /\ Py.int (Py.or_else "abc" "150") = None
  /\ invocations
       (new_events w
          (@session_turn Demo.numerics Demo.model Demo.character_to_num
             Demo.num_to_character w).2)
     = [("ab", 150, Qmake 4 5)]
  /\ Py.int (Py.or_else "12" "150") = Some 12
  /\ @float_of_str Demo.numerics (Py.or_else "hot" "0.8") = None
  /\ invocations
       (new_events v
          (@session_turn Demo.numerics Demo.model Demo.character_to_num
             Demo.num_to_character v).2)
     = [("ab", 150, Qmake 4 5)].
Proof.
  intros w v.
  destruct (@malformed_input_uses_defaults Demo.numerics Demo.model
              Demo.character_to_num Demo.num_to_character w " ab " "abc" ["quit"]
              eq_refl eq_refl eq_refl) as (Hl & _ & Habc).
  destruct (@malformed_input_uses_defaults Demo.numerics Demo.model
              Demo.character_to_num Demo.num_to_character v "ab" "12"
              ["hot"; "quit"] eq_refl eq_refl eq_refl) as (_ & Ht & _).
  split; [reflexivity|]. split; [reflexivity|]. split; [reflexivity|].
  split; [exact (Habc eq_refl)|].
  split; [exact (proj1 (proj2 (proj2 (Hl (Habc eq_refl)))))|].
  split; [reflexivity|]. split; [reflexivity|].
  exact (proj1 (proj2 (proj2 (Ht 12 "hot" ["quit"] eq_refl eq_refl eq_refl)))).
Defined.


Lemma session_never_sends_empty_seed_witness :
  let w := Demo.world ["   "; "quit"] [] in
  stdin w = ["   "; "quit"]
  /\ Py.strip "   " = EmptyString
  /\ @session_turn Demo.numerics Demo.model Demo.character_to_num
       Demo.num_to_character w
     = (Ok Next, @mkWorld Demo.numerics ["quit"] [] [Write seed_prompt]).
Proof.
  intros w. split; [reflexivity|]. split; [reflexivity|].
  exact (proj1 (proj2 (proj2 (@session_never_sends_empty_seed Demo.numerics
                                Demo.model Demo.character_to_num
                                Demo.num_to_character w))
                  "   " ["quit"] eq_refl eq_refl)).
Defined.

(** * The further properties on the toy instance *)

Lemma demo_decodes :
  decodes Demo.character_to_num Demo.num_to_character.
Proof.
  intros [[] [] [] [] [] [] [] []] k; vm_compute; intros E;
    try discriminate E; injection E as <-; reflexivity.
Qed.

Lemma sherlock_phrases_calls_witness :
  @covers Demo.numerics Demo.num_to_character
  /\ exists w',
       @test_sherlock_phrases Demo.numerics Demo.model Demo.character_to_num
         Demo.num_to_character (Demo.world ["kept"] []) = (Ok tt, w')
       /\ stdin w' = ["kept"].
Proof.
  split; [exact demo_covers|].
  destruct (@sherlock_phrases_calls Demo.numerics Demo.model Demo.character_to_num
              Demo.num_to_character demo_covers (Demo.world ["kept"] []))
    as ([] & w' & E & I & _).
  exists w'. split; [exact E|exact I].
Defined.

Lemma temperature_sweep_calls_witness :
  @covers Demo.numerics Demo.num_to_character
  /\ exists w',
       @test_temperature_effects Demo.numerics Demo.model Demo.character_to_num
         Demo.num_to_character DemoMore.str_of_float
         (Qmake 3 10) (Qmake 1 2) (Qmake 1 1) (Qmake 3 2) (Qmake 2 1)
         (Demo.world [] []) = (Ok tt, w')
       /\ @invocations Demo.numerics (trace w')
          = [("My dear Watson", 100, Qmake 3 10); ("My dear Watson", 100, Qmake 1 2);
             ("My dear Watson", 100, Qmake 4 5); ("My dear Watson", 100, Qmake 1 1);
             ("My dear Watson", 100, Qmake 3 2); ("My dear Watson", 100, Qmake 2 1)].
Proof.
  split; [exact demo_covers|].
  destruct (@temperature_sweep_calls Demo.numerics Demo.model Demo.character_to_num
              Demo.num_to_character DemoMore.str_of_float
              (Qmake 3 10) (Qmake 1 2) (Qmake 1 1) (Qmake 3 2) (Qmake 2 1)
              demo_covers (Demo.world [] []))
    as ([] & w' & E & _ & evs & T & Inv).
  exists w'. split; [exact E|]. rewrite T. exact Inv.
Defined.

Lemma seed_lengths_calls_witness :
  @covers Demo.numerics Demo.num_to_character
  /\ exists w',
       @test_seed_lengths Demo.numerics Demo.model Demo.character_to_num
         Demo.num_to_character (Demo.world [] []) = (Ok tt, w')
       /\ List.length (@invocations Demo.numerics (trace w')) = 9%nat.
Proof.
  split; [exact demo_covers|].
  destruct (@seed_lengths_calls Demo.numerics Demo.model Demo.character_to_num
              Demo.num_to_character demo_covers (Demo.world [] []))
    as ([] & w' & E & _ & evs & T & Inv).
  exists w'. split; [exact E|]. rewrite T.
  change (List.length (invocations evs) = 9%nat). rewrite Inv. reflexivity.
Defined.

Lemma nonpositive_length_returns_seed_witness :
  known_ids Demo.character_to_num "axb" <> []
  /\ -5 <= 0
  /\ (Demo.generate "axb" (-5) (Qmake 1 1) (Demo.world [] [true])).1 = Ok "axb"
  /\ rng (Demo.generate "axb" (-5) (Qmake 1 1) (Demo.world [] [true])).2 = [true].
Proof.
  assert (NE : known_ids Demo.character_to_num "axb" <> []).
  { apply (demo_known "axb" 0 [1]). reflexivity. }
  assert (L : -5 <= 0) by lia.
  split; [exact NE|]. split; [exact L|].
  unfold Demo.generate.
  rewrite (@nonpositive_length_returns_seed Demo.numerics Demo.model
             Demo.character_to_num Demo.num_to_character "axb" (-5) (Qmake 1 1)
             (Demo.world [] [true]) NE L).
  split; reflexivity.
Defined.

Lemma engine_exceptions_have_causes_witness :
  let w := DemoMore.nan_world [] [false; true; false] in
  let run num_to_character t :=
    @generate_text_with_seed_checked DemoMore.nan_numerics DemoMore.refuses
      DemoMore.nan_model Demo.character_to_num num_to_character "ab" 3 t w in
  (run DemoMore.short_num_to_character (Qmake 1 1)).1 = Raise KeyError
  /\ (exists before probs k,
        new_events w (run DemoMore.short_num_to_character (Qmake 1 1)).2
        = before ++ [@Sample DemoMore.nan_numerics probs k]
        /\ DemoMore.short_num_to_character !! k = None)
  /\ (run Demo.num_to_character (Qmake 0 1)).1 = Raise ValueError
  /\ (exists before output,
        new_events w (run Demo.num_to_character (Qmake 0 1)).2
        = before
          ++ [@Div DemoMore.nan_numerics output (Qmake 0 1);
              @Softmax DemoMore.nan_numerics
                (@div_temperature DemoMore.nan_numerics output (Qmake 0 1))]
        /\ DemoMore.refuses
             (@softmax DemoMore.nan_numerics
                (@div_temperature DemoMore.nan_numerics output (Qmake 0 1)))
           = true).
Proof.
  intros w run.
  assert (K : (run DemoMore.short_num_to_character (Qmake 1 1)).1
              = Raise KeyError) by (vm_compute; reflexivity).
  assert (V : (run Demo.num_to_character (Qmake 0 1)).1
              = Raise ValueError) by (vm_compute; reflexivity).
  split; [exact K|]. split.
  - exact (proj1 (@engine_exceptions_have_causes DemoMore.nan_numerics
                    DemoMore.nan_model Demo.character_to_num
                    DemoMore.short_num_to_character DemoMore.refuses "ab" 3
                    (Qmake 1 1) w KeyError K) eq_refl).
  - split; [exact V|].
    exact (proj2 (@engine_exceptions_have_causes DemoMore.nan_numerics
                    DemoMore.nan_model Demo.character_to_num
                    Demo.num_to_character DemoMore.refuses "ab" 3
                    (Qmake 0 1) w ValueError V) eq_refl).
Defined.

Lemma unknown_characters_do_not_matter_witness :
  known_ids Demo.character_to_num "ab" = known_ids Demo.character_to_num "xa?b!"
  /\ known_ids Demo.character_to_num "ab" <> []
  /\ rng (Demo.world [] [true; false]) = rng (Demo.world ["line"] [true; false])
  /\ (Demo.generate "ab" 2 (Qmake 1 1) (Demo.world [] [true; false])).1 = Ok "abba"
  /\ (Demo.generate "xa?b!" 2 (Qmake 1 1) (Demo.world ["line"] [true; false])).1
     = Ok "xa?b!ba".
Proof.
  assert (NE : known_ids Demo.character_to_num "ab" <> []).
  { apply (demo_known "ab" 0 [1]). reflexivity. }
  assert (E : (Demo.generate "ab" 2 (Qmake 1 1) (Demo.world [] [true; false])).1
              = Ok "abba") by (vm_compute; reflexivity).
  split; [reflexivity|]. split; [exact NE|]. split; [reflexivity|].
  split; [exact E|].
  destruct (proj1 (@unknown_characters_do_not_matter Demo.numerics Demo.model
                     Demo.character_to_num Demo.num_to_character "ab" "xa?b!" 2
                     (Qmake 1 1) (Demo.world [] [true; false])
                     (Demo.world ["line"] [true; false]) eq_refl NE eq_refl)
              "abba" E) as (continuation & Et & E2 & _).
  assert (Ec : continuation = "ba").
  { change "abba" with ("ab" +:+ "ba") in Et.
    exact (eq_sym (String.app_inj "ab" _ _ Et)). }
  rewrite Ec in E2. exact E2.
Defined.

Lemma written_text_is_returned_text_witness :
  known_ids Demo.character_to_num "ab" <> []
  /\ (Demo.generate "ab" 2 (Qmake 1 1) (Demo.world [] [true; false])).1 = Ok "abba"
  /\ printed
       (new_events (Demo.world [] [true; false])
          (Demo.generate "ab" 2 (Qmake 1 1) (Demo.world [] [true; false])).2)
     = ("Seed: 'ab'" +:+ Py.nl) +:+ ("Generated text:" +:+ Py.nl)
       +:+ "abba" +:+ (separator +:+ Py.nl).
Proof.
  assert (NE : known_ids Demo.character_to_num "ab" <> []).
  { apply (demo_known "ab" 0 [1]). reflexivity. }
  assert (E : (Demo.generate "ab" 2 (Qmake 1 1) (Demo.world [] [true; false])).1
              = Ok "abba") by (vm_compute; reflexivity).
  split; [exact NE|]. split; [exact E|].
  unfold Demo.generate.
  rewrite (@written_text_is_returned_text Demo.numerics Demo.model
             Demo.character_to_num Demo.num_to_character "ab" 2 (Qmake 1 1)
             (Demo.world [] [true; false]) "abba" NE E).
  reflexivity.
Defined.

Lemma drawn_ids_are_fed_back_witness :
  known_ids Demo.character_to_num "ab" <> []
  /\ (Demo.generate "ab" 2 (Qmake 1 1) (Demo.world [] [true; false])).1 = Ok "abba"
  /\ map fst
       (steps
          (new_events (Demo.world [] [true; false])
             (Demo.generate "ab" 2 (Qmake 1 1) (Demo.world [] [true; false])).2))
     = removelast
         (known_ids Demo.character_to_num "ab"
          ++ draws
               (new_events (Demo.world [] [true; false])
                  (Demo.generate "ab" 2 (Qmake 1 1)
                     (Demo.world [] [true; false])).2)).
Proof.
  assert (NE : known_ids Demo.character_to_num "ab" <> []).
  { apply (demo_known "ab" 0 [1]). reflexivity. }
  assert (E : (Demo.generate "ab" 2 (Qmake 1 1) (Demo.world [] [true; false])).1
              = Ok "abba") by (vm_compute; reflexivity).
  split; [exact NE|]. split; [exact E|].
  destruct (@drawn_ids_are_fed_back Demo.numerics Demo.model
              Demo.character_to_num Demo.num_to_character "ab" 2 (Qmake 1 1)
              (Demo.world [] [true; false]) "abba" NE E)
    as (continuation & _ & _ & _ & F).
  exact F.
Defined.

Lemma tokenization_round_trip_witness :
  decodes Demo.character_to_num Demo.num_to_character
  /\ omap (fun k => Demo.num_to_character !! k) (known_ids Demo.character_to_num "axb")
     = ["a"%char; "b"%char]
  /\ string_of_list_ascii
       (omap (fun k => Demo.num_to_character !! k)
          (known_ids Demo.character_to_num "abba"))
     = "abba".
Proof.
  split; [exact demo_decodes|].
  destruct (@tokenization_round_trip Demo.numerics Demo.character_to_num
              Demo.num_to_character "axb" (Demo.world [] []))
    as (ids & w' & E & _ & D & _).
  destruct (@tokenization_round_trip Demo.numerics Demo.character_to_num
              Demo.num_to_character "abba" (Demo.world [] []))
    as (ids2 & w2 & E2 & _ & _ & R).
  rewrite seed_to_indices_run in E, E2.
  injection E as <- _. injection E2 as <- <-.
  split; [rewrite (D demo_decodes); reflexivity|].
  apply (R demo_decodes). reflexivity.
Defined.

Lemma quit_ends_session_witness :
  let w := Demo.world ["  QuIt "; "never read"] [true] in
  stdin w = ["  QuIt "; "never read"]
  /\ String.eqb (Py.lower (Py.strip "  QuIt ")) "quit" = true
  /\ @session Demo.numerics Demo.model Demo.character_to_num
       Demo.num_to_character w
     = (Ok tt, @mkWorld Demo.numerics ["never read"] [true] [Write seed_prompt]).
Proof.
  intros w. split; [reflexivity|]. split; [reflexivity|].
  exact (@quit_ends_session Demo.numerics Demo.model Demo.character_to_num
           Demo.num_to_character w "  QuIt " ["never read"] eq_refl eq_refl).
Defined.

Lemma end_of_input_raises_EOFError_witness :
  (@session Demo.numerics Demo.model Demo.character_to_num
     Demo.num_to_character (Demo.world [] [])).1 = Raise EOFError
  /\ String.eqb (Py.lower (Py.strip "ab")) "quit" = false
  /\ Py.truthy (Py.strip "ab") = true
  /\ (@session Demo.numerics Demo.model Demo.character_to_num
        Demo.num_to_character (Demo.world ["ab"] [])).1 = Raise EOFError
  /\ Py.int (Py.or_else "7" "150") = Some 7
  /\ (@session Demo.numerics Demo.model Demo.character_to_num
        Demo.num_to_character (Demo.world ["ab"; "7"] [])).1 = Raise EOFError.
Proof.
  split.
  { rewrite (proj1 (@end_of_input_raises_EOFError Demo.numerics Demo.model
                      Demo.character_to_num Demo.num_to_character
                      (Demo.world [] [])) eq_refl).
    reflexivity. }
  split; [reflexivity|]. split; [reflexivity|]. split.
  { rewrite (proj1 (proj2 (@end_of_input_raises_EOFError Demo.numerics Demo.model
                             Demo.character_to_num Demo.num_to_character
                             (Demo.world ["ab"] [])))
               "ab" eq_refl eq_refl eq_refl).
    reflexivity. }
  split; [reflexivity|].
  rewrite (proj2 (proj2 (@end_of_input_raises_EOFError Demo.numerics Demo.model
                           Demo.character_to_num Demo.num_to_character
                           (Demo.world ["ab"; "7"] [])))
             "ab" "7" 7 eq_refl eq_refl eq_refl eq_refl).
  reflexivity.
Defined.

Lemma parsed_input_is_used_witness :
  let w := DemoMore.nan_world [" ab "; "7"; "2"; "quit"] [true] in
  let v := DemoMore.nan_world [" ab "; "7"; "0"; "quit"] [true] in
  let turn :=
    @session_turn_checked DemoMore.nan_numerics DemoMore.refuses
      DemoMore.nan_model Demo.character_to_num Demo.num_to_character in
  stdin w = [" ab "; "7"; "2"; "quit"]
  /\ String.eqb (Py.lower (Py.strip " ab ")) "quit" = false
  /\ Py.truthy (Py.strip " ab ") = true
  /\ Py.int (Py.or_else "7" "150") = Some 7
  /\ @float_of_str DemoMore.nan_numerics (Py.or_else "2" "0.8")
     = Some (inject_Z 2)
  /\ invocations (new_events w (turn w).2) = [("ab", 7, inject_Z 2)]
  /\ @float_of_str DemoMore.nan_numerics (Py.or_else "0" "0.8")
     = Some (inject_Z 0)
  /\ invocations (new_events v (turn v).2)
     = [("ab", 7, inject_Z 0); ("ab", 150, Qmake 4 5)].
Proof.
  intros w v turn.
  split; [reflexivity|]. split; [reflexivity|]. split; [reflexivity|].
  split; [reflexivity|]. split; [reflexivity|].
  destruct (@parsed_input_is_used DemoMore.nan_numerics DemoMore.nan_model
              Demo.character_to_num Demo.num_to_character DemoMore.refuses w
              " ab " "7" "2" ["quit"] 7 (inject_Z 2)
              eq_refl eq_refl eq_refl eq_refl eq_refl) as (Once & _ & _).
  destruct (@parsed_input_is_used DemoMore.nan_numerics DemoMore.nan_model
              Demo.character_to_num Demo.num_to_character DemoMore.refuses v
              " ab " "7" "0" ["quit"] 7 (inject_Z 0)
              eq_refl eq_refl eq_refl eq_refl eq_refl) as (_ & Twice & _).
  split.
  - apply Once. vm_compute. discriminate.
  - split; [reflexivity|]. apply Twice. vm_compute. reflexivity.
Defined.

Lemma no_samples_no_analysis_witness :
  0 <= 0
  /\ (@analyze_generation_quality Demo.numerics Demo.model Demo.character_to_num
        Demo.num_to_character 0 (Demo.world [] [])).1 = Raise ZeroDivisionError
  /\ -3 <= 0
  /\ (@analyze_generation_quality Demo.numerics Demo.model Demo.character_to_num
        Demo.num_to_character (-3) (Demo.world [] [])).1 = Raise ZeroDivisionError.
Proof.
  assert (L0 : 0 <= 0) by lia. assert (L3 : -3 <= 0) by lia.
  split; [exact L0|]. split.
  { rewrite (@no_samples_no_analysis Demo.numerics Demo.model Demo.character_to_num
               Demo.num_to_character 0 (Demo.world [] []) L0).
    reflexivity. }
  split; [exact L3|].
  rewrite (@no_samples_no_analysis Demo.numerics Demo.model Demo.character_to_num
             Demo.num_to_character (-3) (Demo.world [] []) L3).
  reflexivity.
Defined.

Lemma mean_length_is_fixed_witness :
  @covers Demo.numerics Demo.num_to_character
  /\ 0 < 3
  /\ known_ids Demo.character_to_num "a tab" <> []
  /\ exists samples w1,
       @draw_samples Demo.numerics Demo.model Demo.character_to_num
         Demo.num_to_character "a tab" 3
         (@mkWorld Demo.numerics [] [true]
            ([] ++ @analysis_heading Demo.numerics "a tab"))
       = (Ok samples, w1)
       /\ Forall (fun text => String.length text = 105%nat) samples.
Proof.
  assert (NE : known_ids Demo.character_to_num "a tab" <> []).
  { apply (demo_known "a tab" 0 [0; 1]). reflexivity. }
  assert (L : 0 < 3) by lia.
  split; [exact demo_covers|]. split; [exact L|]. split; [exact NE|].
  destruct (@mean_length_is_fixed Demo.numerics Demo.model Demo.character_to_num
              Demo.num_to_character 3 "a tab" (Demo.world [] [true])
              demo_covers L NE) as (samples & w1 & D & All & _).
  exists samples, w1. split; [exact D|exact All].
Defined.

Lemma text_quality_needs_a_sentence_witness :
  Forall (fun c => Py.isspace c = true) (list_ascii_of_string "  ")
  /\ (@analyze_text_quality Demo.numerics DemoMore.format_2f "  "
        (Demo.world [] [])).1 = Raise ZeroDivisionError
  /\ ~ Forall (fun c => Py.isspace c = true) (list_ascii_of_string "?! ...")
  /\ Forall (fun c => solid c = false) (list_ascii_of_string "?! ...")
  /\ (@analyze_text_quality Demo.numerics DemoMore.format_2f "?! ..."
        (Demo.world [] [])).1 = Raise ZeroDivisionError
  /\ ~ Forall (fun c => solid c = false) (list_ascii_of_string "It is. So!")
  /\ (@analyze_text_quality Demo.numerics DemoMore.format_2f "It is. So!"
        (Demo.world [] [])).1 = Ok tt.
Proof.
  assert (B : Forall (fun c => Py.isspace c = true) (list_ascii_of_string "  ")).
  { repeat constructor. }
  assert (NB : ~ Forall (fun c => Py.isspace c = true) (list_ascii_of_string "?! ...")).
  { intros Hf. inversion Hf as [|? ? Hc _]. discriminate Hc. }
  assert (NS : Forall (fun c => solid c = false) (list_ascii_of_string "?! ...")).
  { repeat constructor. }
  assert (S : ~ Forall (fun c => solid c = false) (list_ascii_of_string "It is. So!")).
  { intros Hf. inversion Hf as [|? ? Hc _]. discriminate Hc. }
  split; [exact B|]. split.
  { rewrite (proj2 (proj1 (@text_quality_needs_a_sentence Demo.numerics
                             DemoMore.format_2f "  " (Demo.world [] [])) B)).
    reflexivity. }
  split; [exact NB|]. split; [exact NS|]. split.
  { rewrite (proj2 (proj1 (proj2 (@text_quality_needs_a_sentence Demo.numerics
                                    DemoMore.format_2f "?! ..." (Demo.world [] [])))
                      NB NS)).
    reflexivity. }
  split; [exact S|].
  rewrite (proj2 (proj2 (@text_quality_needs_a_sentence Demo.numerics
                           DemoMore.format_2f "It is. So!" (Demo.world [] []))) S).
  reflexivity.
Defined.
